(** * Test-scenario lifecycle of uss_qualifier: a shallow embedding

    Source: monitoring/uss_qualifier/scenarios/scenario.py (the classes
    [PendingCheck] and [TestScenario], the factory [make_test_scenario] and
    the discovery [find_test_scenarios]).

    Python objects that the scenario mutates through several references
    (case reports, step reports, pending checks) live in a store indexed by
    location; every other attribute of the scenario is a field of the state.
    Exceptions are results: an operation returns an outcome together with the
    state it left behind, so mutations made before a [raise] stay visible.

    The file has four parts: the model, the vocabulary of the statements,
    examples, and the properties with their proofs. *)

From Stdlib Require Import String Ascii List ZArith Bool Lia.
From Stdlib Require Import Sorting.Sorted Sorting.Permutation OrdersEx.
From stdpp Require Import base option list strings gmap pretty.

Local Open Scope string_scope.
Local Open Scope list_scope.

(** ** Plain data *)

Definition ParticipantID := string.
Definition datetime := Z.

(** [StringBasedDateTime(t)]: the textual form of an instant. *)
Record StringBasedDateTime := SBDT { sbdt_of : datetime }.

(** Modelled from the spec: [Severity] is imported from
    [common_data_definitions], which is not part of the sources at hand; the
    data model lists its values as [Low | High | Critical]. *)
Inductive Severity := Low | High | Critical.

Definition Severity_eqb (a b : Severity) : bool :=
  match a, b with
  | Low, Low | High, High | Critical, Critical => true
  | _, _ => false
  end.

Inductive ScenarioPhase :=
| Undefined
| NotStarted
| ReadyForTestCase
| ReadyForTestStep
| RunningTestStep
| ReadyForCleanup
| CleaningUp
| Complete.

Definition ScenarioPhase_eqb (a b : ScenarioPhase) : bool :=
  match a, b with
  | Undefined, Undefined
  | NotStarted, NotStarted
  | ReadyForTestCase, ReadyForTestCase
  | ReadyForTestStep, ReadyForTestStep
  | RunningTestStep, RunningTestStep
  | ReadyForCleanup, ReadyForCleanup
  | CleaningUp, CleaningUp
  | Complete, Complete => true
  | _, _ => false
  end.

(** [phase in expected_phase] *)
Definition phase_in (p : ScenarioPhase) (ps : list ScenarioPhase) : bool :=
  existsb (ScenarioPhase_eqb p) ps.

(** The text of an error message, kept as the values its f-string
    interpolates (the rendering of a set or of an enum member is left to
    Python). *)
Inductive Message :=
| WrongPhase (me : string) (phase : ScenarioPhase) (caller : string)
             (expected : list ScenarioPhase)
| UndeclaredCase (me name : string) (declared : list string)
| CaseAlreadyRun (name me : string)
| UndeclaredStep (me name case : string) (declared : list string)
| UndeclaredCheck (me name step case : string) (declared : list string)
| NoCleanupDocumented (me : string)
| CleanupSkipped (me : string)
| AlreadyComplete (me : string)
| SeverityIssue (severity : Severity) (summary : string)
| Text (s : string).

(** Python exceptions the modelled code can raise.  [AttributeError] and
    [TypeError] come from using [None] where an object is expected;
    [DanglingReference] cannot happen in Python (a reference always has a
    target) and marks a store that is not well formed. *)
Inductive Exn :=
| RuntimeError (m : Message)
| ValueError (m : string)
| NotImplementedError (m : string)
| AttributeError
| TypeError
| ScenarioCannotContinueError (m : Message)
| TestRunCannotContinueError (m : Message)
| DanglingReference
| OtherException (m : string).

Definition is_RuntimeError (e : Exn) : bool :=
  match e with RuntimeError _ => true | _ => false end.

(** ** Documentation

    Modelled from the spec: the documentation classes are declared in
    [scenarios/documentation/definitions.py], which is not part of the
    sources at hand; the fields are the ones scenario.py reads. *)

Record TestCheckDocumentation := {
  check_name : string;
  check_url : string;
  applicable_requirements : list string;
}.

Record TestStepDocumentation := {
  step_name : string;
  step_url : string;
  checks : list TestCheckDocumentation;
}.

Record TestCaseDocumentation := {
  case_name : string;
  case_url : string;
  steps : list TestStepDocumentation;
}.

(** [cleanup]: [None] when the key is absent, [Some None] when it is present
    and holds [None]. *)
Record TestScenarioDocumentation := {
  doc_name : string;
  doc_url : string;
  cases : list TestCaseDocumentation;
  cleanup : option (option TestStepDocumentation);
}.

Record TestScenarioDeclaration := {
  scenario_type : string;
}.

(** ** Reports

    Modelled from the spec: the report classes are declared in
    [reports/report.py], which is not part of the sources at hand; the
    fields are the ones scenario.py writes.  An optional key of a report is
    an [option]. *)

(** Locations of the store. *)
Abbreviation loc := nat.

Record Query := {
  q_method : string;
  q_url : string;
  q_status_code : Z;
}.

Record FailedCheck := {
  fc_name : string;
  fc_documentation_url : string;
  fc_timestamp : StringBasedDateTime;
  fc_summary : string;
  fc_details : string;
  fc_requirements : list string;
  fc_severity : Severity;
  fc_participants : list ParticipantID;
  fc_additional_data : option string;
  fc_query_report_timestamps : option (list StringBasedDateTime);
}.

Record PassedCheck := {
  pc_name : string;
  pc_participants : list ParticipantID;
  pc_requirements : list string;
}.

Record TestStepReport := {
  sr_name : string;
  sr_documentation_url : string;
  sr_start_time : StringBasedDateTime;
  sr_end_time : option StringBasedDateTime;
  failed_checks : list FailedCheck;
  passed_checks : list PassedCheck;
  queries : option (list Query);
}.

Record TestCaseReport := {
  cr_name : string;
  cr_documentation_url : string;
  cr_start_time : StringBasedDateTime;
  cr_end_time : option StringBasedDateTime;
  cr_steps : list loc;
}.

Record Note := {
  note_message : string;
  note_timestamp : StringBasedDateTime;
}.

Inductive ErrorReport := create_from_exception (e : Exn).

Record TestScenarioReport := {
  r_name : string;
  r_scenario_type : string;
  r_documentation_url : string;
  r_start_time : StringBasedDateTime;
  r_end_time : option StringBasedDateTime;
  r_cases : list loc;
  r_notes : option (gmap string Note);
  r_cleanup : option loc;
  execution_error : option ErrorReport;
  successful : option bool;
}.

(** ** Pending checks and the scenario *)

(** A callable, by identity; what it does is given by an interpretation of
    callables (see [run_callback] below). *)
Definition Callback := nat.

(** [pc_step_report] is the attribute [_step_report] of the pending check
    (the scenario has an attribute of the same name). *)
Record PendingCheck := {
  _documentation : TestCheckDocumentation;
  _participants : list ParticipantID;
  pc_step_report : option loc;
  _on_failed_check : option Callback;
  _outcome_recorded : bool;
}.

(** The scenario instance and the store of the objects it shares.
    [declaration] and [documentation] are only annotated in the class:
    [documentation] is bound by [__init__] and [declaration] by the factory,
    after the constructor has returned.  [None] stands for an attribute that
    is not bound, and reading it raises [AttributeError].  [me] is
    [inspection.fullname(self.__class__)]. *)
Record State := {
  declaration : option TestScenarioDeclaration;
  documentation : option TestScenarioDocumentation;
  me : string;
  on_failed_check : option Callback;
  _phase : ScenarioPhase;
  _scenario_report : option TestScenarioReport;
  _current_case : option TestCaseDocumentation;
  _case_report : option loc;
  _current_step : option TestStepDocumentation;
  _step_report : option loc;
  case_store : list TestCaseReport;
  step_store : list TestStepReport;
  check_store : list PendingCheck;
}.

(** *** Attribute assignment *)

Definition set_phase (p : ScenarioPhase) (s : State) : State :=
  {| declaration := declaration s; documentation := documentation s;
     me := me s; on_failed_check := on_failed_check s;
     _phase := p;
     _scenario_report := _scenario_report s;
     _current_case := _current_case s; _case_report := _case_report s;
     _current_step := _current_step s; _step_report := _step_report s;
     case_store := case_store s; step_store := step_store s;
     check_store := check_store s |}.

Definition set_scenario_report (r : option TestScenarioReport) (s : State) : State :=
  {| declaration := declaration s; documentation := documentation s;
     me := me s; on_failed_check := on_failed_check s;
     _phase := _phase s;
     _scenario_report := r;
     _current_case := _current_case s; _case_report := _case_report s;
     _current_step := _current_step s; _step_report := _step_report s;
     case_store := case_store s; step_store := step_store s;
     check_store := check_store s |}.

Definition set_current_case (c : option TestCaseDocumentation) (s : State) : State :=
  {| declaration := declaration s; documentation := documentation s;
     me := me s; on_failed_check := on_failed_check s;
     _phase := _phase s;
     _scenario_report := _scenario_report s;
     _current_case := c; _case_report := _case_report s;
     _current_step := _current_step s; _step_report := _step_report s;
     case_store := case_store s; step_store := step_store s;
     check_store := check_store s |}.

Definition set_case_report (l : option loc) (s : State) : State :=
  {| declaration := declaration s; documentation := documentation s;
     me := me s; on_failed_check := on_failed_check s;
     _phase := _phase s;
     _scenario_report := _scenario_report s;
     _current_case := _current_case s; _case_report := l;
     _current_step := _current_step s; _step_report := _step_report s;
     case_store := case_store s; step_store := step_store s;
     check_store := check_store s |}.

Definition set_current_step (d : option TestStepDocumentation) (s : State) : State :=
  {| declaration := declaration s; documentation := documentation s;
     me := me s; on_failed_check := on_failed_check s;
     _phase := _phase s;
     _scenario_report := _scenario_report s;
     _current_case := _current_case s; _case_report := _case_report s;
     _current_step := d; _step_report := _step_report s;
     case_store := case_store s; step_store := step_store s;
     check_store := check_store s |}.

Definition set_step_report (l : option loc) (s : State) : State :=
  {| declaration := declaration s; documentation := documentation s;
     me := me s; on_failed_check := on_failed_check s;
     _phase := _phase s;
     _scenario_report := _scenario_report s;
     _current_case := _current_case s; _case_report := _case_report s;
     _current_step := _current_step s; _step_report := l;
     case_store := case_store s; step_store := step_store s;
     check_store := check_store s |}.

Definition set_case_store (h : list TestCaseReport) (s : State) : State :=
  {| declaration := declaration s; documentation := documentation s;
     me := me s; on_failed_check := on_failed_check s;
     _phase := _phase s;
     _scenario_report := _scenario_report s;
     _current_case := _current_case s; _case_report := _case_report s;
     _current_step := _current_step s; _step_report := _step_report s;
     case_store := h; step_store := step_store s;
     check_store := check_store s |}.

Definition set_step_store (h : list TestStepReport) (s : State) : State :=
  {| declaration := declaration s; documentation := documentation s;
     me := me s; on_failed_check := on_failed_check s;
     _phase := _phase s;
     _scenario_report := _scenario_report s;
     _current_case := _current_case s; _case_report := _case_report s;
     _current_step := _current_step s; _step_report := _step_report s;
     case_store := case_store s; step_store := h;
     check_store := check_store s |}.

Definition set_check_store (h : list PendingCheck) (s : State) : State :=
  {| declaration := declaration s; documentation := documentation s;
     me := me s; on_failed_check := on_failed_check s;
     _phase := _phase s;
     _scenario_report := _scenario_report s;
     _current_case := _current_case s; _case_report := _case_report s;
     _current_step := _current_step s; _step_report := _step_report s;
     case_store := case_store s; step_store := step_store s;
     check_store := h |}.

(** *** Updates of report objects *)

Definition step_with_end_time (t : StringBasedDateTime) (r : TestStepReport) : TestStepReport :=
  {| sr_name := sr_name r; sr_documentation_url := sr_documentation_url r;
     sr_start_time := sr_start_time r; sr_end_time := Some t;
     failed_checks := failed_checks r; passed_checks := passed_checks r;
     queries := queries r |}.

Definition step_with_failed_checks (l : list FailedCheck) (r : TestStepReport) : TestStepReport :=
  {| sr_name := sr_name r; sr_documentation_url := sr_documentation_url r;
     sr_start_time := sr_start_time r; sr_end_time := sr_end_time r;
     failed_checks := l; passed_checks := passed_checks r;
     queries := queries r |}.

Definition step_with_passed_checks (l : list PassedCheck) (r : TestStepReport) : TestStepReport :=
  {| sr_name := sr_name r; sr_documentation_url := sr_documentation_url r;
     sr_start_time := sr_start_time r; sr_end_time := sr_end_time r;
     failed_checks := failed_checks r; passed_checks := l;
     queries := queries r |}.

Definition step_with_queries (l : option (list Query)) (r : TestStepReport) : TestStepReport :=
  {| sr_name := sr_name r; sr_documentation_url := sr_documentation_url r;
     sr_start_time := sr_start_time r; sr_end_time := sr_end_time r;
     failed_checks := failed_checks r; passed_checks := passed_checks r;
     queries := l |}.

Definition case_with_end_time (t : StringBasedDateTime) (r : TestCaseReport) : TestCaseReport :=
  {| cr_name := cr_name r; cr_documentation_url := cr_documentation_url r;
     cr_start_time := cr_start_time r; cr_end_time := Some t;
     cr_steps := cr_steps r |}.

Definition case_with_steps (l : list loc) (r : TestCaseReport) : TestCaseReport :=
  {| cr_name := cr_name r; cr_documentation_url := cr_documentation_url r;
     cr_start_time := cr_start_time r; cr_end_time := cr_end_time r;
     cr_steps := l |}.

Definition report_with_end_time (t : StringBasedDateTime) (r : TestScenarioReport) : TestScenarioReport :=
  {| r_name := r_name r; r_scenario_type := r_scenario_type r;
     r_documentation_url := r_documentation_url r;
     r_start_time := r_start_time r; r_end_time := Some t;
     r_cases := r_cases r; r_notes := r_notes r; r_cleanup := r_cleanup r;
     execution_error := execution_error r; successful := successful r |}.

Definition report_with_cases (l : list loc) (r : TestScenarioReport) : TestScenarioReport :=
  {| r_name := r_name r; r_scenario_type := r_scenario_type r;
     r_documentation_url := r_documentation_url r;
     r_start_time := r_start_time r; r_end_time := r_end_time r;
     r_cases := l; r_notes := r_notes r; r_cleanup := r_cleanup r;
     execution_error := execution_error r; successful := successful r |}.

Definition report_with_notes (n : option (gmap string Note)) (r : TestScenarioReport) : TestScenarioReport :=
  {| r_name := r_name r; r_scenario_type := r_scenario_type r;
     r_documentation_url := r_documentation_url r;
     r_start_time := r_start_time r; r_end_time := r_end_time r;
     r_cases := r_cases r; r_notes := n; r_cleanup := r_cleanup r;
     execution_error := execution_error r; successful := successful r |}.

Definition report_with_cleanup (l : option loc) (r : TestScenarioReport) : TestScenarioReport :=
  {| r_name := r_name r; r_scenario_type := r_scenario_type r;
     r_documentation_url := r_documentation_url r;
     r_start_time := r_start_time r; r_end_time := r_end_time r;
     r_cases := r_cases r; r_notes := r_notes r; r_cleanup := l;
     execution_error := execution_error r; successful := successful r |}.

Definition report_with_execution_error (e : option ErrorReport) (r : TestScenarioReport) : TestScenarioReport :=
  {| r_name := r_name r; r_scenario_type := r_scenario_type r;
     r_documentation_url := r_documentation_url r;
     r_start_time := r_start_time r; r_end_time := r_end_time r;
     r_cases := r_cases r; r_notes := r_notes r; r_cleanup := r_cleanup r;
     execution_error := e; successful := successful r |}.

Definition report_with_successful (b : option bool) (r : TestScenarioReport) : TestScenarioReport :=
  {| r_name := r_name r; r_scenario_type := r_scenario_type r;
     r_documentation_url := r_documentation_url r;
     r_start_time := r_start_time r; r_end_time := r_end_time r;
     r_cases := r_cases r; r_notes := r_notes r; r_cleanup := r_cleanup r;
     execution_error := execution_error r; successful := b |}.

Definition check_with_outcome_recorded (b : bool) (c : PendingCheck) : PendingCheck :=
  {| _documentation := _documentation c; _participants := _participants c;
     pc_step_report := pc_step_report c; _on_failed_check := _on_failed_check c;
     _outcome_recorded := b |}.

(** ** Python dictionaries whose key order is observed

    [{c.name: c for c in xs}]: a later entry with a key already present
    replaces the value and keeps the key's position. *)
Module PyDict.
Section Dict.
Context {V : Type}.

Fixpoint set (k : string) (v : V) (d : list (string * V)) : list (string * V) :=
  match d with
  | [] => [(k, v)]
  | (k', v') :: d' =>
      if String.eqb k k' then (k', v) :: d' else (k', v') :: set k v d'
  end.

Fixpoint get (k : string) (d : list (string * V)) : option V :=
  match d with
  | [] => None
  | (k', v') :: d' => if String.eqb k k' then Some v' else get k d'
  end.

Definition keys (d : list (string * V)) : list string := map fst d.

(** [{key x: x for x in xs}] *)
Definition comprehension (key : V -> string) (xs : list V) : list (string * V) :=
  fold_left (fun d x => set (key x) x d) xs [].
End Dict.
End PyDict.

(** ** The monad of scenario operations: state and exceptions *)

Inductive Outcome (A : Type) :=
| Ok (a : A)
| Raise (e : Exn).
Arguments Ok {A} a.
Arguments Raise {A} e.

Definition M (A : Type) : Type := State -> Outcome A * State.

Definition ret {A} (a : A) : M A := fun s => (Ok a, s).

Definition bind {A B} (m : M A) (k : A -> M B) : M B :=
  fun s =>
    match m s with
    | (Ok a, s') => k a s'
    | (Raise e, s') => (Raise e, s')
    end.

Definition raise {A} (e : Exn) : M A := fun s => (Raise e, s).
Definition get : M State := fun s => (Ok s, s).
Definition modify (f : State -> State) : M unit := fun s => (Ok tt, f s).

(** [try: m except RuntimeError as e: h e] *)
Definition try_except_RuntimeError {A} (m : M A) (h : Exn -> M A) : M A :=
  fun s =>
    match m s with
    | (Ok a, s') => (Ok a, s')
    | (Raise e, s') => if is_RuntimeError e then h e s' else (Raise e, s')
    end.

Declare Scope py_scope.
Delimit Scope py_scope with py.
Notation "x <- m ;; k" := (bind m (fun x => k))
  (at level 100, m at next level, right associativity) : py_scope.
Notation "m ;;; k" := (bind m (fun _ => k))
  (at level 100, right associativity) : py_scope.
Local Open Scope py_scope.

(** [for x in xs: body x] *)
Fixpoint for_each {A} (xs : list A) (body : A -> M unit) : M unit :=
  match xs with
  | [] => ret tt
  | x :: xs' => body x ;;; for_each xs' body
  end.

(** Dereferencing: an attribute of an [Optional] that is [None], and a
    location of the store. *)
Definition attr_of {A} (o : option A) : M A :=
  match o with
  | Some a => ret a
  | None => raise AttributeError
  end.

Definition deref {A} (h : list A) (l : loc) : M A :=
  match h !! l with
  | Some a => ret a
  | None => raise DanglingReference
  end.

(** [[f x for x in xs]] *)
Fixpoint list_comprehension {A B} (xs : list A) (f : A -> M B) : M (list B) :=
  match xs with
  | [] => ret []
  | x :: xs' => y <- f x ;; ys <- list_comprehension xs' f ;; ret (y :: ys)
  end.

(** *** Objects of the store *)

Definition new_case_report (r : TestCaseReport) : M loc :=
  s <- get ;;
  modify (set_case_store (case_store s ++ [r])) ;;;
  ret (length (case_store s)).

Definition new_step_report (r : TestStepReport) : M loc :=
  s <- get ;;
  modify (set_step_store (step_store s ++ [r])) ;;;
  ret (length (step_store s)).

Definition new_pending_check (c : PendingCheck) : M loc :=
  s <- get ;;
  modify (set_check_store (check_store s ++ [c])) ;;;
  ret (length (check_store s)).

Definition update_case_report (l : loc) (f : TestCaseReport -> TestCaseReport) : M unit :=
  s <- get ;;
  r <- deref (case_store s) l ;;
  modify (set_case_store (<[l := f r]> (case_store s))).

Definition update_step_report (l : loc) (f : TestStepReport -> TestStepReport) : M unit :=
  s <- get ;;
  r <- deref (step_store s) l ;;
  modify (set_step_store (<[l := f r]> (step_store s))).

Definition update_pending_check (l : loc) (f : PendingCheck -> PendingCheck) : M unit :=
  s <- get ;;
  c <- deref (check_store s) l ;;
  modify (set_check_store (<[l := f c]> (check_store s))).

(** An assignment through [self._scenario_report]. *)
Definition update_scenario_report (f : TestScenarioReport -> TestScenarioReport) : M unit :=
  s <- get ;;
  r <- attr_of (_scenario_report s) ;;
  modify (set_scenario_report (Some (f r))).

(** ** class TestScenario

    [datetime.utcnow()] and [arrow.utcnow()] are read from the environment:
    the instant is the argument [now] of the operation. *)

Definition _make_scenario_report (now : datetime) : M unit :=
  s <- get ;;
  self_documentation <- attr_of (documentation s) ;;
  self_declaration <- attr_of (declaration s) ;;
  modify (set_scenario_report
            (Some {| r_name := doc_name self_documentation;
                     r_scenario_type := scenario_type self_declaration;
                     r_documentation_url := doc_url self_documentation;
                     r_start_time := SBDT now;
                     r_end_time := None;
                     r_cases := [];
                     r_notes := None;
                     r_cleanup := None;
                     execution_error := None;
                     successful := None |})).

(** [caller] is [inspect.stack()[1].function]; a single phase is passed as
    the one-element collection the function wraps it into. *)
Definition _expect_phase (caller : string) (expected_phase : list ScenarioPhase) : M unit :=
  s <- get ;;
  if phase_in (_phase s) expected_phase then ret tt
  else raise (RuntimeError (WrongPhase (me s) (_phase s) caller expected_phase)).

Definition record_note (key message : string) (now : datetime) : M unit :=
  _expect_phase "record_note"
    [NotStarted; ReadyForTestCase; ReadyForTestStep; RunningTestStep;
     ReadyForCleanup; CleaningUp] ;;;
  s <- get ;;
  match _scenario_report s with
  | None => raise TypeError (* ["notes" not in None] *)
  | Some r =>
      let notes := match r_notes r with Some n => n | None => ∅ end in
      modify (set_scenario_report
                (Some (report_with_notes
                         (Some (<[key := {| note_message := message;
                                            note_timestamp := SBDT now |}]> notes))
                         r)))
  end.

Definition begin_test_scenario (now : datetime) : M unit :=
  _expect_phase "begin_test_scenario" [NotStarted] ;;;
  _make_scenario_report now ;;;
  modify (set_phase ReadyForTestCase).

Definition begin_test_case (name : string) (now : datetime) : M unit :=
  _expect_phase "begin_test_case" [ReadyForTestCase] ;;;
  s <- get ;;
  self_documentation <- attr_of (documentation s) ;;
  let available_cases := PyDict.comprehension case_name (cases self_documentation) in
  match PyDict.get name available_cases with
  | None =>
      raise (RuntimeError (UndeclaredCase (me s) name (PyDict.keys available_cases)))
  | Some c =>
      r <- attr_of (_scenario_report s) ;;
      ran <- list_comprehension (r_cases r)
               (fun l => cr <- deref (case_store s) l ;; ret (cr_name cr)) ;;
      if existsb (String.eqb name) ran
      then raise (RuntimeError (CaseAlreadyRun name (me s)))
      else
        modify (set_current_case (Some c)) ;;;
        l <- new_case_report {| cr_name := case_name c;
                                cr_documentation_url := case_url c;
                                cr_start_time := SBDT now;
                                cr_end_time := None;
                                cr_steps := [] |} ;;
        modify (set_case_report (Some l)) ;;;
        update_scenario_report (fun r => report_with_cases (r_cases r ++ [l]) r) ;;;
        modify (set_phase ReadyForTestStep)
  end.

Definition begin_test_step (name : string) (now : datetime) : M unit :=
  _expect_phase "begin_test_step" [ReadyForTestStep] ;;;
  s <- get ;;
  current_case <- attr_of (_current_case s) ;;
  let available_steps := PyDict.comprehension step_name (steps current_case) in
  match PyDict.get name available_steps with
  | None =>
      raise (RuntimeError (UndeclaredStep (me s) name (case_name current_case)
                             (PyDict.keys available_steps)))
  | Some d =>
      modify (set_current_step (Some d)) ;;;
      l <- new_step_report {| sr_name := step_name d;
                              sr_documentation_url := step_url d;
                              sr_start_time := SBDT now;
                              sr_end_time := None;
                              failed_checks := [];
                              passed_checks := [];
                              queries := None |} ;;
      modify (set_step_report (Some l)) ;;;
      cl <- attr_of (_case_report s) ;;
      update_case_report cl (fun r => case_with_steps (cr_steps r ++ [l]) r) ;;;
      modify (set_phase RunningTestStep)
  end.

(** The [print] calls of [record_note] and [record_query] write to the
    console, which is not part of the state. *)
Definition record_query (query : Query) : M unit :=
  _expect_phase "record_query" [RunningTestStep; CleaningUp] ;;;
  s <- get ;;
  match _step_report s with
  | None => raise TypeError (* ["queries" not in None] *)
  | Some l =>
      update_step_report l
        (fun r => step_with_queries
                    (Some (match queries r with Some q => q | None => [] end ++ [query])) r)
  end.

Definition check (name : string) (participants : option (list ParticipantID)) : M loc :=
  _expect_phase "check" [RunningTestStep; CleaningUp] ;;;
  s <- get ;;
  current_step <- attr_of (_current_step s) ;;
  let available_checks := PyDict.comprehension check_name (checks current_step) in
  match PyDict.get name available_checks with
  | None =>
      (* the message reads [self._current_case.name] *)
      current_case <- attr_of (_current_case s) ;;
      raise (RuntimeError (UndeclaredCheck (me s) name (step_name current_step)
                             (case_name current_case) (PyDict.keys available_checks)))
  | Some check_documentation =>
      new_pending_check
        {| _documentation := check_documentation;
           _participants := match participants with None => [] | Some p => p end;
           pc_step_report := _step_report s;
           _on_failed_check := on_failed_check s;
           _outcome_recorded := false |}
  end.

Definition end_test_step (now : datetime) : M unit :=
  _expect_phase "end_test_step" [RunningTestStep] ;;;
  s <- get ;;
  l <- attr_of (_step_report s) ;;
  update_step_report l (step_with_end_time (SBDT now)) ;;;
  modify (set_current_step None) ;;;
  modify (set_step_report None) ;;;
  modify (set_phase ReadyForTestStep).

Definition end_test_case (now : datetime) : M unit :=
  _expect_phase "end_test_case" [ReadyForTestStep] ;;;
  s <- get ;;
  l <- attr_of (_case_report s) ;;
  update_case_report l (case_with_end_time (SBDT now)) ;;;
  modify (set_current_case None) ;;;
  modify (set_case_report None) ;;;
  modify (set_phase ReadyForTestCase).

Definition end_test_scenario (now : datetime) : M unit :=
  _expect_phase "end_test_scenario" [ReadyForTestCase] ;;;
  update_scenario_report (report_with_end_time (SBDT now)) ;;;
  modify (set_phase ReadyForCleanup).

Definition go_to_cleanup : M unit :=
  _expect_phase "go_to_cleanup"
    [ReadyForTestCase; ReadyForTestStep; RunningTestStep; ReadyForCleanup] ;;;
  modify (set_phase ReadyForCleanup).

Definition begin_cleanup (now : datetime) : M unit :=
  _expect_phase "begin_cleanup" [ReadyForCleanup] ;;;
  s <- get ;;
  self_documentation <- attr_of (documentation s) ;;
  match cleanup self_documentation with
  | None | Some None => raise (RuntimeError (NoCleanupDocumented (me s)))
  | Some (Some d) =>
      modify (set_current_step (Some d)) ;;;
      l <- new_step_report {| sr_name := step_name d;
                              sr_documentation_url := step_url d;
                              sr_start_time := SBDT now;
                              sr_end_time := None;
                              failed_checks := [];
                              passed_checks := [];
                              queries := None |} ;;
      modify (set_step_report (Some l)) ;;;
      update_scenario_report (report_with_cleanup (Some l)) ;;;
      modify (set_phase CleaningUp)
  end.

Definition skip_cleanup : M unit :=
  _expect_phase "skip_cleanup" [ReadyForCleanup] ;;;
  s <- get ;;
  self_documentation <- attr_of (documentation s) ;;
  match cleanup self_documentation with
  | Some (Some _) => raise (RuntimeError (CleanupSkipped (me s)))
  | _ => modify (set_phase Complete)
  end.

Definition end_cleanup (now : datetime) : M unit :=
  _expect_phase "end_cleanup" [CleaningUp] ;;;
  s <- get ;;
  l <- attr_of (_step_report s) ;;
  update_step_report l (step_with_end_time (SBDT now)) ;;;
  modify (set_phase Complete).

Definition record_execution_error (e : Exn) (now : datetime) : M unit :=
  s <- get ;;
  if ScenarioPhase_eqb (_phase s) Complete
  then raise (RuntimeError (AlreadyComplete (me s)))
  else
    match _scenario_report s with
    | None => _make_scenario_report now
    | Some _ => ret tt
    end ;;;
    update_scenario_report (report_with_execution_error (Some (create_from_exception e))) ;;;
    update_scenario_report (report_with_successful (Some false)) ;;;
    modify (set_phase Complete).

Definition read_case_report (l : loc) : M TestCaseReport :=
  s <- get ;; deref (case_store s) l.

Definition read_step_report (l : loc) : M TestStepReport :=
  s <- get ;; deref (step_store s) l.

Definition read_scenario_report : M TestScenarioReport :=
  s <- get ;; attr_of (_scenario_report s).

(** The loop body shared by the two places where [get_report] walks over
    failed checks. *)
Definition flag_if_not_low (failed_check : FailedCheck) : M unit :=
  if negb (Severity_eqb (fc_severity failed_check) Low)
  then update_scenario_report (report_with_successful (Some false))
  else ret tt.

(** The part of [get_report] under its comment [# Evaluate success], up to
    the [return]. *)
Definition evaluate_success : M TestScenarioReport :=
  update_scenario_report
    (fun r => report_with_successful
                (Some (match execution_error r with None => true | Some _ => false end)) r) ;;;
  r <- read_scenario_report ;;
  for_each (r_cases r) (fun cl =>
    case_report <- read_case_report cl ;;
    for_each (cr_steps case_report) (fun sl =>
      step_report <- read_step_report sl ;;
      for_each (failed_checks step_report) flag_if_not_low)) ;;;
  r <- read_scenario_report ;;
  match r_cleanup r with
  | Some l =>
      step_report <- read_step_report l ;;
      for_each (failed_checks step_report) flag_if_not_low
  | None => ret tt
  end ;;;
  read_scenario_report.

Definition get_report (now : datetime) : M TestScenarioReport :=
  s <- get ;;
  match _scenario_report s with
  | None => _make_scenario_report now
  | Some _ => ret tt
  end ;;;
  r <- read_scenario_report ;;
  match execution_error r with
  | None =>
      try_except_RuntimeError
        (_expect_phase "get_report" [Complete])
        (fun e => record_execution_error e now)
  | Some _ => ret tt
  end ;;;
  evaluate_success.

(** ** class PendingCheck

    A pending check is addressed by its location [self] in the store.  The
    failure observer is a callable of the driver: [run_callback] says what
    each callable does when it is called with a failed check; it sees, and
    may change, the whole state, and it may raise. *)
Section PendingCheckMethods.
Variable run_callback : Callback -> FailedCheck -> M unit.

Definition record_failed
    (self : loc) (summary : string) (severity : Severity) (details : string)
    (participants : option (list ParticipantID))
    (query_timestamps : option (list datetime))
    (additional_data : option string)
    (requirements : option (list string))
    (now : datetime) : M unit :=
  update_pending_check self (check_with_outcome_recorded true) ;;;
  s <- get ;;
  c <- deref (check_store s) self ;;
  let participants :=
    match participants with None => _participants c | Some p => p end in
  let requirements :=
    match requirements with
    | None => applicable_requirements (_documentation c)
    | Some r => r
    end in
  let failed_check :=
    {| fc_name := check_name (_documentation c);
       fc_documentation_url := check_url (_documentation c);
       fc_timestamp := SBDT now;
       fc_summary := summary;
       fc_details := details;
       fc_requirements := requirements;
       fc_severity := severity;
       fc_participants := participants;
       fc_additional_data := additional_data;
       fc_query_report_timestamps :=
         match query_timestamps with
         | None => None
         | Some ts => Some (map SBDT ts)
         end |} in
  l <- attr_of (pc_step_report c) ;;
  update_step_report l
    (fun r => step_with_failed_checks (failed_checks r ++ [failed_check]) r) ;;;
  match _on_failed_check c with
  | Some f => run_callback f failed_check
  | None => ret tt
  end ;;;
  (if Severity_eqb severity High
   then raise (ScenarioCannotContinueError (SeverityIssue severity summary))
   else ret tt) ;;;
  (if Severity_eqb severity Critical
   then raise (TestRunCannotContinueError (SeverityIssue severity summary))
   else ret tt).

Definition record_passed
    (self : loc)
    (participants : option (list ParticipantID))
    (requirements : option (list string)) : M unit :=
  update_pending_check self (check_with_outcome_recorded true) ;;;
  s <- get ;;
  c <- deref (check_store s) self ;;
  let participants :=
    match participants with None => _participants c | Some p => p end in
  let requirements :=
    match requirements with
    | None => applicable_requirements (_documentation c)
    | Some r => r
    end in
  let passed_check :=
    {| pc_name := check_name (_documentation c);
       pc_participants := participants;
       pc_requirements := requirements |} in
  l <- attr_of (pc_step_report c) ;;
  update_step_report l
    (fun r => step_with_passed_checks (passed_checks r ++ [passed_check]) r).

Definition __enter__ (self : loc) : M loc := ret self.

(** Returns [None], so an exception of the body is not suppressed. *)
Definition __exit__ (self : loc) : M unit :=
  s <- get ;;
  c <- deref (check_store s) self ;;
  if negb (_outcome_recorded c) then record_passed self None None else ret tt.

(** [with manager as x: body x], for a manager that is a pending check:
    [__exit__] runs however the body ends; an exception of [__exit__]
    replaces the one of the body, otherwise the body's outcome stands. *)
Definition with_check {A} (manager : M loc) (body : loc -> M A) : M A :=
  fun s =>
    match (self <- manager ;; __enter__ self) s with
    | (Raise e, s1) => (Raise e, s1)
    | (Ok self, s1) =>
        let (o, s2) := body self s1 in
        match __exit__ self s2 with
        | (Raise e, s3) => (Raise e, s3)
        | (Ok _, s3) => (o, s3)
        end
    end.
End PendingCheckMethods.

(** ** TestScenario.make_test_scenario

    The factory works on a class object found by name.  What it reads of a
    class: its [__name__], whether it is a subclass of [TestScenario], the
    parameter names of its [__init__] in the order of the signature, and the
    constructor itself, which is code of the concrete scenario and may
    raise.  [inspection.import_submodules] and
    [inspection.get_module_object_by_name] are not part of the sources at
    hand: the result of the first and the function computed by the second
    are parameters.

    The resource pool is a dictionary whose keys are listed in the error
    message, in their order. *)

Definition ResourceID := string.

Definition set_declaration (d : TestScenarioDeclaration) (s : State) : State :=
  {| declaration := Some d; documentation := documentation s;
     me := me s; on_failed_check := on_failed_check s;
     _phase := _phase s;
     _scenario_report := _scenario_report s;
     _current_case := _current_case s; _case_report := _case_report s;
     _current_step := _current_step s; _step_report := _step_report s;
     case_store := case_store s; step_store := step_store s;
     check_store := check_store s |}.

(** The double-quote character, which delimits the argument name in the
    message. *)
Definition double_quote : string := String (ascii_of_nat 34) EmptyString.

Section Factory.
Context {Resource : Type}.

Record PyClass := {
  __name__ : string;
  issubclass_TestScenario : bool;
  init_parameters : list string;
  constructor : list (string * Resource) -> Outcome State;
}.

Variable import_submodules : Outcome unit.
Variable get_module_object_by_name : string -> Outcome PyClass.

(** A call of the scenario class, with the keyword arguments it was given. *)
Record ConstructorCall := {
  called_class : string;
  called_with : list (string * Resource);
}.

Definition missing_resource_message
    (arg_name scenario_type available_pool : string) : string :=
  "Resource to populate test scenario argument " +:+ double_quote +:+ arg_name
  +:+ double_quote
  +:+ " was not found in the resource pool when trying to create "
  +:+ scenario_type +:+ " test scenario (resource pool: " +:+ available_pool +:+ ")".

(** The loop over [constructor_signature.parameters.items()]. *)
Fixpoint populate_constructor_args
    (declaration : TestScenarioDeclaration)
    (resource_pool : list (ResourceID * Resource))
    (parameters : list string)
    (constructor_args : list (string * Resource))
  : Outcome (list (string * Resource)) :=
  match parameters with
  | [] => Ok constructor_args
  | arg_name :: parameters' =>
      if String.eqb arg_name "self"
      then populate_constructor_args declaration resource_pool parameters'
             constructor_args
      else
        match PyDict.get arg_name resource_pool with
        | None =>
            let available_pool := String.concat ", " (PyDict.keys resource_pool) in
            Raise (ValueError (missing_resource_message arg_name
                                 (scenario_type declaration) available_pool))
        | Some resource =>
            populate_constructor_args declaration resource_pool parameters'
              (PyDict.set arg_name resource constructor_args)
        end
  end.

(** The result of the factory and the constructor calls it made. *)
Definition make_test_scenario
    (declaration : TestScenarioDeclaration)
    (resource_pool : list (ResourceID * Resource))
  : Outcome State * list ConstructorCall :=
  match import_submodules with
  | Raise e => (Raise e, [])
  | Ok _ =>
      match get_module_object_by_name (scenario_type declaration) with
      | Raise e => (Raise e, [])
      | Ok scenario_class =>
          if negb (issubclass_TestScenario scenario_class)
          then (Raise (NotImplementedError
                         ("Scenario type " +:+ __name__ scenario_class
                          +:+ " is not a subclass of the TestScenario base class")),
                [])
          else
            match populate_constructor_args declaration resource_pool
                    (init_parameters scenario_class) [] with
            | Raise e => (Raise e, [])
            | Ok constructor_args =>
                let call := {| called_class := __name__ scenario_class;
                               called_with := constructor_args |} in
                match constructor scenario_class constructor_args with
                | Raise e => (Raise e, [call])
                | Ok scenario => (Ok (set_declaration declaration scenario), [call])
                end
            end
      end
  end.
End Factory.

(** ** find_test_scenarios

    Modules and classes are objects of the interpreter, told apart by
    identity.  What [inspect] shows of a module: its [__name__] and its
    members, which [inspect.getmembers] returns sorted by name.  The
    interpreter's objects are parameters of the model: the module behind each
    identity, [inspection.fullname] of a class (not part of the sources at
    hand), which classes are subclasses of [TestScenario], which class is
    [TestScenario] itself, and the order in which [list(...)] walks over a
    set with a given history of insertions.

    The recursion follows the module graph, which may have cycles; it is
    bounded by [fuel], and [None] means that the fuel ran out.  The set
    [already_checked] is one object shared by all the calls, so each call
    hands it back together with its result. *)

Definition ModuleId := nat.
Definition ClassId := nat.

Inductive Member :=
| MModule (m : ModuleId)
| MClass (c : ClassId)
| MOther.

Record PyModule := {
  module_name : string;
  members : list (string * Member);
}.

(** [if x not in test_scenarios: test_scenarios.add(x)], for a set kept as
    the list of its elements by time of insertion. *)
Definition set_add (c : ClassId) (test_scenarios : list ClassId) : list ClassId :=
  if existsb (Nat.eqb c) test_scenarios then test_scenarios else test_scenarios ++ [c].

(** [list.sort(key=...)] with string keys: a stable sort. *)
Fixpoint sort_insert {A} (key : A -> string) (x : A) (l : list A) : list A :=
  match l with
  | [] => [x]
  | y :: l' =>
      if String.leb (key x) (key y) then x :: y :: l' else y :: sort_insert key x l'
  end.

Fixpoint sort_by_key {A} (key : A -> string) (l : list A) : list A :=
  match l with
  | [] => []
  | x :: l' => sort_insert key x (sort_by_key key l')
  end.

Section Discovery.
Variable module_of : ModuleId -> PyModule.
Variable fullname : ClassId -> string.
Variable is_scenario_class : ClassId -> bool.
Variable TestScenario_class : ClassId.
Variable set_iteration : list ClassId -> list ClassId.

(** The loop over the members of a module; [recurse] is the recursive call. *)
Fixpoint scan_members
    (recurse : ModuleId -> gset string -> option (list ClassId * gset string))
    (module_members : list (string * Member))
    (test_scenarios : list ClassId) (already_checked : gset string)
  : option (list ClassId * gset string) :=
  match module_members with
  | [] => Some (test_scenarios, already_checked)
  | (name, member) :: rest =>
      match member with
      | MModule m =>
          if bool_decide (module_name (module_of m) ∉ already_checked)
             && String.prefix "monitoring.uss_qualifier.scenarios"
                  (module_name (module_of m))
          then
            match recurse m already_checked with
            | None => None
            | Some (descendants, already_checked') =>
                scan_members recurse rest
                  (fold_left (fun s descendant => set_add descendant s)
                     descendants test_scenarios)
                  already_checked'
            end
          else scan_members recurse rest test_scenarios already_checked
      | MClass c =>
          if negb (Nat.eqb c TestScenario_class) && is_scenario_class c
          then scan_members recurse rest (set_add c test_scenarios) already_checked
          else scan_members recurse rest test_scenarios already_checked
      | MOther => scan_members recurse rest test_scenarios already_checked
      end
  end.

Fixpoint find_test_scenarios_in
    (fuel : nat) (module : ModuleId) (already_checked : gset string)
  : option (list ClassId * gset string) :=
  match fuel with
  | 0 => None
  | S fuel' =>
      let already_checked := {[ module_name (module_of module) ]} ∪ already_checked in
      match scan_members (find_test_scenarios_in fuel')
              (members (module_of module)) [] already_checked with
      | None => None
      | Some (test_scenarios, already_checked) =>
          Some (sort_by_key fullname (set_iteration test_scenarios), already_checked)
      end
  end.

(** The function as it is called, with its default argument. *)
Definition find_test_scenarios
    (fuel : nat) (module : ModuleId) (already_checked : option (gset string))
  : option (list ClassId) :=
  let already_checked :=
    match already_checked with None => ∅ | Some checked => checked end in
  fst <$> find_test_scenarios_in fuel module already_checked.
End Discovery.

(** [TestScenario.cleanup], as the base class defines it: scenarios that
    need to clean up override it. *)
Definition cleanup_method : M unit := skip_cleanup.

(** [TestScenario._get_check] *)
Definition _get_check (name : string) : M TestCheckDocumentation :=
  s <- get ;;
  current_step <- attr_of (_current_step s) ;;
  let available_checks := PyDict.comprehension check_name (checks current_step) in
  match PyDict.get name available_checks with
  | None =>
      (* the message reads [self._current_case.name] *)
      current_case <- attr_of (_current_case s) ;;
      raise (RuntimeError (UndeclaredCheck (me s) name (step_name current_step)
                             (case_name current_case) (PyDict.keys available_checks)))
  | Some check_documentation => ret check_documentation
  end.

(** ** TestScenario.__init__

    [get_documentation] parses the documentation of the class; it is not
    part of the sources at hand and is a parameter: it is asked for the
    class of the instance, which the model knows by its full name [me]. *)

Definition set_documentation (d : TestScenarioDocumentation) (s : State) : State :=
  {| declaration := declaration s; documentation := Some d;
     me := me s; on_failed_check := on_failed_check s;
     _phase := _phase s;
     _scenario_report := _scenario_report s;
     _current_case := _current_case s; _case_report := _case_report s;
     _current_step := _current_step s; _step_report := _step_report s;
     case_store := case_store s; step_store := step_store s;
     check_store := check_store s |}.

Definition TestScenario___init__
    (get_documentation : string -> Outcome TestScenarioDocumentation) : M unit :=
  s <- get ;;
  match get_documentation (me s) with
  | Raise e => raise e
  | Ok d => modify (set_documentation d)
  end ;;;
  modify (set_phase NotStarted).

(** ** class NominalPlanningPriority: the constructor

    Modelled from usage: the resources and the flight requests are declared
    outside the sources at hand.  Of the flight intents resource the
    constructor calls [get_flight_intents], which gives the list of the
    requests; of a request it reads [operational_intent.priority], an
    integer; of a planner resource it reads [flight_planner] and of the DSS
    resource [dss].  What a planner and a DSS client are does not matter to
    the constructor: their types are parameters. *)

Record OperationalIntentTestInjection := {
  priority : Z;
}.

Record InjectFlightRequest := {
  operational_intent : OperationalIntentTestInjection;
}.

Record FlightIntentsResource := {
  get_flight_intents : list InjectFlightRequest;
}.

Section NominalPlanningPriorityClass.
Context {FlightPlanner DSSInstance : Type}.

Record FlightPlannerResource := {
  flight_planner : FlightPlanner;
}.

Record DSSInstanceResource := {
  dss_instance : DSSInstance;
}.

(** The attributes that the subclass adds to those of [TestScenario]
    (which are the state); [dss_instance] is the attribute [dss] of the DSS
    resource. *)
Record NominalPlanningPriorityAttributes := {
  first_flight : InjectFlightRequest;
  first_flight_id : option string;
  priority_flight : InjectFlightRequest;
  priority_flight_id : option string;
  uss1 : FlightPlanner;
  uss2 : FlightPlanner;
  dss : DSSInstance;
}.

Variable get_documentation : string -> Outcome TestScenarioDocumentation.

(** [self.first_flight, self.priority_flight = flight_intents] raises the
    [ValueError] of unpacking unless the list has exactly two elements; with
    fewer than two, the constructor has raised before. *)
Definition NominalPlanningPriority___init__
    (flight_intents : FlightIntentsResource)
    (uss1_resource uss2_resource : FlightPlannerResource)
    (dss_resource : DSSInstanceResource) : M NominalPlanningPriorityAttributes :=
  TestScenario___init__ get_documentation ;;;
  let self_uss1 := flight_planner uss1_resource in
  let self_uss2 := flight_planner uss2_resource in
  let flight_intents := get_flight_intents flight_intents in
  s <- get ;;
  if (length flight_intents <? 2)%nat
  then raise (ValueError
                ("`" +:+ me s
                 +:+ "` TestScenario requires at least 2 flight_intents; found "
                 +:+ pretty (length flight_intents)))
  else
    match flight_intents with
    | [first; second] =>
        if (priority (operational_intent second)
            <=? priority (operational_intent first))%Z
        then raise (ValueError
                      ("`" +:+ me s
                       +:+ "` TestScenario requires the second flight_intent to be higher priority than the first flight_intent; instead found priorities "
                       +:+ pretty (priority (operational_intent first)) +:+ " then "
                       +:+ pretty (priority (operational_intent second))))
        else
          ret {| first_flight := first; first_flight_id := None;
                 priority_flight := second; priority_flight_id := None;
                 uss1 := self_uss1; uss2 := self_uss2;
                 dss := dss_instance dss_resource |}
    | _ => raise (ValueError "too many values to unpack (expected 2)")
    end.
End NominalPlanningPriorityClass.

(** * Vocabulary of the statements *)

(** The value of a run that returned normally. *)
Definition returned {A} (run : Outcome A * State) : option A :=
  match fst run with
  | Ok a => Some a
  | Raise _ => None
  end.

(** ** Calls of the phase machine *)

(** The phase-machine operations, with the arguments of a call. *)
Inductive Operation :=
| call_begin_test_scenario (now : datetime)
| call_begin_test_case (name : string) (now : datetime)
| call_begin_test_step (name : string) (now : datetime)
| call_end_test_step (now : datetime)
| call_end_test_case (now : datetime)
| call_end_test_scenario (now : datetime)
| call_go_to_cleanup
| call_begin_cleanup (now : datetime)
| call_skip_cleanup
| call_end_cleanup (now : datetime)
| call_record_query (query : Query)
| call_check (name : string) (participants : option (list ParticipantID)).

(** The call itself; the handle that [check] returns is dropped. *)
Definition invoke (op : Operation) : M unit :=
  match op with
  | call_begin_test_scenario now => begin_test_scenario now
  | call_begin_test_case name now => begin_test_case name now
  | call_begin_test_step name now => begin_test_step name now
  | call_end_test_step now => end_test_step now
  | call_end_test_case now => end_test_case now
  | call_end_test_scenario now => end_test_scenario now
  | call_go_to_cleanup => go_to_cleanup
  | call_begin_cleanup now => begin_cleanup now
  | call_skip_cleanup => skip_cleanup
  | call_end_cleanup now => end_cleanup now
  | call_record_query query => record_query query
  | call_check name participants => check name participants ;;; ret tt
  end.

(** The source phases that the specification lists for each operation
    (table of its section 4.1; sections 4.2 and 4.3 for [record_query] and
    [check]). *)
Definition listed_phases (op : Operation) : list ScenarioPhase :=
  match op with
  | call_begin_test_scenario _ => [NotStarted]
  | call_begin_test_case _ _ => [ReadyForTestCase]
  | call_begin_test_step _ _ => [ReadyForTestStep]
  | call_end_test_step _ => [RunningTestStep]
  | call_end_test_case _ => [ReadyForTestStep]
  | call_end_test_scenario _ => [ReadyForTestCase]
  | call_go_to_cleanup =>
      [ReadyForTestCase; ReadyForTestStep; RunningTestStep; ReadyForCleanup]
  | call_begin_cleanup _ => [ReadyForCleanup]
  | call_skip_cleanup => [ReadyForCleanup]
  | call_end_cleanup _ => [CleaningUp]
  | call_record_query _ => [RunningTestStep; CleaningUp]
  | call_check _ _ => [RunningTestStep; CleaningUp]
  end.

Definition caller_name (op : Operation) : string :=
  match op with
  | call_begin_test_scenario _ => "begin_test_scenario"
  | call_begin_test_case _ _ => "begin_test_case"
  | call_begin_test_step _ _ => "begin_test_step"
  | call_end_test_step _ => "end_test_step"
  | call_end_test_case _ => "end_test_case"
  | call_end_test_scenario _ => "end_test_scenario"
  | call_go_to_cleanup => "go_to_cleanup"
  | call_begin_cleanup _ => "begin_cleanup"
  | call_skip_cleanup => "skip_cleanup"
  | call_end_cleanup _ => "end_cleanup"
  | call_record_query _ => "record_query"
  | call_check _ _ => "check"
  end.

(** ** Statements about reports *)

(** [failed_check.severity != Severity.Low] *)
Definition not_low (fc : FailedCheck) : bool :=
  negb (Severity_eqb (fc_severity fc) Low).

Definition step_has_failure (hs : list TestStepReport) (sl : loc) : bool :=
  match hs !! sl with
  | Some sr => existsb not_low (failed_checks sr)
  | None => false
  end.

Definition case_has_failure
    (hc : list TestCaseReport) (hs : list TestStepReport) (cl : loc) : bool :=
  match hc !! cl with
  | Some cr => existsb (step_has_failure hs) (cr_steps cr)
  | None => false
  end.

(** The state with [b] assigned to [successful] of the scenario report [r]. *)
Definition with_successful (b : option bool) (r : TestScenarioReport) (s : State) : State :=
  set_scenario_report (Some (report_with_successful b r)) s.

(** Every reference of the report tree [r] has its target in the store of
    [s]. *)
Definition report_resolved (s : State) (r : TestScenarioReport) : Prop :=
  Forall (fun cl =>
            exists cr,
              case_store s !! cl = Some cr
              /\ Forall (fun sl => is_Some (step_store s !! sl)) (cr_steps cr))
         (r_cases r)
  /\ match r_cleanup r with
     | Some l => is_Some (step_store s !! l)
     | None => True
     end.

(** Some failed check of severity other than [Low] is recorded in a step of
    a case of [r], or in its cleanup step. *)
Definition blocking_failure (s : State) (r : TestScenarioReport) : Prop :=
  (exists cl cr sl sr fc,
      In cl (r_cases r) /\ case_store s !! cl = Some cr
      /\ In sl (cr_steps cr) /\ step_store s !! sl = Some sr
      /\ In fc (failed_checks sr) /\ fc_severity fc <> Low)
  \/ (exists l sr fc,
         r_cleanup r = Some l /\ step_store s !! l = Some sr
         /\ In fc (failed_checks sr) /\ fc_severity fc <> Low).

(** No execution error has been recorded in the scenario so far. *)
Definition no_execution_error (s : State) : Prop :=
  match _scenario_report s with
  | Some r => execution_error r = None
  | None => True
  end.

(** What the loops of [evaluate_success] compute. *)
Definition success_of (s : State) (r : TestScenarioReport) : bool :=
  match execution_error r with None => true | Some _ => false end
  && negb (existsb (case_has_failure (case_store s) (step_store s)) (r_cases r))
  && negb (match r_cleanup r with
           | Some l => step_has_failure (step_store s) l
           | None => false
           end).

(** The scenario report that [get_report] starts from: the one of the
    scenario or, when there is none yet, the one [_make_scenario_report]
    creates at the instant [now], for which the documentation and the
    declaration must be bound. *)
Definition starting_report (now : datetime) (s : State) : option TestScenarioReport :=
  match _scenario_report s with
  | Some r => Some r
  | None =>
      match documentation s, declaration s with
      | Some doc, Some decl =>
          Some {| r_name := doc_name doc;
                  r_scenario_type := scenario_type decl;
                  r_documentation_url := doc_url doc;
                  r_start_time := SBDT now;
                  r_end_time := None;
                  r_cases := [];
                  r_notes := None;
                  r_cleanup := None;
                  execution_error := None;
                  successful := None |}
      | _, _ => None
      end
  end.

(** ** Statements about pending checks *)

(** The control flow that the specification attaches to a severity. *)
Definition severity_signal (severity : Severity) (summary : string) : Outcome unit :=
  match severity with
  | Low => Ok tt
  | High => Raise (ScenarioCannotContinueError (SeverityIssue High summary))
  | Critical => Raise (TestRunCannotContinueError (SeverityIssue Critical summary))
  end.

(** The state after an outcome call on the pending check at [self], whose
    object is [c] and whose step report, at [l], becomes [sr']. *)
Definition outcome_recorded_state
    (self : loc) (c : PendingCheck) (l : loc) (sr' : TestStepReport) (s : State) : State :=
  set_step_store (<[l := sr']> (step_store s))
    (set_check_store (<[self := check_with_outcome_recorded true c]> (check_store s)) s).

(** The passed check that [record_passed] builds from its arguments. *)
Definition passed_check_of
    (c : PendingCheck) (participants : option (list ParticipantID))
    (requirements : option (list string)) : PassedCheck :=
  {| pc_name := check_name (_documentation c);
     pc_participants := match participants with None => _participants c | Some p => p end;
     pc_requirements :=
       match requirements with
       | None => applicable_requirements (_documentation c)
       | Some r => r
       end |}.

(** ** States that a driver can reach *)

(** Every call a driver can make on a scenario and on its pending checks. *)
Inductive Action :=
| phase_operation (op : Operation)
| call_record_note (key message : string) (now : datetime)
| call_record_execution_error (e : Exn) (now : datetime)
| call_get_report (now : datetime)
| call_record_passed (self : loc) (participants : option (list ParticipantID))
    (requirements : option (list string))
| call_record_failed (self : loc) (summary : string) (severity : Severity)
    (details : string) (participants : option (list ParticipantID))
    (query_timestamps : option (list datetime)) (additional_data : option string)
    (requirements : option (list string)) (now : datetime)
| call___exit__ (self : loc).

Definition perform (run_callback : Callback -> FailedCheck -> M unit) (a : Action)
  : M unit :=
  match a with
  | phase_operation op => invoke op
  | call_record_note key message now => record_note key message now
  | call_record_execution_error e now => record_execution_error e now
  | call_get_report now => get_report now ;;; ret tt
  | call_record_passed self participants requirements =>
      record_passed self participants requirements
  | call_record_failed self summary severity details participants query_timestamps
      additional_data requirements now =>
      record_failed run_callback self summary severity details participants
        query_timestamps additional_data requirements now
  | call___exit__ self => __exit__ self
  end.

(** A scenario as [__init__] leaves it. *)
Definition initial (s : State) : Prop :=
  _phase s = NotStarted
  /\ _scenario_report s = None
  /\ _current_case s = None /\ _case_report s = None
  /\ _current_step s = None /\ _step_report s = None
  /\ case_store s = [] /\ step_store s = [] /\ check_store s = [].

(** The states after any sequence of calls, whatever each call returned or
    raised. *)
Inductive reachable (run_callback : Callback -> FailedCheck -> M unit) : State -> Prop :=
| reachable_initial s : initial s -> reachable run_callback s
| reachable_step s a :
    reachable run_callback s -> reachable run_callback (snd (perform run_callback a s)).

(** What holds of the references in every reachable state: the report tree
    and the pending checks point into the store, the scenario report exists
    from [begin_test_scenario] on, the current case and step are set in
    the phases that use them, and a scenario that has a report has its
    documentation and its declaration bound. *)
Record well_formed (s : State) : Prop := {
  wf_report :
    In (_phase s)
       [ReadyForTestCase; ReadyForTestStep; RunningTestStep; ReadyForCleanup;
        CleaningUp] ->
    is_Some (_scenario_report s);
  wf_report_cases :
    forall r, _scenario_report s = Some r ->
      Forall (fun cl => cl < length (case_store s)) (r_cases r);
  wf_report_cleanup :
    forall r l, _scenario_report s = Some r -> r_cleanup r = Some l ->
      l < length (step_store s);
  wf_case_steps :
    Forall (fun cr => Forall (fun sl => sl < length (step_store s)) (cr_steps cr))
           (case_store s);
  wf_checks :
    Forall (fun c => exists l, pc_step_report c = Some l /\ l < length (step_store s))
           (check_store s);
  wf_current_case :
    In (_phase s) [ReadyForTestStep; RunningTestStep] ->
    is_Some (_current_case s)
    /\ exists cl, _case_report s = Some cl /\ cl < length (case_store s);
  wf_current_step :
    In (_phase s) [RunningTestStep; CleaningUp] ->
    is_Some (_current_step s)
    /\ exists l, _step_report s = Some l /\ l < length (step_store s);
  wf_bound :
    is_Some (_scenario_report s) ->
    is_Some (documentation s) /\ is_Some (declaration s);
}.

(** An operation keeps states well formed, whatever its outcome. *)
Definition preserves_well_formed {A} (m : M A) : Prop :=
  forall s, well_formed s -> well_formed (snd (m s)).

(** ** Runs of a driver *)

(** The last element of [xs] whose key is [name]. *)
Definition last_declared {V} (key : V -> string) (name : string) (xs : list V) : option V :=
  List.find (fun x => String.eqb name (key x)) (rev xs).

(** A driver that runs one case with one step and one check, whose scope
    ends without an explicit outcome, and then skips cleanup. *)
Definition nominal_run (case step check_ : string) (t1 t2 t3 t4 t5 t6 : datetime) : M unit :=
  begin_test_scenario t1 ;;;
  begin_test_case case t2 ;;;
  begin_test_step step t3 ;;;
  with_check (check check_ None) (fun _ => ret tt) ;;;
  end_test_step t4 ;;;
  end_test_case t5 ;;;
  end_test_scenario t6 ;;;
  skip_cleanup.

(** A driver that runs into a failed check of the given severity inside the
    step, then leaves for cleanup and skips it. *)
Definition failing_step
    (run_callback : Callback -> FailedCheck -> M unit)
    (case step check_ summary : string) (severity : Severity)
    (t1 t2 t3 t4 : datetime) : M unit :=
  begin_test_scenario t1 ;;;
  begin_test_case case t2 ;;;
  begin_test_step step t3 ;;;
  with_check (check check_ None)
    (fun c => record_failed run_callback c summary severity "" None None None None t4).

Definition leave_without_cleanup : M unit :=
  go_to_cleanup ;;; skip_cleanup.

(** ** Statements about discovery *)

(** The modules that discovery can get to from [root]: the root, and the
    module members, inside the scenarios package, of a module it can get
    to. *)
Inductive package_reachable (module_of : ModuleId -> PyModule) (root : ModuleId)
  : ModuleId -> Prop :=
| reachable_root : package_reachable module_of root root
| reachable_member m name m' :
    package_reachable module_of root m ->
    In (name, MModule m') (members (module_of m)) ->
    String.prefix "monitoring.uss_qualifier.scenarios" (module_name (module_of m')) = true ->
    package_reachable module_of root m'.

(** A class that discovery keeps: a subclass of [TestScenario] other than
    [TestScenario] itself. *)
Definition is_test_scenario
    (is_scenario_class : ClassId -> bool) (TestScenario_class : ClassId) (c : ClassId)
  : Prop :=
  is_scenario_class c = true /\ c <> TestScenario_class.

(** [c] is a member of the module [m], under some name. *)
Definition class_member (module_of : ModuleId -> PyModule) (m : ModuleId) (c : ClassId)
  : Prop :=
  exists name, In (name, MClass c) (members (module_of m)).

(** A scenario class that is a member of a module which discovery can get
    to from [root]. *)
Definition discoverable
    (module_of : ModuleId -> PyModule) (is_scenario_class : ClassId -> bool)
    (TestScenario_class : ClassId) (root : ModuleId) (c : ClassId) : Prop :=
  is_test_scenario is_scenario_class TestScenario_class c
  /\ exists m, package_reachable module_of root m /\ class_member module_of m c.

(** The modules that discovery can get to have different names: the set
    [already_checked] tells modules apart by name. *)
Definition modules_told_apart (module_of : ModuleId -> PyModule) (root : ModuleId) : Prop :=
  forall m m',
    package_reachable module_of root m -> package_reachable module_of root m' ->
    module_name (module_of m) = module_name (module_of m') -> m = m'.

(** The scenario classes that discovery can find have different full names:
    the sort tells classes apart by full name. *)
Definition classes_told_apart
    (module_of : ModuleId -> PyModule) (fullname : ClassId -> string)
    (is_scenario_class : ClassId -> bool) (TestScenario_class : ClassId)
    (root : ModuleId) : Prop :=
  forall c c',
    discoverable module_of is_scenario_class TestScenario_class root c ->
    discoverable module_of is_scenario_class TestScenario_class root c' ->
    fullname c = fullname c' -> c = c'.

(** ** Statements about the history of a run *)

(** The step report [b] is the step report [a] at a later time: the same
    step, begun at the same time, which holds the checks and the queries of
    [a] in their order and before any other. *)
Definition step_extends (a b : TestStepReport) : Prop :=
  sr_name b = sr_name a
  /\ sr_documentation_url b = sr_documentation_url a
  /\ sr_start_time b = sr_start_time a
  /\ failed_checks a `prefix_of` failed_checks b
  /\ passed_checks a `prefix_of` passed_checks b
  /\ (forall q, queries a = Some q ->
                exists q', queries b = Some q' /\ q `prefix_of` q').

(** Likewise for a case report and its steps. *)
Definition case_extends (a b : TestCaseReport) : Prop :=
  cr_name b = cr_name a
  /\ cr_documentation_url b = cr_documentation_url a
  /\ cr_start_time b = cr_start_time a
  /\ cr_steps a `prefix_of` cr_steps b.

(** The pending check [b] is the pending check [a] at a later time: it
    belongs to the same step, and an outcome that was recorded stays
    recorded. *)
Definition check_extends (a b : PendingCheck) : Prop :=
  _documentation b = _documentation a
  /\ _participants b = _participants a
  /\ pc_step_report b = pc_step_report a
  /\ _on_failed_check b = _on_failed_check a
  /\ (_outcome_recorded a = true -> _outcome_recorded b = true).

(** Every object of the store [h] is still in the store [h'], at its
    place. *)
Definition store_extends {A} (later : A -> A -> Prop) (h h' : list A) : Prop :=
  forall l a, h !! l = Some a -> exists b, h' !! l = Some b /\ later a b.

(** The step reports, case reports and pending checks of [s] are still
    there in [s']. *)
Definition stores_extend (s s' : State) : Prop :=
  store_extends step_extends (step_store s) (step_store s')
  /\ store_extends case_extends (case_store s) (case_store s')
  /\ store_extends check_extends (check_store s) (check_store s').

Definition keeps_stores {A} (m : M A) : Prop :=
  forall s, stores_extend s (snd (m s)).

(** The notes of a report; a report without the key [notes] has none. *)
Definition notes_of (r : TestScenarioReport) : gmap string Note :=
  match r_notes r with Some notes => notes | None => ∅ end.

(** The scenario report [b] is the scenario report [a] at a later time: the
    same scenario, begun at the same time, with the cases of [a] in their
    order and before any other, with the cleanup step and the execution
    error of [a] if it has one, and with a note under every key under which
    [a] has one (the note itself may have been replaced: [record_note]
    overwrites). *)
Definition report_extends (a b : TestScenarioReport) : Prop :=
  r_name b = r_name a
  /\ r_scenario_type b = r_scenario_type a
  /\ r_documentation_url b = r_documentation_url a
  /\ r_start_time b = r_start_time a
  /\ r_cases a `prefix_of` r_cases b
  /\ (forall l, r_cleanup a = Some l -> r_cleanup b = Some l)
  /\ (forall e, execution_error a = Some e -> execution_error b = Some e)
  /\ (forall key, is_Some (notes_of a !! key) -> is_Some (notes_of b !! key)).

(** The scenario report of [s], if there is one, is still the report of
    [s']. *)
Definition report_kept (s s' : State) : Prop :=
  forall r, _scenario_report s = Some r ->
            exists r', _scenario_report s' = Some r' /\ report_extends r r'.

(** Nothing of the report tree of [s] is lost in [s']. *)
Definition history_extends (s s' : State) : Prop :=
  stores_extend s s' /\ report_kept s s'.

(** What every reachable state has: a scenario that has a report has been
    started, a report has a cleanup step only while or after cleaning up,
    and an execution error only when the scenario is complete. *)
Definition report_invariant (s : State) : Prop :=
  match _scenario_report s with
  | None => True
  | Some r =>
      _phase s <> NotStarted
      /\ (r_cleanup r = None \/ In (_phase s) [CleaningUp; Complete])
      /\ (execution_error r = None \/ _phase s = Complete)
  end.

(** An operation keeps the scenario report, and what holds of it. *)
Definition keeps_report {A} (m : M A) : Prop :=
  forall s, report_invariant s ->
            report_invariant (snd (m s)) /\ report_kept s (snd (m s)).

(** The state after a sequence of calls, whatever each call returned or
    raised. *)
Definition perform_all (run_callback : Callback -> FailedCheck -> M unit)
    (actions : list Action) (s : State) : State :=
  fold_left (fun s a => snd (perform run_callback a s)) actions s.

(** * Examples *)

(** ** An example scenario *)

Definition example_check : TestCheckDocumentation :=
  {| check_name := "Area is clear"; check_url := "doc#check";
     applicable_requirements := ["req1"] |}.

Definition example_step : TestStepDocumentation :=
  {| step_name := "Clear area"; step_url := "doc#step"; checks := [example_check] |}.

Definition example_case : TestCaseDocumentation :=
  {| case_name := "Setup"; case_url := "doc#case"; steps := [example_step] |}.

(** The documentation of the specification's end-to-end examples: one case,
    one step, one check, no cleanup. *)
Definition example_documentation : TestScenarioDocumentation :=
  {| doc_name := "Example"; doc_url := "doc"; cases := [example_case];
     cleanup := None |}.

(** A scenario as the factory returns it: [__init__] has run. *)
Definition new_scenario (doc : TestScenarioDocumentation) (cb : option Callback) : State :=
  {| declaration := Some {| scenario_type := "scenarios.Example" |};
     documentation := Some doc;
     me := "monitoring.uss_qualifier.scenarios.Example";
     on_failed_check := cb;
     _phase := NotStarted;
     _scenario_report := None;
     _current_case := None; _case_report := None;
     _current_step := None; _step_report := None;
     case_store := []; step_store := []; check_store := [] |}.

(** The example scenario after [begin_test_scenario] at instant 1. *)
Definition example_started : State :=
  snd (begin_test_scenario 1%Z (new_scenario example_documentation None)).

(** A driver without failure observers. *)
Definition no_callbacks : Callback -> FailedCheck -> M unit := fun _ _ => ret tt.

(** End-to-end example 1 of the specification: the check's scope ends without
    an explicit outcome. *)
Definition example1_run : M unit :=
  begin_test_scenario 1%Z ;;;
  begin_test_case "Setup" 2%Z ;;;
  begin_test_step "Clear area" 3%Z ;;;
  with_check (check "Area is clear" None) (fun _ => ret tt) ;;;
  end_test_step 4%Z ;;;
  end_test_case 5%Z ;;;
  end_test_scenario 6%Z ;;;
  skip_cleanup.

Definition example1_state : State :=
  snd (example1_run (new_scenario example_documentation None)).

(** End-to-end example 2: a failure of high severity inside the step; the
    driver catches the signal and goes to cleanup, which it skips. *)
Definition example2_step : M unit :=
  begin_test_scenario 1%Z ;;;
  begin_test_case "Setup" 2%Z ;;;
  begin_test_step "Clear area" 3%Z ;;;
  with_check (check "Area is clear" None)
    (fun c => record_failed no_callbacks c "area not clear" High "" None None None None 4%Z).

Definition example2_state : State :=
  snd ((go_to_cleanup ;;; skip_cleanup)
         (snd (example2_step (new_scenario example_documentation None)))).

(** The example scenario inside its step, before and after the pending check
    for "Area is clear" is opened (the check is then at location 0 and bound
    to the step report at location 0). *)
Definition example_running (cb : option Callback) : State :=
  snd ((begin_test_scenario 1%Z ;;;
        begin_test_case "Setup" 2%Z ;;;
        begin_test_step "Clear area" 3%Z)
         (new_scenario example_documentation cb)).

Definition example_checking (cb : option Callback) : State :=
  snd (check "Area is clear" None (example_running cb)).

(** An observer that writes the summary of the failed check into the notes
    of the scenario. *)
Definition noting_observer : Callback -> FailedCheck -> M unit :=
  fun _ failed_check => record_note "failed check" (fc_summary failed_check) 0%Z.

(** The example's pending check after one call of [record_passed]. *)
Definition example_passed_once : State :=
  snd (record_passed 0 None None (example_checking None)).

(** The objects that [example_checking] holds at location 0 of its stores. *)
Definition example_pending_check (cb : option Callback) : PendingCheck :=
  {| _documentation := example_check;
     _participants := [];
     pc_step_report := Some 0;
     _on_failed_check := cb;
     _outcome_recorded := false |}.

Definition example_step_report : TestStepReport :=
  {| sr_name := "Clear area";
     sr_documentation_url := "doc#step";
     sr_start_time := SBDT 3%Z;
     sr_end_time := None;
     failed_checks := [];
     passed_checks := [];
     queries := None |}.

(** ** An example class: the class of nominal_planning_priority.py, with strings
    standing in for resources and a constructor that accepts them. *)
Definition NominalPlanningPriority : @PyClass string :=
  {| __name__ := "NominalPlanningPriority";
     issubclass_TestScenario := true;
     init_parameters := ["self"; "flight_intents"; "uss1"; "uss2"; "dss"];
     constructor := fun _ => Ok (new_scenario example_documentation None) |}.

Definition example_lookup (object_name : string) : Outcome (@PyClass string) :=
  if String.eqb object_name
       "scenarios.astm.utm.nominal_planning_priority.NominalPlanningPriority"
  then Ok NominalPlanningPriority
  else Raise (ValueError "no such object").

Definition example_declaration : TestScenarioDeclaration :=
  {| scenario_type :=
       "scenarios.astm.utm.nominal_planning_priority.NominalPlanningPriority" |}.

(** A pool without the resource [dss]. *)
Definition example_pool : list (ResourceID * string) :=
  [("uss1", "planner 1"); ("flight_intents", "intents"); ("uss2", "planner 2")].

(** ** An example namespace: four scenario modules that import each other
    (with a cycle through the root package and a class that two modules
    export) and one module outside the package. *)
Definition example_module_of (m : ModuleId) : PyModule :=
  match m with
  | 0 => {| module_name := "monitoring.uss_qualifier.scenarios";
            members := [("astm", MModule 1); ("flight_planning", MModule 2);
                        ("scenario", MModule 3)] |}
  | 1 => {| module_name := "monitoring.uss_qualifier.scenarios.astm";
            members := [("NominalPlanningPriority", MClass 11);
                        ("TestScenario", MClass 10); ("scenario", MModule 3)] |}
  | 2 => {| module_name := "monitoring.uss_qualifier.scenarios.flight_planning";
            members := [("NominalPlanningPriority", MClass 11);
                        ("RecordPlanners", MClass 12); ("astm", MModule 1)] |}
  | 3 => {| module_name := "monitoring.uss_qualifier.scenarios.scenario";
            members := [("Enum", MClass 20); ("TestScenario", MClass 10);
                        ("inspect", MModule 4); ("scenarios", MModule 0)] |}
  | _ => {| module_name := "inspect"; members := [("Signature", MClass 21)] |}
  end.

Definition example_fullname (c : ClassId) : string :=
  match c with
  | 10 => "monitoring.uss_qualifier.scenarios.scenario.TestScenario"
  | 11 => "monitoring.uss_qualifier.scenarios.astm.NominalPlanningPriority"
  | 12 => "monitoring.uss_qualifier.scenarios.flight_planning.RecordPlanners"
  | 20 => "enum.Enum"
  | _ => "inspect.Signature"
  end.

Definition example_is_scenario_class (c : ClassId) : bool :=
  match c with
  | 10 | 11 | 12 => true
  | _ => false
  end.

Definition example_universe : list string :=
  map (fun m => module_name (example_module_of m)) [0; 1; 2; 3; 4].

(** The example documentation with a cleanup step that declares one
    check. *)
Definition example_cleanup_step : TestStepDocumentation :=
  {| step_name := "Cleanup"; step_url := "doc#cleanup";
     checks := [ {| check_name := "Flights removed"; check_url := "doc#removed";
                    applicable_requirements := ["req2"] |} ] |}.

Definition example_documentation_with_cleanup : TestScenarioDocumentation :=
  {| doc_name := "Example"; doc_url := "doc"; cases := [example_case];
     cleanup := Some (Some example_cleanup_step) |}.

(** The example scenario with a cleanup step after its only case has been
    run to the end. *)
Definition example_cases_done : State :=
  snd ((begin_test_scenario 1%Z ;;;
        begin_test_case "Setup" 2%Z ;;;
        begin_test_step "Clear area" 3%Z ;;;
        end_test_step 4%Z ;;;
        end_test_case 5%Z)
         (new_scenario example_documentation_with_cleanup None)).

(** ** Example resources of the priority scenario *)

Definition example_get_documentation (class : string)
  : Outcome TestScenarioDocumentation :=
  Ok example_documentation.

Definition example_flight (p : Z) : InjectFlightRequest :=
  {| operational_intent := {| priority := p |} |}.

Definition example_planner (participant : string) : @FlightPlannerResource string :=
  {| flight_planner := participant |}.

Definition example_dss : @DSSInstanceResource string :=
  {| dss_instance := "dss" |}.

(** An instance whose [__init__] has not run: it has the attributes of the
    class only, so its phase is [Undefined] and neither [documentation] nor
    [declaration] is bound. *)
Definition uninitialised_scenario : State :=
  {| declaration := None;
     documentation := None;
     me := "monitoring.uss_qualifier.scenarios.Example";
     on_failed_check := None;
     _phase := Undefined;
     _scenario_report := None;
     _current_case := None; _case_report := None;
     _current_step := None; _step_report := None;
     case_store := []; step_store := []; check_store := [] |}.

(** * Properties *)

(** ** Running monadic code *)

Lemma bind_Ok {A B} (m : M A) (k : A -> M B) s a s' :
  m s = (Ok a, s') -> bind m k s = k a s'.
Proof. intros H. unfold bind. now rewrite H. Qed.

Lemma bind_Raise {A B} (m : M A) (k : A -> M B) s e s' :
  m s = (Raise e, s') -> bind m k s = (Raise e, s').
Proof. intros H. unfold bind. now rewrite H. Qed.

Lemma bind_get {B} (k : State -> M B) s : bind get k s = k s s.
Proof. reflexivity. Qed.

Lemma bind_modify {B} (f : State -> State) (k : unit -> M B) s :
  bind (modify f) k s = k tt (f s).
Proof. reflexivity. Qed.

Lemma bind_ret {A B} (a : A) (k : A -> M B) s : bind (ret a) k s = k a s.
Proof. reflexivity. Qed.

Lemma _expect_phase_Ok caller ps s :
  phase_in (_phase s) ps = true -> _expect_phase caller ps s = (Ok tt, s).
Proof. intros H. unfold _expect_phase, bind, get. now rewrite H. Qed.

Lemma _expect_phase_Raise caller ps s :
  phase_in (_phase s) ps = false ->
  _expect_phase caller ps s
  = (Raise (RuntimeError (WrongPhase (me s) (_phase s) caller ps)), s).
Proof. intros H. unfold _expect_phase, bind, get. now rewrite H. Qed.

Lemma ScenarioPhase_eqb_eq p q : ScenarioPhase_eqb p q = true <-> p = q.
Proof. destruct p, q; simpl; split; congruence. Qed.

Lemma phase_in_In p ps : phase_in p ps = true <-> In p ps.
Proof.
  unfold phase_in. rewrite existsb_exists. split.
  - intros (q & Hq & E). apply ScenarioPhase_eqb_eq in E. now subst.
  - intros H. exists p. split; [assumption | now apply ScenarioPhase_eqb_eq].
Qed.

Lemma Severity_eqb_eq a b : Severity_eqb a b = true <-> a = b.
Proof. destruct a, b; simpl; split; congruence. Qed.

(** ** Wrong-phase calls *)

(** C1. A phase-machine operation called in a phase that is not listed for
    it raises the [RuntimeError] of [_expect_phase] and leaves the whole
    state as it was: the phase, the scenario report and every case and step
    report of the store. *)
Theorem wrong_phase_is_rejected (op : Operation) (s : State) :
  ~ In (_phase s) (listed_phases op) ->
  invoke op s
  = (Raise (RuntimeError
              (WrongPhase (me s) (_phase s) (caller_name op) (listed_phases op))),
     s).
Proof.
  intros Hnot.
  assert (Hp : phase_in (_phase s) (listed_phases op) = false).
  { destruct (phase_in (_phase s) (listed_phases op)) eqn:E; [| reflexivity].
    apply phase_in_In in E. contradiction. }
  destruct op; simpl in *;
    unfold begin_test_scenario, begin_test_case, begin_test_step, end_test_step,
      end_test_case, end_test_scenario, go_to_cleanup, begin_cleanup,
      skip_cleanup, end_cleanup, record_query, check;
    repeat (erewrite bind_Raise; [reflexivity |]);
    now apply _expect_phase_Raise.
Qed.

Lemma wrong_phase_is_rejected_witness :
  invoke (call_end_test_step 5%Z) (new_scenario example_documentation None)
  = (Raise (RuntimeError
              (WrongPhase "monitoring.uss_qualifier.scenarios.Example" NotStarted
                 "end_test_step" [RunningTestStep])),
     new_scenario example_documentation None).
Proof.
  apply (wrong_phase_is_rejected (call_end_test_step 5%Z)
           (new_scenario example_documentation None)).
  simpl. intros [H | []]. discriminate H.
Defined.

(** ** Dictionaries built by comprehension *)

Lemma PyDict_get_set {V} (k k' : string) (v : V) d :
  PyDict.get k (PyDict.set k' v d)
  = if String.eqb k k' then Some v else PyDict.get k d.
Proof.
  induction d as [| [k'' v''] d IH]; simpl.
  - reflexivity.
  - destruct (String.eqb k' k'') eqn:E'; simpl.
    + apply String.eqb_eq in E'. subst k''.
      destruct (String.eqb k k'); reflexivity.
    + destruct (String.eqb k k'') eqn:E''.
      * apply String.eqb_eq in E''. subst k''.
        rewrite String.eqb_sym in E'. now rewrite E'.
      * exact IH.
Qed.

Lemma PyDict_fold_None {V} (key : V -> string) (k : string) xs d0 :
  PyDict.get k (fold_left (fun d x => PyDict.set (key x) x d) xs d0) = None
  <-> PyDict.get k d0 = None /\ ~ In k (map key xs).
Proof.
  revert d0. induction xs as [| x xs IH]; intros d0; simpl.
  - tauto.
  - rewrite IH, PyDict_get_set.
    destruct (String.eqb k (key x)) eqn:E.
    + apply String.eqb_eq in E. split; [intros [H _]; discriminate H |].
      intros [_ H]. exfalso. apply H. now left.
    + apply String.eqb_neq in E. split.
      * intros [H1 H2]. split; [exact H1 |]. intros [H | H]; [congruence | tauto].
      * intros [H1 H2]. split; [exact H1 | tauto].
Qed.

Lemma PyDict_fold_Some {V} (key : V -> string) (k : string) xs d0 c :
  PyDict.get k (fold_left (fun d x => PyDict.set (key x) x d) xs d0) = Some c ->
  (In c xs /\ key c = k) \/ PyDict.get k d0 = Some c.
Proof.
  revert d0. induction xs as [| x xs IH]; intros d0; simpl.
  - tauto.
  - intros H. apply IH in H. destruct H as [[H1 H2] | H]; [tauto |].
    rewrite PyDict_get_set in H.
    destruct (String.eqb k (key x)) eqn:E; [| tauto].
    apply String.eqb_eq in E. injection H as ->. left. split; [now left | congruence].
Qed.

Lemma comprehension_None {V} (key : V -> string) (k : string) xs :
  PyDict.get k (PyDict.comprehension key xs) = None <-> ~ In k (map key xs).
Proof.
  unfold PyDict.comprehension. rewrite PyDict_fold_None. simpl. tauto.
Qed.

Lemma comprehension_Some {V} (key : V -> string) (k : string) xs c :
  PyDict.get k (PyDict.comprehension key xs) = Some c -> In c xs /\ key c = k.
Proof.
  unfold PyDict.comprehension. intros H.
  apply PyDict_fold_Some in H. destruct H as [H | H]; [exact H | discriminate H].
Qed.

(** ** Names of the cases that have run *)

Lemma existsb_eqb_In (name : string) (l : list string) :
  existsb (String.eqb name) l = true <-> In name l.
Proof.
  rewrite existsb_exists. split.
  - intros (x & Hx & E). apply String.eqb_eq in E. now subst.
  - intros H. exists name. split; [exact H | apply String.eqb_refl].
Qed.

Lemma case_names_resolved (h : list TestCaseReport) (ls : list loc) (s : State) :
  Forall (fun l => is_Some (h !! l)) ls ->
  exists names,
    list_comprehension ls (fun l => cr <- deref h l ;; ret (cr_name cr)) s
    = (Ok names, s)
    /\ forall name,
         In name names
         <-> exists l cr, In l ls /\ h !! l = Some cr /\ cr_name cr = name.
Proof.
  induction 1 as [| l ls [cr Hl] _ (names & Hrun & Hnames)]; simpl.
  - exists []. split; [reflexivity |]. intros name. split; [intros [] |].
    intros (l & cr & [] & _).
  - exists (cr_name cr :: names). split.
    + erewrite bind_Ok;
        [| erewrite bind_Ok; [| unfold deref; rewrite Hl ]; reflexivity ].
      erewrite bind_Ok; [| exact Hrun ]. reflexivity.
    + intros name. simpl. rewrite Hnames. split.
      * intros [E | (l' & cr' & Hin & Hl' & E)].
        -- exists l, cr. auto.
        -- exists l', cr'. auto.
      * intros (l' & cr' & [-> | Hin] & Hl' & E).
        -- left. congruence.
        -- right. exists l', cr'. auto.
Qed.

(** ** begin_test_case *)

(** C2. In phase [ReadyForTestCase], [begin_test_case name] raises a
    [RuntimeError] and changes nothing when [name] is not a documented case
    name, and also when a case report of that name is already in the
    scenario report's list of cases; otherwise it returns normally, the list
    of cases grows by exactly one reference, to a new case report named
    [name] that has no steps yet, and the phase is [ReadyForTestStep].  (A
    scenario in this phase has its documentation bound; were it not, reading
    it would raise [AttributeError].) *)
Theorem begin_test_case_spec
    (name : string) (now : datetime) (s : State) (r : TestScenarioReport) :
  _phase s = ReadyForTestCase ->
  _scenario_report s = Some r ->
  Forall (fun l => is_Some (case_store s !! l)) (r_cases r) ->
  match documentation s with
  | None => begin_test_case name now s = (Raise AttributeError, s)
  | Some doc =>
      let declared := In name (map case_name (cases doc)) in
      let already_run :=
        exists l cr,
          In l (r_cases r) /\ case_store s !! l = Some cr /\ cr_name cr = name in
      (~ declared ->
       exists m, begin_test_case name now s = (Raise (RuntimeError m), s))
      /\ (already_run ->
          exists m, begin_test_case name now s = (Raise (RuntimeError m), s))
      /\ (declared -> ~ already_run ->
          exists s' r' cr,
            begin_test_case name now s = (Ok tt, s')
            /\ _phase s' = ReadyForTestStep
            /\ _scenario_report s' = Some r'
            /\ r_cases r' = r_cases r ++ [length (case_store s)]
            /\ case_store s' = case_store s ++ [cr]
            /\ cr_name cr = name /\ cr_steps cr = []
            /\ step_store s' = step_store s)
  end.
Proof.
  intros Hphase Hr Hrefs.
  assert (Hstart : forall k : unit -> M unit,
             bind (_expect_phase "begin_test_case" [ReadyForTestCase]) k s = k tt s).
  { intros k. apply bind_Ok, _expect_phase_Ok. now rewrite Hphase. }
  destruct (case_names_resolved (case_store s) (r_cases r) s Hrefs)
    as (names & Hrun & Hnames).
  unfold begin_test_case. rewrite Hstart, bind_get.
  destruct (documentation s) as [doc |] eqn:Hdoc; [| reflexivity ].
  set (declared := In name (map case_name (cases doc))).
  cbn [attr_of]. rewrite bind_ret.
  destruct (PyDict.get name (PyDict.comprehension case_name (cases doc)))
    as [c |] eqn:Hget.
  - (* the name is declared *)
    assert (Hc : In c (cases doc) /\ case_name c = name)
      by now apply comprehension_Some.
    rewrite Hr. simpl attr_of.
    erewrite bind_Ok; [| reflexivity ].
    erewrite bind_Ok; [| exact Hrun ].
    destruct (existsb (String.eqb name) names) eqn:Hran.
    + (* and has run *)
      split; [| split].
      * intros Hnot. exfalso. apply Hnot. unfold declared.
        destruct Hc as [Hin <-]. now apply in_map.
      * intros _. eexists. reflexivity.
      * intros _ Hnot. exfalso. apply Hnot.
        now apply Hnames, existsb_eqb_In.
    + split; [| split].
      * intros Hnot. exfalso. apply Hnot. unfold declared.
        destruct Hc as [Hin <-]. now apply in_map.
      * intros Halready. apply Hnames, existsb_eqb_In in Halready. congruence.
      * intros _ _.
        cbv beta iota delta [bind modify new_case_report update_scenario_report
                               get ret attr_of].
        simpl. rewrite Hr. simpl.
        do 3 eexists. split; [reflexivity |]. simpl.
        repeat split; try reflexivity. apply Hc.
  - (* the name is not declared *)
    apply comprehension_None in Hget. split; [| split].
    + intros _. eexists. reflexivity.
    + intros _. eexists. reflexivity.
    + intros Hd. contradiction.
Qed.

Lemma begin_test_case_spec_witness :
  exists s' r' cr,
    begin_test_case "Setup" 2%Z example_started = (Ok tt, s')
    /\ _phase s' = ReadyForTestStep
    /\ _scenario_report s' = Some r'
    /\ r_cases r' = [0]
    /\ case_store s' = [cr]
    /\ cr_name cr = "Setup" /\ cr_steps cr = []
    /\ step_store s' = [].
Proof.
  pose proof (begin_test_case_spec "Setup" 2%Z example_started _
                eq_refl eq_refl (List.Forall_nil _)) as H.
  change (documentation example_started) with (Some example_documentation) in H.
  destruct H as (_ & _ & H). apply H.
  - simpl. left. reflexivity.
  - intros (l & cr & [] & _).
Defined.

(** ** record_execution_error *)

(** C10, as the claim states it, fails in phase [Undefined]: on an instance
    whose [__init__] has not run there is no scenario report, and
    [record_execution_error] does not return; it raises [AttributeError]
    where [_make_scenario_report] reads the documentation, and the phase
    and the missing report stay as they were. *)
Lemma record_execution_error_fails_before_init :
  _phase uninitialised_scenario = Undefined
  /\ _scenario_report uninitialised_scenario = None
  /\ record_execution_error (OtherException "boom") 7%Z uninitialised_scenario
     = (Raise AttributeError, uninitialised_scenario)
  /\ ~ (exists s',
          record_execution_error (OtherException "boom") 7%Z uninitialised_scenario
          = (Ok tt, s')).
Proof.
  split; [reflexivity |]. split; [reflexivity |]. split; [reflexivity |].
  intros (s' & H). discriminate H.
Qed.

(** C10, amended. Called before [begin_test_scenario], in phase [NotStarted]
    or [Undefined] and with no scenario report yet, [record_execution_error]
    returns normally when the documentation and the declaration of the
    scenario are bound, as they are after construction by the factory: it
    makes a new scenario report without cases, notes or cleanup, stores the
    error record in it, sets [successful] to false and sets the phase to
    [Complete]; the store is untouched.  When one of the two is not bound,
    as on an instance whose [__init__] has not run, it raises
    [AttributeError] and changes nothing. *)
Theorem record_execution_error_before_start (e : Exn) (now : datetime) (s : State) :
  _phase s = NotStarted \/ _phase s = Undefined ->
  _scenario_report s = None ->
  match documentation s, declaration s with
  | Some doc, Some decl =>
      exists s' r,
        record_execution_error e now s = (Ok tt, s')
        /\ _scenario_report s' = Some r
        /\ r_name r = doc_name doc
        /\ r_scenario_type r = scenario_type decl
        /\ r_documentation_url r = doc_url doc
        /\ r_start_time r = SBDT now
        /\ r_end_time r = None
        /\ r_cases r = [] /\ r_notes r = None /\ r_cleanup r = None
        /\ execution_error r = Some (create_from_exception e)
        /\ successful r = Some false
        /\ _phase s' = Complete
        /\ documentation s' = documentation s
        /\ declaration s' = declaration s
        /\ case_store s' = case_store s
        /\ step_store s' = step_store s
        /\ check_store s' = check_store s
  | _, _ => record_execution_error e now s = (Raise AttributeError, s)
  end.
Proof.
  intros Hphase Hnone.
  assert (Hc : ScenarioPhase_eqb (_phase s) Complete = false)
    by (destruct Hphase as [-> | ->]; reflexivity).
  unfold record_execution_error. rewrite bind_get, Hc, Hnone.
  unfold _make_scenario_report.
  cbv beta iota delta [bind get].
  destruct (documentation s) as [doc |] eqn:Hdoc; [| reflexivity ].
  destruct (declaration s) as [decl |] eqn:Hdecl; [| reflexivity ].
  cbv beta iota delta [bind modify update_scenario_report get ret attr_of].
  simpl. do 2 eexists. split; [reflexivity |]. simpl.
  rewrite Hdoc, Hdecl. repeat split; reflexivity.
Qed.

Lemma record_execution_error_before_start_witness :
  exists s' r,
    record_execution_error (OtherException "boom") 7%Z
      (new_scenario example_documentation None) = (Ok tt, s')
    /\ _scenario_report s' = Some r
    /\ r_cases r = []
    /\ execution_error r = Some (create_from_exception (OtherException "boom"))
    /\ successful r = Some false
    /\ _phase s' = Complete.
Proof.
  destruct (record_execution_error_before_start (OtherException "boom") 7%Z
              (new_scenario example_documentation None)
              (or_introl eq_refl) eq_refl)
    as (s' & r & H1 & H2 & _ & _ & _ & _ & _ & H3 & _ & _ & H4 & H5 & H6 & _).
  exists s', r. repeat split; assumption.
Defined.

(** ** record_note *)

(** C7, at the input where the code departs from the claim: on a scenario that
    has just been constructed (phase [NotStarted], which [record_note]
    accepts) there is no scenario report yet, and the membership test
    ["notes" not in self._scenario_report] raises [TypeError]; no note is
    recorded. *)
Theorem record_note_fails_when_not_started :
  _phase (new_scenario example_documentation None) = NotStarted
  /\ record_note "First USS" "uss1" 3%Z (new_scenario example_documentation None)
     = (Raise TypeError, new_scenario example_documentation None).
Proof. split; reflexivity. Qed.

(** X1. Where a scenario report exists, [record_note] does what it is meant to:
    in each of the phases it accepts, the note is stored under its key,
    replacing an older note of that key and leaving the other keys alone,
    and the phase stays. *)
Lemma record_note_upserts (key message : string) (now : datetime) (s : State) r :
  In (_phase s)
     [NotStarted; ReadyForTestCase; ReadyForTestStep; RunningTestStep;
      ReadyForCleanup; CleaningUp] ->
  _scenario_report s = Some r ->
  exists s' r' notes',
    record_note key message now s = (Ok tt, s')
    /\ _phase s' = _phase s
    /\ _scenario_report s' = Some r'
    /\ r_notes r' = Some notes'
    /\ notes' !! key = Some {| note_message := message; note_timestamp := SBDT now |}
    /\ (forall k, k <> key ->
          notes' !! k = match r_notes r with Some n => n !! k | None => None end)
    /\ r_cases r' = r_cases r
    /\ case_store s' = case_store s /\ step_store s' = step_store s.
Proof.
  intros Hphase Hr. apply phase_in_In in Hphase.
  unfold record_note. erewrite bind_Ok; [| now apply _expect_phase_Ok ].
  rewrite bind_get, Hr. unfold modify.
  do 3 eexists. split; [reflexivity |]. simpl.
  split; [reflexivity |]. split; [reflexivity |]. split; [reflexivity |].
  split; [apply lookup_insert_eq |].
  split; [| repeat split; reflexivity ].
  intros k Hk. rewrite lookup_insert_ne by congruence.
  destruct (r_notes r); [reflexivity | apply lookup_empty ].
Qed.

(** ** get_report *)

Lemma not_low_spec fc : not_low fc = true <-> fc_severity fc <> Low.
Proof. unfold not_low. destruct (fc_severity fc); simpl; split; congruence. Qed.

Lemma flag_loop (fcs : list FailedCheck) b r s :
  for_each fcs flag_if_not_low (with_successful b r s)
  = (Ok tt, with_successful (if existsb not_low fcs then Some false else b) r s).
Proof.
  revert b. induction fcs as [| fc fcs IH]; intros b; simpl.
  - reflexivity.
  - unfold flag_if_not_low at 1. fold (not_low fc).
    destruct (not_low fc); simpl.
    + erewrite bind_Ok; [| reflexivity ].
      change (for_each fcs flag_if_not_low (with_successful (Some false) r s)
              = (Ok tt, with_successful (Some false) r s)).
      rewrite IH. now destruct (existsb not_low fcs).
    + rewrite bind_ret. apply IH.
Qed.

Lemma step_loop (sls : list loc) b r s :
  Forall (fun sl => is_Some (step_store s !! sl)) sls ->
  for_each sls
    (fun sl => step_report <- read_step_report sl ;;
               for_each (failed_checks step_report) flag_if_not_low)
    (with_successful b r s)
  = (Ok tt,
     with_successful
       (if existsb (step_has_failure (step_store s)) sls then Some false else b) r s).
Proof.
  intros H. revert b. induction H as [| sl sls [sr Hsl] _ IH]; intros b; simpl.
  - reflexivity.
  - erewrite bind_Ok; cycle 1.
    { erewrite bind_Ok; [apply flag_loop |].
      unfold read_step_report. rewrite bind_get. simpl step_store.
      unfold deref. rewrite Hsl. reflexivity. }
    rewrite IH. unfold step_has_failure at 2. rewrite Hsl.
    destruct (existsb not_low (failed_checks sr)); simpl; [| reflexivity ].
    now destruct (existsb (step_has_failure (step_store s)) sls).
Qed.

Lemma case_loop (cls : list loc) b r s :
  Forall (fun cl =>
            exists cr,
              case_store s !! cl = Some cr
              /\ Forall (fun sl => is_Some (step_store s !! sl)) (cr_steps cr)) cls ->
  for_each cls
    (fun cl => case_report <- read_case_report cl ;;
               for_each (cr_steps case_report)
                 (fun sl => step_report <- read_step_report sl ;;
                            for_each (failed_checks step_report) flag_if_not_low))
    (with_successful b r s)
  = (Ok tt,
     with_successful
       (if existsb (case_has_failure (case_store s) (step_store s)) cls
        then Some false else b) r s).
Proof.
  intros H. revert b.
  induction H as [| cl cls (cr & Hcl & Hsteps) _ IH]; intros b; simpl.
  - reflexivity.
  - erewrite bind_Ok; cycle 1.
    { erewrite bind_Ok; cycle 1.
      - unfold read_case_report. rewrite bind_get. simpl case_store.
        unfold deref. rewrite Hcl. reflexivity.
      - now apply step_loop. }
    rewrite IH. unfold case_has_failure at 2. rewrite Hcl.
    destruct (existsb (step_has_failure (step_store s)) (cr_steps cr)); simpl;
      [| reflexivity ].
    now destruct (existsb (case_has_failure (case_store s) (step_store s)) cls).
Qed.

Lemma evaluate_success_runs (s : State) (r : TestScenarioReport) :
  _scenario_report s = Some r ->
  report_resolved s r ->
  evaluate_success s
  = (Ok (report_with_successful (Some (success_of s r)) r),
     with_successful (Some (success_of s r)) r s).
Proof.
  intros Hr [Hcases Hcleanup]. unfold evaluate_success.
  erewrite bind_Ok; cycle 1.
  { unfold update_scenario_report. rewrite bind_get, Hr. reflexivity. }
  set (b0 := match execution_error r with None => true | Some _ => false end).
  change (set_scenario_report (Some (report_with_successful (Some b0) r)) s)
    with (with_successful (Some b0) r s).
  erewrite bind_Ok; [| reflexivity ]. simpl r_cases.
  erewrite bind_Ok; [| now apply case_loop ].
  erewrite bind_Ok; [| reflexivity ]. simpl r_cleanup.
  unfold success_of. fold b0.
  destruct (r_cleanup r) as [l |].
  - destruct Hcleanup as [sr Hl].
    erewrite bind_Ok; cycle 1.
    { erewrite bind_Ok; [apply flag_loop |].
      unfold read_step_report. rewrite bind_get. simpl step_store.
      unfold deref. rewrite Hl. reflexivity. }
    unfold step_has_failure. rewrite Hl.
    destruct b0, (existsb (case_has_failure (case_store s) (step_store s)) (r_cases r)),
      (existsb not_low (failed_checks sr)); reflexivity.
  - rewrite bind_ret.
    destruct b0, (existsb (case_has_failure (case_store s) (step_store s)) (r_cases r));
      reflexivity.
Qed.

Lemma step_has_failure_spec hs sl :
  step_has_failure hs sl = true
  <-> exists sr fc, hs !! sl = Some sr /\ In fc (failed_checks sr) /\ fc_severity fc <> Low.
Proof.
  unfold step_has_failure. split.
  - destruct (hs !! sl) as [sr |]; [| discriminate ].
    rewrite existsb_exists. intros (fc & Hin & Hfc).
    exists sr, fc. rewrite <- not_low_spec. auto 10.
  - intros (sr & fc & -> & Hin & Hfc). apply existsb_exists.
    exists fc. rewrite not_low_spec. auto 10.
Qed.

Lemma case_has_failure_spec hc hs cl :
  case_has_failure hc hs cl = true
  <-> exists cr sl sr fc,
        hc !! cl = Some cr /\ In sl (cr_steps cr) /\ hs !! sl = Some sr
        /\ In fc (failed_checks sr) /\ fc_severity fc <> Low.
Proof.
  unfold case_has_failure. split.
  - destruct (hc !! cl) as [cr |]; [| discriminate ].
    rewrite existsb_exists. intros (sl & Hin & Hsl).
    apply step_has_failure_spec in Hsl. destruct Hsl as (sr & fc & H1 & H2 & H3).
    exists cr, sl, sr, fc. auto 10.
  - intros (cr & sl & sr & fc & -> & Hin & H1 & H2 & H3). apply existsb_exists.
    exists sl. split; [exact Hin |]. apply step_has_failure_spec. eauto 10.
Qed.

Lemma success_of_false (s : State) (r : TestScenarioReport) :
  success_of s r = false <-> execution_error r <> None \/ blocking_failure s r.
Proof.
  unfold success_of, blocking_failure.
  rewrite !andb_false_iff, !negb_false_iff. split.
  - intros [[H | H] | H].
    + left. destruct (execution_error r); [discriminate | discriminate H].
    + right. left. apply existsb_exists in H. destruct H as (cl & Hin & H).
      apply case_has_failure_spec in H.
      destruct H as (cr & sl & sr & fc & H1 & H2 & H3 & H4 & H5).
      exists cl, cr, sl, sr, fc. auto 10.
    + right. right. destruct (r_cleanup r) as [l |]; [| discriminate ].
      apply step_has_failure_spec in H. destruct H as (sr & fc & H1 & H2 & H3).
      exists l, sr, fc. auto 10.
  - intros [H | [H | H]].
    + left. left. destruct (execution_error r); [reflexivity | congruence].
    + left. right. destruct H as (cl & cr & sl & sr & fc & H1 & H2 & H3 & H4 & H5 & H6).
      apply existsb_exists. exists cl. split; [exact H1 |].
      apply case_has_failure_spec. exists cr, sl, sr, fc. auto 10.
    + right. destruct H as (l & sr & fc & -> & H2 & H3 & H4).
      apply step_has_failure_spec. eauto 10.
Qed.

Lemma evaluate_success_spec (s : State) (r0 : TestScenarioReport) :
  _scenario_report s = Some r0 ->
  report_resolved s r0 ->
  exists r s',
    evaluate_success s = (Ok r, s')
    /\ _scenario_report s' = Some r
    /\ _phase s' = _phase s
    /\ case_store s' = case_store s /\ step_store s' = step_store s
    /\ r_cases r = r_cases r0 /\ r_cleanup r = r_cleanup r0
    /\ execution_error r = execution_error r0
    /\ (exists b, successful r = Some b)
    /\ (successful r = Some false
        <-> execution_error r <> None \/ blocking_failure s' r).
Proof.
  intros Hr Hres. do 2 eexists. split; [exact (evaluate_success_runs s r0 Hr Hres) |].
  simpl. repeat (split; [reflexivity |]). split; [eauto |].
  change (blocking_failure (with_successful (Some (success_of s r0)) r0 s)
            (report_with_successful (Some (success_of s r0)) r0))
    with (blocking_failure s r0).
  rewrite <- success_of_false. split; congruence.
Qed.

Lemma set_scenario_report_same s r :
  _scenario_report s = Some r -> set_scenario_report (Some r) s = s.
Proof. destruct s. simpl. now intros ->. Qed.

(** The first statement of [get_report] and of [record_execution_error]:
    the report is made if there is none. *)
Lemma report_is_made now s :
  (match _scenario_report s with
   | None => _make_scenario_report now
   | Some _ => ret tt
   end) s
  = match starting_report now s with
    | Some r0 => (Ok tt, set_scenario_report (Some r0) s)
    | None => (Raise AttributeError, s)
    end.
Proof.
  unfold starting_report. destruct (_scenario_report s) as [r |] eqn:Hr.
  - now rewrite (set_scenario_report_same s r Hr).
  - unfold _make_scenario_report. cbv beta iota delta [bind get].
    destruct (documentation s) as [doc |]; [| reflexivity ].
    destruct (declaration s) as [decl |]; reflexivity.
Qed.

Lemma starting_report_resolved now s r0 :
  (forall r, _scenario_report s = Some r -> report_resolved s r) ->
  starting_report now s = Some r0 ->
  report_resolved s r0.
Proof.
  intros Hres. unfold starting_report.
  destruct (_scenario_report s) as [r |].
  - intros [= <-]. now apply Hres.
  - destruct (documentation s), (declaration s); try discriminate.
    intros [= <-]. split; [constructor | exact I ].
Qed.

(** [get_report] first sees to it that an unfinished scenario has an
    execution error, and then evaluates success. *)
Lemma get_report_settles now s r0 :
  starting_report now s = Some r0 ->
  let unfinished :=
    match execution_error r0 with
    | Some _ => false
    | None => negb (ScenarioPhase_eqb (_phase s) Complete)
    end in
  let r1 :=
    if unfinished
    then report_with_successful (Some false)
           (report_with_execution_error
              (Some (create_from_exception
                       (RuntimeError
                          (WrongPhase (me s) (_phase s) "get_report" [Complete]))))
              r0)
    else r0 in
  let s1 :=
    if unfinished
    then set_phase Complete (set_scenario_report (Some r1) s)
    else set_scenario_report (Some r1) s in
  get_report now s = evaluate_success s1
  /\ _scenario_report s1 = Some r1
  /\ (execution_error r1 <> None \/ _phase s1 = Complete).
Proof.
  intros Hstart unfinished r1 s1. unfold get_report. rewrite bind_get.
  pose proof (report_is_made now s) as Hmade. rewrite Hstart in Hmade.
  erewrite bind_Ok; [| exact Hmade ].
  erewrite bind_Ok; [| reflexivity ].
  subst unfinished r1 s1. destruct (execution_error r0) as [err |] eqn:Herr.
  - rewrite bind_ret. split; [reflexivity |]. split; [reflexivity |].
    left. congruence.
  - destruct (ScenarioPhase_eqb (_phase s) Complete) eqn:Hc; cbn [negb].
    + erewrite bind_Ok; cycle 1.
      { unfold try_except_RuntimeError. rewrite _expect_phase_Ok; [reflexivity |].
        cbn [_phase set_scenario_report]. simpl. now rewrite Hc. }
      split; [reflexivity |]. split; [reflexivity |].
      right. now apply ScenarioPhase_eqb_eq.
    + erewrite bind_Ok; cycle 1.
      { unfold try_except_RuntimeError. rewrite _expect_phase_Raise; cycle 1.
        { cbn [_phase set_scenario_report]. simpl. now rewrite Hc. }
        simpl is_RuntimeError. cbv iota.
        unfold record_execution_error. rewrite bind_get.
        cbn [_phase set_scenario_report]. rewrite Hc.
        cbv beta iota delta [bind modify update_scenario_report get ret attr_of].
        simpl. reflexivity. }
      split; [reflexivity |]. split; [reflexivity |]. left. discriminate.
Qed.

Lemma get_report_runs now s r0 :
  starting_report now s = Some r0 ->
  report_resolved s r0 ->
  let unfinished :=
    match execution_error r0 with
    | Some _ => false
    | None => negb (ScenarioPhase_eqb (_phase s) Complete)
    end in
  let r1 :=
    if unfinished
    then report_with_successful (Some false)
           (report_with_execution_error
              (Some (create_from_exception
                       (RuntimeError
                          (WrongPhase (me s) (_phase s) "get_report" [Complete]))))
              r0)
    else r0 in
  let s1 :=
    if unfinished
    then set_phase Complete (set_scenario_report (Some r1) s)
    else set_scenario_report (Some r1) s in
  get_report now s
  = (Ok (report_with_successful (Some (success_of s1 r1)) r1),
     with_successful (Some (success_of s1 r1)) r1 s1).
Proof.
  intros Hstart Hres unfinished r1 s1.
  destruct (get_report_settles now s r0 Hstart) as (Hrun & Hr1 & _).
  fold unfinished r1 s1 in Hrun, Hr1. rewrite Hrun.
  apply evaluate_success_runs; [exact Hr1 |].
  subst r1 s1. destruct unfinished; exact Hres.
Qed.

(** C6, as the claim states it, fails in phase [Undefined]: on an instance
    whose [__init__] has not run, [get_report] does not return a report; it
    raises [AttributeError] where the missing report is to be made from the
    documentation, and changes nothing. *)
Lemma get_report_fails_before_init :
  _phase uninitialised_scenario = Undefined
  /\ get_report 9%Z uninitialised_scenario
     = (Raise AttributeError, uninitialised_scenario)
  /\ ~ (exists r s', get_report 9%Z uninitialised_scenario = (Ok r, s')).
Proof.
  split; [reflexivity |]. split; [reflexivity |].
  intros (r & s' & H). discriminate H.
Qed.

(** C6, amended. [get_report] returns normally in every phase, provided the
    scenario has a report or its documentation and declaration are bound
    (as after construction by the factory), so that the missing report can
    be made; otherwise it raises [AttributeError] and changes nothing.
    When the phase is not [Complete] and no execution error was recorded
    before, it first records one (the [RuntimeError] of the failed phase
    expectation) and completes the scenario; in phase [Complete], or with
    an error recorded before, the error and the phase stay as they are.
    The report it returns is the report of the scenario: apart from the
    execution error and [successful] it is the report that was there (or
    the new one), with the same cases, notes and cleanup step, and the
    state changes in the report and the phase only.  [successful] is set,
    and it is false exactly when the report holds an execution error or
    when some failed check of a step of a case, or of the cleanup step, has
    a severity other than [Low]. *)
Theorem get_report_spec (now : datetime) (s : State) :
  (forall r0, _scenario_report s = Some r0 -> report_resolved s r0) ->
  match starting_report now s with
  | None => get_report now s = (Raise AttributeError, s)
  | Some r0 =>
      exists r s',
        get_report now s = (Ok r, s')
        /\ s' = set_phase (_phase s') (set_scenario_report (Some r) s)
        /\ r_name r = r_name r0
        /\ r_scenario_type r = r_scenario_type r0
        /\ r_documentation_url r = r_documentation_url r0
        /\ r_start_time r = r_start_time r0
        /\ r_end_time r = r_end_time r0
        /\ r_cases r = r_cases r0
        /\ r_notes r = r_notes r0
        /\ r_cleanup r = r_cleanup r0
        /\ (_phase s = Complete \/ execution_error r0 <> None ->
            execution_error r = execution_error r0 /\ _phase s' = _phase s)
        /\ (_phase s <> Complete -> execution_error r0 = None ->
            execution_error r
            = Some (create_from_exception
                      (RuntimeError
                         (WrongPhase (me s) (_phase s) "get_report" [Complete])))
            /\ _phase s' = Complete)
        /\ (exists b, successful r = Some b)
        /\ (successful r = Some false
            <-> execution_error r <> None \/ blocking_failure s' r)
  end.
Proof.
  intros Hres. destruct (starting_report now s) as [r0 |] eqn:Hstart.
  - pose proof (starting_report_resolved now s r0 Hres Hstart) as Hres0.
    pose proof (get_report_runs now s r0 Hstart Hres0) as Hrun.
    cbv zeta in Hrun. eexists _, _. split; [exact Hrun |]. clear Hrun.
    destruct (execution_error r0) as [err |] eqn:Herr.
    + (* an execution error is there *)
      cbn [set_phase set_scenario_report with_successful _phase r_name
             r_scenario_type r_documentation_url r_start_time r_end_time r_cases
             r_notes r_cleanup execution_error successful report_with_successful].
      split; [reflexivity |]. do 8 (split; [reflexivity |]).
      split; [intros _; split; [exact Herr | reflexivity ] |].
      split; [intros _ H; discriminate H |].
      split; [eexists; reflexivity |].
      pose proof (success_of_false s r0) as Hiff. rewrite Herr in Hiff.
      rewrite ?Herr.
      change (blocking_failure _ _) with (blocking_failure s r0).
      change (success_of (set_scenario_report (Some r0) s) r0) with (success_of s r0).
      rewrite <- Hiff. split; congruence.
    + destruct (ScenarioPhase_eqb (_phase s) Complete) eqn:Hc; cbn [negb].
      * (* complete, without error *)
        apply ScenarioPhase_eqb_eq in Hc.
        cbn [set_phase set_scenario_report with_successful _phase r_name
               r_scenario_type r_documentation_url r_start_time r_end_time r_cases
               r_notes r_cleanup execution_error successful report_with_successful].
        split; [reflexivity |]. do 8 (split; [reflexivity |]).
        split; [intros _; split; [exact Herr | reflexivity ] |].
        split; [intros H; contradiction |].
        split; [eexists; reflexivity |].
        pose proof (success_of_false s r0) as Hiff. rewrite Herr in Hiff.
        rewrite ?Herr.
        change (blocking_failure _ _) with (blocking_failure s r0).
        change (success_of (set_scenario_report (Some r0) s) r0) with (success_of s r0).
        rewrite <- Hiff. split; congruence.
      * (* not complete: the failed expectation becomes the execution error *)
        assert (Hnot : _phase s <> Complete)
          by (intros E; apply ScenarioPhase_eqb_eq in E; congruence).
        set (e := create_from_exception
                    (RuntimeError
                       (WrongPhase (me s) (_phase s) "get_report" [Complete]))).
        set (r1 := report_with_successful (Some false)
                     (report_with_execution_error (Some e) r0)).
        cbn [set_phase set_scenario_report with_successful _phase r_name
               r_scenario_type r_documentation_url r_start_time r_end_time r_cases
               r_notes r_cleanup execution_error successful report_with_successful
               report_with_execution_error r1].
        split; [reflexivity |]. do 8 (split; [reflexivity |]).
        split; [intros [H | H]; congruence |].
        split; [intros _ _; split; reflexivity |].
        split; [eexists; reflexivity |].
        change (blocking_failure _ _) with (blocking_failure s r1).
        change (Some e) with (execution_error r1).
        rewrite <- success_of_false.
        change (success_of (set_phase Complete (set_scenario_report (Some r1) s)) r1)
          with (success_of s r1).
        split; congruence.
  - unfold get_report. rewrite bind_get.
    pose proof (report_is_made now s) as Hmade. rewrite Hstart in Hmade.
    now rewrite (bind_Raise _ _ _ _ _ Hmade).
Qed.

Lemma example2_resolved r0 :
  _scenario_report example2_state = Some r0 -> report_resolved example2_state r0.
Proof.
  intros H. vm_compute in H. injection H as <-.
  split; [| exact I ].
  constructor; [| constructor ].
  eexists. split; [reflexivity |].
  constructor; [| constructor ]. eexists. reflexivity.
Qed.

Lemma example2_starting_report :
  exists r0, starting_report 9%Z example2_state = Some r0 /\ r_cases r0 = [0].
Proof. eexists. split; vm_compute; reflexivity. Qed.

Lemma get_report_spec_witness :
  exists r s',
    get_report 9%Z example2_state = (Ok r, s')
    /\ r_cases r = [0]
    /\ (exists b, successful r = Some b)
    /\ (successful r = Some false
        <-> execution_error r <> None \/ blocking_failure s' r).
Proof.
  pose proof (get_report_spec 9%Z example2_state example2_resolved) as H.
  destruct example2_starting_report as (r0 & Hstart & Hcases).
  rewrite Hstart in H.
  destruct H as (r & s' & H1 & _ & _ & _ & _ & _ & _ & H2 & _ & _ & _ & _ & H3 & H4).
  exists r, s'. split; [exact H1 |]. split; [congruence |].
  split; [exact H3 | exact H4 ].
Defined.

(** The end-to-end examples of the specification, run on the model. *)
Lemma example1_outcome :
  fst (example1_run (new_scenario example_documentation None)) = Ok tt
  /\ _phase example1_state = Complete
  /\ map passed_checks (step_store example1_state)
     = [[ {| pc_name := "Area is clear"; pc_participants := [];
             pc_requirements := ["req1"] |} ]]
  /\ map failed_checks (step_store example1_state) = [[]]
  /\ successful <$> returned (get_report 9%Z example1_state) = Some (Some true).
Proof. repeat split; reflexivity. Qed.

Lemma example2_outcome :
  fst (example2_step (new_scenario example_documentation None))
  = Raise (ScenarioCannotContinueError (SeverityIssue High "area not clear"))
  /\ _phase example2_state = Complete
  /\ map (fun sr => map fc_summary (failed_checks sr)) (step_store example2_state)
     = [["area not clear"]]
  /\ map passed_checks (step_store example2_state) = [[]]
  /\ successful <$> returned (get_report 9%Z example2_state) = Some (Some false).
Proof. repeat split; reflexivity. Qed.

(** ** Pending checks *)

Lemma update_pending_check_runs self f s c :
  check_store s !! self = Some c ->
  update_pending_check self f s
  = (Ok tt, set_check_store (<[self := f c]> (check_store s)) s).
Proof.
  intros H. unfold update_pending_check. rewrite bind_get.
  unfold deref. rewrite H. reflexivity.
Qed.

Lemma update_step_report_runs l f s sr :
  step_store s !! l = Some sr ->
  update_step_report l f s
  = (Ok tt, set_step_store (<[l := f sr]> (step_store s)) s).
Proof.
  intros H. unfold update_step_report. rewrite bind_get.
  unfold deref. rewrite H. reflexivity.
Qed.

Lemma lookup_insert_same {A} (h : list A) (i : nat) (x y : A) :
  h !! i = Some x -> <[i := y]> h !! i = Some y.
Proof. intros H. apply list_lookup_insert_eq. now apply lookup_lt_Some in H. Qed.

Lemma record_passed_runs self participants requirements s c l sr :
  check_store s !! self = Some c ->
  pc_step_report c = Some l ->
  step_store s !! l = Some sr ->
  record_passed self participants requirements s
  = (Ok tt,
     outcome_recorded_state self c l
       (step_with_passed_checks
          (passed_checks sr ++ [passed_check_of c participants requirements]) sr) s).
Proof.
  intros Hc Hl Hsr. unfold record_passed.
  erewrite bind_Ok; [| exact (update_pending_check_runs _ _ _ _ Hc) ].
  rewrite bind_get. simpl check_store.
  erewrite bind_Ok; [| unfold deref; erewrite lookup_insert_same by eassumption;
                       reflexivity ].
  simpl pc_step_report. rewrite Hl. cbn [attr_of]. rewrite bind_ret.
  erewrite update_step_report_runs by exact Hsr. reflexivity.
Qed.

Lemma record_failed_runs run_callback self summary severity details participants
    query_timestamps additional_data requirements now s c l sr :
  check_store s !! self = Some c ->
  pc_step_report c = Some l ->
  step_store s !! l = Some sr ->
  let failed_check :=
    {| fc_name := check_name (_documentation c);
       fc_documentation_url := check_url (_documentation c);
       fc_timestamp := SBDT now;
       fc_summary := summary;
       fc_details := details;
       fc_requirements :=
         match requirements with
         | None => applicable_requirements (_documentation c)
         | Some r => r
         end;
       fc_severity := severity;
       fc_participants :=
         match participants with None => _participants c | Some p => p end;
       fc_additional_data := additional_data;
       fc_query_report_timestamps :=
         match query_timestamps with None => None | Some ts => Some (map SBDT ts) end |} in
  let s1 :=
    outcome_recorded_state self c l
      (step_with_failed_checks (failed_checks sr ++ [failed_check]) sr) s in
  record_failed run_callback self summary severity details participants
    query_timestamps additional_data requirements now s
  = match _on_failed_check c with
    | Some f =>
        match run_callback f failed_check s1 with
        | (Ok _, s2) => (severity_signal severity summary, s2)
        | (Raise e, s2) => (Raise e, s2)
        end
    | None => (severity_signal severity summary, s1)
    end.
Proof.
  intros Hc Hl Hsr failed_check s1. unfold record_failed.
  erewrite bind_Ok; [| exact (update_pending_check_runs _ _ _ _ Hc) ].
  rewrite bind_get. simpl check_store.
  erewrite bind_Ok; [| unfold deref; erewrite lookup_insert_same by eassumption;
                       reflexivity ].
  simpl pc_step_report. rewrite Hl. cbn [attr_of]. rewrite bind_ret.
  erewrite bind_Ok; [| apply update_step_report_runs; exact Hsr ].
  cbn [_documentation _participants _on_failed_check check_with_outcome_recorded].
  fold failed_check. change (set_step_store _ _) with s1.
  destruct (_on_failed_check c) as [f |].
  - unfold bind at 1. destruct (run_callback f failed_check s1) as [[[] | e] s2].
    + destruct severity; reflexivity.
    + reflexivity.
  - rewrite bind_ret. destruct severity; reflexivity.
Qed.

(** C3. [record_failed] on a pending check appends exactly one failed check
    to the step report the check is bound to and leaves the other step
    reports, the passed checks, the phase and the scenario report alone;
    then the failure observer, when one is set, is called with that failed
    check and sees the state in which it is already recorded; only after
    the observer has returned does the severity decide: [Low] returns
    normally, [High] raises [ScenarioCannotContinueError], [Critical] raises
    [TestRunCannotContinueError], which is another exception class. *)
Theorem record_failed_spec
    (run_callback : Callback -> FailedCheck -> M unit)
    (self : loc) (summary : string) (severity : Severity) (details : string)
    (participants : option (list ParticipantID))
    (query_timestamps : option (list datetime))
    (additional_data : option string) (requirements : option (list string))
    (now : datetime) (s : State) (c : PendingCheck) (l : loc) (sr : TestStepReport) :
  check_store s !! self = Some c ->
  pc_step_report c = Some l ->
  step_store s !! l = Some sr ->
  exists failed_check sr1 s1,
    fc_name failed_check = check_name (_documentation c)
    /\ fc_summary failed_check = summary
    /\ fc_details failed_check = details
    /\ fc_severity failed_check = severity
    /\ step_store s1 !! l = Some sr1
    /\ failed_checks sr1 = failed_checks sr ++ [failed_check]
    /\ passed_checks sr1 = passed_checks sr
    /\ (forall l', l' <> l -> step_store s1 !! l' = step_store s !! l')
    /\ _phase s1 = _phase s
    /\ _scenario_report s1 = _scenario_report s
    /\ case_store s1 = case_store s
    /\ record_failed run_callback self summary severity details participants
         query_timestamps additional_data requirements now s
       = match _on_failed_check c with
         | Some f =>
             match run_callback f failed_check s1 with
             | (Ok _, s2) => (severity_signal severity summary, s2)
             | (Raise e, s2) => (Raise e, s2)
             end
         | None => (severity_signal severity summary, s1)
         end
    /\ severity_signal severity summary
       = match severity with
         | Low => Ok tt
         | High => Raise (ScenarioCannotContinueError (SeverityIssue High summary))
         | Critical => Raise (TestRunCannotContinueError (SeverityIssue Critical summary))
         end
    /\ (forall m m', ScenarioCannotContinueError m <> TestRunCannotContinueError m').
Proof.
  intros Hc Hl Hsr.
  pose proof (record_failed_runs run_callback self summary severity details
                participants query_timestamps additional_data requirements now
                s c l sr Hc Hl Hsr) as Hrun.
  cbv zeta in Hrun.
  match type of Hrun with
  | context [outcome_recorded_state self c l
               (step_with_failed_checks (_ ++ [?fc]) sr) s] =>
      exists fc, (step_with_failed_checks (failed_checks sr ++ [fc]) sr),
        (outcome_recorded_state self c l
           (step_with_failed_checks (failed_checks sr ++ [fc]) sr) s)
  end.
  do 4 (split; [reflexivity |]).
  split; [simpl; eapply lookup_insert_same; exact Hsr |].
  do 2 (split; [reflexivity |]).
  split; [intros l' Hne; simpl; apply list_lookup_insert_ne; congruence |].
  do 3 (split; [reflexivity |]).
  split; [exact Hrun |].
  split; [now destruct severity | discriminate ].
Qed.

Lemma example_checking_objects cb :
  check_store (example_checking cb) !! 0 = Some (example_pending_check cb)
  /\ step_store (example_checking cb) !! 0 = Some example_step_report.
Proof. split; reflexivity. Qed.

Lemma record_failed_spec_witness :
  exists failed_check sr1 s1,
    fc_summary failed_check = "area not clear"
    /\ fc_severity failed_check = High
    /\ step_store s1 !! 0 = Some sr1
    /\ failed_checks sr1 = [failed_check]
    /\ record_failed noting_observer 0 "area not clear" High "" None None None None
         4%Z (example_checking (Some 0))
       = match noting_observer 0 failed_check s1 with
         | (Ok _, s2) =>
             (Raise (ScenarioCannotContinueError (SeverityIssue High "area not clear")), s2)
         | (Raise e, s2) => (Raise e, s2)
         end.
Proof.
  destruct (record_failed_spec noting_observer 0 "area not clear" High "" None None
              None None 4%Z (example_checking (Some 0))
              (example_pending_check (Some 0)) 0 example_step_report
              (proj1 (example_checking_objects (Some 0))) eq_refl
              (proj2 (example_checking_objects (Some 0))))
    as (fc & sr1 & s1 & _ & H2 & _ & H4 & H5 & H6 & _ & _ & _ & _ & _ & H12 & _).
  exists fc, sr1, s1.
  split; [exact H2 |]. split; [exact H4 |]. split; [exact H5 |].
  split; [exact H6 |]. exact H12.
Defined.

Lemma __exit___unrecorded self s c l sr :
  check_store s !! self = Some c ->
  _outcome_recorded c = false ->
  pc_step_report c = Some l ->
  step_store s !! l = Some sr ->
  __exit__ self s
  = (Ok tt,
     outcome_recorded_state self c l
       (step_with_passed_checks (passed_checks sr ++ [passed_check_of c None None]) sr) s).
Proof.
  intros Hc Hflag Hl Hsr. unfold __exit__. rewrite bind_get.
  erewrite bind_Ok; [| unfold deref; rewrite Hc; reflexivity ].
  rewrite Hflag. simpl negb. cbv iota.
  now apply record_passed_runs.
Qed.

Lemma __exit___recorded self s c :
  check_store s !! self = Some c ->
  _outcome_recorded c = true ->
  __exit__ self s = (Ok tt, s).
Proof.
  intros Hc Hflag. unfold __exit__. rewrite bind_get.
  erewrite bind_Ok; [| unfold deref; rewrite Hc; reflexivity ].
  rewrite Hflag. reflexivity.
Qed.

(** A pending check is created without a recorded outcome, and each of the two
    outcome calls records one. *)
Lemma check_creates_unrecorded name participants s self s' :
  check name participants s = (Ok self, s') ->
  exists c,
    check_store s' !! self = Some c
    /\ _outcome_recorded c = false
    /\ pc_step_report c = _step_report s.
Proof.
  unfold check. destruct (_expect_phase "check" [RunningTestStep; CleaningUp] s)
    as [[[] | e] s0] eqn:Hphase.
  2:{ erewrite bind_Raise by exact Hphase. discriminate. }
  assert (s0 = s) as ->.
  { unfold _expect_phase in Hphase. rewrite bind_get in Hphase.
    destruct (phase_in (_phase s) [RunningTestStep; CleaningUp]);
      inversion Hphase; reflexivity. }
  erewrite bind_Ok by exact Hphase. rewrite bind_get.
  destruct (_current_step s) as [d |]; [| discriminate ].
  cbn [attr_of]. rewrite bind_ret.
  destruct (PyDict.get name (PyDict.comprehension check_name (checks d))) as [cd |].
  - unfold new_pending_check. rewrite bind_get, bind_modify, (* ret *) ?bind_ret.
    unfold ret. intros H. inversion H; subst. simpl.
    eexists. split; [apply list_lookup_middle; reflexivity |]. split; reflexivity.
  - destruct (_current_case s); discriminate.
Qed.

(** C4. A pending check on which no outcome was recorded by the end of the
    body of its [with] statement gets exactly one passed check appended to the
    step report it is bound to when the statement is left, whether the body
    returned or raised; the body's outcome is the outcome of the statement. *)
Theorem unrecorded_check_passes_at_exit {A}
    (manager : M loc) (body : loc -> M A)
    (s s1 s2 : State) (self : loc) (o : Outcome A)
    (c : PendingCheck) (l : loc) (sr : TestStepReport) :
  manager s = (Ok self, s1) ->
  body self s1 = (o, s2) ->
  check_store s2 !! self = Some c ->
  _outcome_recorded c = false ->
  pc_step_report c = Some l ->
  step_store s2 !! l = Some sr ->
  exists s3 sr3,
    with_check manager body s = (o, s3)
    /\ step_store s3 !! l = Some sr3
    /\ passed_checks sr3
       = passed_checks sr
         ++ [ {| pc_name := check_name (_documentation c);
                 pc_participants := _participants c;
                 pc_requirements := applicable_requirements (_documentation c) |} ]
    /\ failed_checks sr3 = failed_checks sr
    /\ (forall l', l' <> l -> step_store s3 !! l' = step_store s2 !! l')
    /\ _phase s3 = _phase s2
    /\ _scenario_report s3 = _scenario_report s2
    /\ case_store s3 = case_store s2.
Proof.
  intros Hm Hbody Hc Hflag Hl Hsr.
  eexists _, _. split.
  - unfold with_check. erewrite bind_Ok by exact Hm. unfold __enter__, ret.
    rewrite Hbody. erewrite __exit___unrecorded by eassumption. reflexivity.
  - split; [simpl; eapply lookup_insert_same; exact Hsr |].
    do 2 (split; [reflexivity |]).
    split; [intros l' Hne; simpl; apply list_lookup_insert_ne; congruence |].
    repeat split; reflexivity.
Qed.

Lemma example_check_opened :
  check "Area is clear" None (example_running None) = (Ok 0, example_checking None).
Proof. vm_compute. reflexivity. Qed.

Lemma unrecorded_check_passes_at_exit_witness :
  exists s3 sr3,
    with_check (check "Area is clear" None)
      (fun _ => raise (A := unit) (OtherException "interrupted"))
      (example_running None)
    = (Raise (OtherException "interrupted"), s3)
    /\ step_store s3 !! 0 = Some sr3
    /\ passed_checks sr3
       = [ {| pc_name := "Area is clear"; pc_participants := [];
              pc_requirements := ["req1"] |} ]
    /\ failed_checks sr3 = [].
Proof.
  destruct (unrecorded_check_passes_at_exit
              (check "Area is clear" None)
              (fun _ => raise (A := unit) (OtherException "interrupted"))
              (example_running None) (example_checking None) (example_checking None)
              0 (Raise (OtherException "interrupted"))
              (example_pending_check None) 0 example_step_report
              example_check_opened eq_refl
              (proj1 (example_checking_objects None)) eq_refl eq_refl
              (proj2 (example_checking_objects None)))
    as (s3 & sr3 & H1 & H2 & H3 & H4 & _).
  exists s3, sr3.
  split; [exact H1 |]. split; [exact H2 |]. split; [exact H3 | exact H4 ].
Defined.

(** C5, as the claim states it, fails: on the example's pending check, which
    already has the outcome of one [record_passed] call, a second
    [record_passed] call returns normally and the step report then holds two
    passed checks. *)
Lemma second_outcome_is_not_rejected :
  (exists c,
      check_store example_passed_once !! 0 = Some c /\ _outcome_recorded c = true)
  /\ map (fun sr => length (passed_checks sr)) (step_store example_passed_once) = [1]
  /\ fst (record_passed 0 None None example_passed_once) = Ok tt
  /\ map (fun sr => length (passed_checks sr))
       (step_store (snd (record_passed 0 None None example_passed_once)))
     = [2].
Proof.
  split; [eexists; split; vm_compute; reflexivity |].
  repeat split; vm_compute; reflexivity.
Qed.

(** C5, amended. The outcome calls do not look at the flag that records an
    earlier outcome: on a pending check that already has an outcome,
    whether or not it has a failure observer, [record_passed] returns
    normally and appends one more passed check to the bound step report,
    and [record_failed] appends one more failed check; then it calls the
    observer of the check, if there is one, on the state that holds the
    failed check, and an exception of the observer is the outcome of the
    call; otherwise the severity decides the outcome.  What the flag does is
    to keep [__exit__] from adding its passed check. *)
Theorem second_outcome_is_appended
    (run_callback : Callback -> FailedCheck -> M unit)
    (self : loc) (s : State) (c : PendingCheck) (l : loc) (sr : TestStepReport) :
  check_store s !! self = Some c ->
  _outcome_recorded c = true ->
  pc_step_report c = Some l ->
  step_store s !! l = Some sr ->
  (forall participants requirements,
      exists s' sr',
        record_passed self participants requirements s = (Ok tt, s')
        /\ step_store s' !! l = Some sr'
        /\ passed_checks sr'
           = passed_checks sr ++ [passed_check_of c participants requirements]
        /\ failed_checks sr' = failed_checks sr)
  /\ (forall summary severity details participants query_timestamps
             additional_data requirements now,
         exists failed_check s1 sr1,
           record_failed run_callback self summary severity details participants
             query_timestamps additional_data requirements now s
           = match _on_failed_check c with
             | None => (severity_signal severity summary, s1)
             | Some f =>
                 match run_callback f failed_check s1 with
                 | (Ok _, s2) => (severity_signal severity summary, s2)
                 | (Raise e, s2) => (Raise e, s2)
                 end
             end
           /\ step_store s1 !! l = Some sr1
           /\ failed_checks sr1 = failed_checks sr ++ [failed_check]
           /\ fc_name failed_check = check_name (_documentation c)
           /\ fc_summary failed_check = summary
           /\ fc_severity failed_check = severity
           /\ passed_checks sr1 = passed_checks sr
           /\ (forall l', l' <> l -> step_store s1 !! l' = step_store s !! l'))
  /\ __exit__ self s = (Ok tt, s).
Proof.
  intros Hc Hflag Hl Hsr. split; [| split ].
  - intros participants requirements. eexists _, _.
    split; [exact (record_passed_runs _ _ _ _ _ _ _ Hc Hl Hsr) |].
    split; [simpl; eapply lookup_insert_same; exact Hsr |].
    split; reflexivity.
  - intros summary severity details participants query_timestamps
      additional_data requirements now.
    pose proof (record_failed_runs run_callback self summary severity details
                  participants query_timestamps additional_data requirements now
                  s c l sr Hc Hl Hsr) as Hrun.
    cbv zeta in Hrun.
    eexists _, _, _. split; [exact Hrun |].
    split; [simpl; eapply lookup_insert_same; exact Hsr |].
    do 5 (split; [reflexivity |]).
    intros l' Hne. simpl. apply list_lookup_insert_ne. congruence.
  - now apply __exit___recorded with c.
Qed.

Lemma example_passed_once_objects :
  check_store example_passed_once !! 0
  = Some (check_with_outcome_recorded true (example_pending_check None))
  /\ step_store example_passed_once !! 0
     = Some (step_with_passed_checks
               [passed_check_of (example_pending_check None) None None]
               example_step_report).
Proof. split; vm_compute; reflexivity. Qed.

Lemma second_outcome_is_appended_witness :
  (exists s' sr',
      record_passed 0 None None example_passed_once = (Ok tt, s')
      /\ step_store s' !! 0 = Some sr'
      /\ length (passed_checks sr') = 2)
  /\ __exit__ 0 example_passed_once = (Ok tt, example_passed_once).
Proof.
  destruct (second_outcome_is_appended no_callbacks 0 example_passed_once
              (check_with_outcome_recorded true (example_pending_check None)) 0
              (step_with_passed_checks
                 [passed_check_of (example_pending_check None) None None]
                 example_step_report)
              (proj1 example_passed_once_objects) eq_refl eq_refl
              (proj2 example_passed_once_objects)) as (Hp & _ & Hexit).
  split; [| exact Hexit ].
  destruct (Hp None None) as (s' & sr' & H1 & H2 & H3 & _).
  exists s', sr'. split; [exact H1 |]. split; [exact H2 |].
  rewrite H3. reflexivity.
Defined.

(** ** The factory *)

Section FactoryProperties.
Context {Resource : Type}.
Variable import_submodules : Outcome unit.
Variable get_module_object_by_name : string -> Outcome (@PyClass Resource).

Lemma populate_missing declaration (resource_pool : list (ResourceID * Resource))
    parameters :
  (exists a, In a parameters /\ a <> "self" /\ PyDict.get a resource_pool = None) ->
  forall constructor_args,
  exists arg_name,
    In arg_name parameters /\ arg_name <> "self"
    /\ PyDict.get arg_name resource_pool = None
    /\ populate_constructor_args declaration resource_pool parameters constructor_args
       = Raise (ValueError
                  (missing_resource_message arg_name (scenario_type declaration)
                     (String.concat ", " (PyDict.keys resource_pool)))).
Proof.
  induction parameters as [| p parameters IH]; intros (a & Hin & Hself & Hget) acc.
  - destruct Hin.
  - simpl. destruct (String.eqb p "self") eqn:Ep.
    + apply String.eqb_eq in Ep. destruct Hin as [-> | Hin]; [contradiction |].
      destruct (IH (ex_intro _ a (conj Hin (conj Hself Hget))) acc)
        as (b & H1 & H2 & H3 & H4).
      exists b. auto.
    + apply String.eqb_neq in Ep.
      destruct (PyDict.get p resource_pool) as [r |] eqn:Hp.
      * destruct Hin as [-> | Hin]; [congruence |].
        destruct (IH (ex_intro _ a (conj Hin (conj Hself Hget)))
                    (PyDict.set p r acc)) as (b & H1 & H2 & H3 & H4).
        exists b. auto.
      * exists p. auto.
Qed.

Lemma populate_resolved declaration (resource_pool : list (ResourceID * Resource))
    parameters :
  forall constructor_args bound,
    populate_constructor_args declaration resource_pool parameters constructor_args
    = Ok bound ->
    forall a,
      (In a parameters /\ a <> "self" ->
       exists r, PyDict.get a resource_pool = Some r /\ PyDict.get a bound = Some r)
      /\ (~ (In a parameters /\ a <> "self") ->
          PyDict.get a bound = PyDict.get a constructor_args).
Proof.
  induction parameters as [| p parameters IH]; intros acc bound Hrun a; simpl in Hrun.
  - injection Hrun as <-. split; [intros [[] _] | reflexivity ].
  - destruct (String.eqb p "self") eqn:Ep.
    + apply String.eqb_eq in Ep. subst p.
      destruct (IH acc bound Hrun a) as [H1 H2]. split.
      * intros [[<- | Hin] Hne]; [contradiction | auto ].
      * intros Hnot. apply H2. intros [Hin Hne]. apply Hnot. simpl. auto.
    + apply String.eqb_neq in Ep.
      destruct (PyDict.get p resource_pool) as [r |] eqn:Hp; [| discriminate ].
      destruct (IH (PyDict.set p r acc) bound Hrun a) as [H1 H2]. split.
      * intros [[<- | Hin] Hne].
        -- destruct (in_dec string_dec p parameters) as [Hin' | Hnin].
           ++ apply H1. auto.
           ++ exists r. split; [exact Hp |]. rewrite H2 by tauto.
              rewrite PyDict_get_set, String.eqb_refl. reflexivity.
        -- apply H1. auto.
      * intros Hnot. rewrite H2.
        -- rewrite PyDict_get_set.
           destruct (String.eqb a p) eqn:Eap; [| reflexivity ].
           apply String.eqb_eq in Eap. subst a. exfalso. apply Hnot. simpl. auto.
        -- intros [Hin Hne]. apply Hnot. simpl. auto.
Qed.

End FactoryProperties.


(** ** Scenario discovery *)

(** *** The sort *)

Lemma sort_insert_perm {A} (key : A -> string) x l :
  Permutation (sort_insert key x l) (x :: l).
Proof.
  induction l as [| y l IH]; simpl.
  - reflexivity.
  - destruct (String.leb (key x) (key y)).
    + reflexivity.
    + rewrite IH. apply perm_swap.
Qed.

Lemma sort_by_key_perm {A} (key : A -> string) l :
  Permutation (sort_by_key key l) l.
Proof.
  induction l as [| x l IH]; simpl.
  - reflexivity.
  - rewrite sort_insert_perm. now apply perm_skip.
Qed.

Lemma leb_false_flip a b : String.leb a b = false -> String.leb b a = true.
Proof. intros H. destruct (String.leb_total a b) as [H' | H']; congruence. Qed.

Lemma sort_insert_sorted {A} (key : A -> string) x l :
  Sorted (fun a b => String.leb (key a) (key b) = true) l ->
  Sorted (fun a b => String.leb (key a) (key b) = true) (sort_insert key x l).
Proof.
  induction 1 as [| y l Hl IH Hhd]; simpl.
  - repeat constructor.
  - destruct (String.leb (key x) (key y)) eqn:E.
    + constructor; [constructor; assumption | constructor; exact E ].
    + constructor; [exact IH |].
      destruct l as [| z l]; simpl.
      * constructor. now apply leb_false_flip.
      * destruct (String.leb (key x) (key z)).
        -- constructor. now apply leb_false_flip.
        -- constructor. now inversion Hhd.
Qed.

Lemma sort_by_key_sorted {A} (key : A -> string) l :
  Sorted (fun a b => String.leb (key a) (key b) = true) (sort_by_key key l).
Proof.
  induction l as [| x l IH]; simpl.
  - constructor.
  - now apply sort_insert_sorted.
Qed.

(** *** The set of scenarios *)

Lemma set_add_NoDup c s : List.NoDup s -> List.NoDup (set_add c s).
Proof.
  intros H. unfold set_add. destruct (existsb (Nat.eqb c) s) eqn:E; [exact H |].
  apply (Permutation_NoDup (Permutation_cons_append s c)).
  constructor; [| exact H ].
  intros Hin. assert (existsb (Nat.eqb c) s = true); [| congruence ].
  apply existsb_exists. exists c. split; [exact Hin | apply Nat.eqb_refl ].
Qed.

Lemma fold_set_add_NoDup descendants s :
  List.NoDup s ->
  List.NoDup (fold_left (fun s descendant => set_add descendant s) descendants s).
Proof.
  revert s. induction descendants as [| d ds IH]; intros s H; simpl.
  - exact H.
  - apply IH. now apply set_add_NoDup.
Qed.

(** *** What discovery finds *)

Lemma set_add_In c x s : In x (set_add c s) <-> x = c \/ In x s.
Proof.
  unfold set_add. destruct (existsb (Nat.eqb c) s) eqn:E.
  - split; [auto |]. intros [-> | H]; [| exact H ].
    apply existsb_exists in E. destruct E as (y & Hy & Ey).
    apply Nat.eqb_eq in Ey. now subst.
  - rewrite in_app_iff. simpl. intuition.
Qed.

Lemma fold_set_add_In descendants x s :
  In x (fold_left (fun s descendant => set_add descendant s) descendants s)
  <-> In x descendants \/ In x s.
Proof.
  revert s. induction descendants as [| d ds IH]; intros s; simpl.
  - tauto.
  - rewrite IH, set_add_In. intuition.
Qed.

Section DiscoveryMembership.
Variable module_of : ModuleId -> PyModule.
Variable fullname : ClassId -> string.
Variable is_scenario_class : ClassId -> bool.
Variable TestScenario_class : ClassId.
Variable set_iteration : list ClassId -> list ClassId.
Variable root : ModuleId.
Hypothesis set_iteration_perm : forall l, Permutation (set_iteration l) l.

Abbreviation scan' := (scan_members module_of is_scenario_class TestScenario_class).
Abbreviation find_in' :=
  (find_test_scenarios_in module_of fullname is_scenario_class TestScenario_class
     set_iteration).
Abbreviation reach := (package_reachable module_of root).
Abbreviation kept := (is_test_scenario is_scenario_class TestScenario_class).
Abbreviation in_package m :=
  (String.prefix "monitoring.uss_qualifier.scenarios" (module_name (module_of m)) = true).

Lemma kept_iff c :
  negb (Nat.eqb c TestScenario_class) && is_scenario_class c = true <-> kept c.
Proof.
  unfold is_test_scenario. rewrite andb_true_iff, negb_true_iff, Nat.eqb_neq. tauto.
Qed.

Lemma sorted_iteration_In (found : list ClassId) c :
  In c (sort_by_key fullname (set_iteration found)) <-> In c found.
Proof.
  split; apply Permutation_in.
  - now rewrite sort_by_key_perm, set_iteration_perm.
  - now rewrite sort_by_key_perm, set_iteration_perm.
Qed.

(** *** Only scenario classes of reachable modules *)

Abbreviation found_ok :=
  (discoverable module_of is_scenario_class TestScenario_class root).

Lemma scan_members_sound recurse m0 :
  reach m0 ->
  (forall m checked r checked',
      reach m -> recurse m checked = Some (r, checked') -> Forall found_ok r) ->
  forall module_members test_scenarios already_checked found checked,
    (forall x, In x module_members -> In x (members (module_of m0))) ->
    Forall found_ok test_scenarios ->
    scan' recurse module_members test_scenarios already_checked = Some (found, checked) ->
    Forall found_ok found.
Proof.
  intros Hm0 Hrec.
  induction module_members as [| [name member] rest IH];
    intros acc checked0 found checked Hsub Hacc Hrun; simpl in Hrun.
  - now injection Hrun as <- _.
  - assert (Hrest : forall x, In x rest -> In x (members (module_of m0)))
      by (intros x Hx; apply Hsub; now right).
    destruct member as [m | c |].
    + destruct (bool_decide (module_name (module_of m) ∉ checked0)
                && String.prefix "monitoring.uss_qualifier.scenarios"
                     (module_name (module_of m))) eqn:Hcond.
      * apply andb_true_iff in Hcond. destruct Hcond as [_ Hprefix].
        destruct (recurse m checked0) as [[descendants checked1] |] eqn:Hcall;
          [| discriminate ].
        assert (Hm : reach m).
        { eapply reachable_member; [exact Hm0 | apply Hsub; now left | exact Hprefix ]. }
        pose proof (Hrec _ _ _ _ Hm Hcall) as Hdesc.
        eapply IH; [exact Hrest | | exact Hrun ].
        apply List.Forall_forall. intros x Hx. apply fold_set_add_In in Hx.
        destruct Hx as [Hx | Hx];
          [exact (proj1 (List.Forall_forall _ _) Hdesc x Hx)
          | exact (proj1 (List.Forall_forall _ _) Hacc x Hx) ].
      * eapply IH; eassumption.
    + destruct (negb (Nat.eqb c TestScenario_class) && is_scenario_class c) eqn:Hkept.
      * eapply IH; [exact Hrest | | exact Hrun ].
        apply List.Forall_forall. intros x Hx. apply set_add_In in Hx.
        destruct Hx as [-> | Hx]; [| exact (proj1 (List.Forall_forall _ _) Hacc x Hx) ].
        split; [now apply kept_iff |]. exists m0. split; [exact Hm0 |].
        exists name. apply Hsub. now left.
      * eapply IH; eassumption.
    + eapply IH; eassumption.
Qed.

Lemma find_in_sound fuel :
  forall m checked r checked',
    reach m -> find_in' fuel m checked = Some (r, checked') -> Forall found_ok r.
Proof.
  induction fuel as [| fuel IH]; intros m checked r checked' Hm Hrun;
    [discriminate Hrun |].
  simpl in Hrun.
  destruct (scan' (find_in' fuel) (members (module_of m)) []
              ({[module_name (module_of m)]} ∪ checked))
    as [[found checked1] |] eqn:E; [| discriminate ].
  injection Hrun as <- _.
  pose proof (scan_members_sound (find_in' fuel) m Hm IH _ _ _ _ _
                (fun x H => H) (List.Forall_nil _) E) as Hfound.
  apply List.Forall_forall. intros c Hc.
  apply (proj1 (sorted_iteration_In _ _)) in Hc.
  exact (proj1 (List.Forall_forall _ _) Hfound c Hc).
Qed.
(** *** Every scenario class of a reachable module *)

Hypothesis names_injective : modules_told_apart module_of root.

(** The classes of [m] are among [found] and its package members are among
    the checked modules. *)
Abbreviation covered m found checked :=
  ((forall c, class_member module_of m c -> kept c -> In c found)
   /\ (forall name m2, In (name, MModule m2) (members (module_of m)) ->
                       in_package m2 -> module_name (module_of m2) ∈ checked)).

Lemma covered_mono m (found found' : list ClassId) (checked checked' : gset string) :
  (forall c, In c found -> In c found') -> checked ⊆ checked' ->
  covered m found checked -> covered m found' checked'.
Proof.
  intros Hf Hc [H1 H2]. split.
  - intros c Hm Hk. apply Hf. now apply H1.
  - intros name m2 Hin Hp. apply Hc. now apply (H2 name).
Qed.

Lemma scan_members_complete recurse :
  (forall m checked r checked',
      reach m -> recurse m checked = Some (r, checked') ->
      checked ⊆ checked' /\ module_name (module_of m) ∈ checked'
      /\ forall m', reach m' -> module_name (module_of m') ∈ checked' ->
                    module_name (module_of m') ∉ checked -> covered m' r checked') ->
  forall module_members test_scenarios already_checked found checked,
    (forall name m, In (name, MModule m) module_members -> in_package m -> reach m) ->
    scan' recurse module_members test_scenarios already_checked = Some (found, checked) ->
    (forall c, In c test_scenarios -> In c found)
    /\ already_checked ⊆ checked
    /\ (forall name c, In (name, MClass c) module_members -> kept c -> In c found)
    /\ (forall name m, In (name, MModule m) module_members -> in_package m ->
                       module_name (module_of m) ∈ checked)
    /\ (forall m', reach m' -> module_name (module_of m') ∈ checked ->
                   module_name (module_of m') ∉ already_checked ->
                   covered m' found checked).
Proof.
  intros Hrec.
  induction module_members as [| [name member] rest IH];
    intros acc checked0 found checked Hreach Hrun; simpl in Hrun.
  - injection Hrun as <- <-.
    split; [tauto |]. split; [reflexivity |].
    split; [intros _ c [] |]. split; [intros _ m [] |].
    intros m' _ Hin Hnot. contradiction.
  - assert (Hrest : forall n m, In (n, MModule m) rest -> in_package m -> reach m)
      by (intros n m Hin; apply (Hreach n); now right).
    destruct member as [m | c |].
    + destruct (bool_decide (module_name (module_of m) ∉ checked0)) eqn:Hnew;
        simpl in Hrun.
      * destruct (String.prefix "monitoring.uss_qualifier.scenarios"
                    (module_name (module_of m))) eqn:Hprefix.
        -- (* the member is entered *)
           destruct (recurse m checked0) as [[descendants checked1] |] eqn:Hcall;
             [| discriminate ].
           assert (Hm : reach m) by (apply (Hreach name); [now left | exact Hprefix ]).
           destruct (Hrec _ _ _ _ Hm Hcall) as (Hsub1 & Hin1 & Hcov1).
           destruct (IH _ _ _ _ Hrest Hrun) as (Hacc & Hsub & Hcls & Hmods & Hcov).
           assert (Hdesc : forall c, In c descendants -> In c found).
           { intros c Hc. apply Hacc, fold_set_add_In. now left. }
           split; [intros c Hc; apply Hacc, fold_set_add_In; now right |].
           split; [intros x Hx; now apply Hsub, Hsub1 |].
           split; [intros n c [H | H]; [discriminate H | now apply (Hcls n) ] |].
           split.
           { intros n m2 [H | H] Hp; [| now apply (Hmods n) ].
             injection H as _ <-. now apply Hsub. }
           intros m' Hm' Hin Hnot.
           destruct (decide (module_name (module_of m') ∈ checked1)) as [Hin' | Hnot'].
           ++ apply (covered_mono m' descendants found checked1 checked Hdesc Hsub).
              now apply Hcov1.
           ++ now apply Hcov.
        -- (* outside the package *)
           destruct (IH _ _ _ _ Hrest Hrun) as (Hacc & Hsub & Hcls & Hmods & Hcov).
           split; [exact Hacc |]. split; [exact Hsub |].
           split; [intros n c [H | H]; [discriminate H | now apply (Hcls n) ] |].
           split; [| exact Hcov ].
           intros n m2 [H | H] Hp; [| now apply (Hmods n) ].
           injection H as _ <-. congruence.
      * (* checked before *)
        apply bool_decide_eq_false in Hnew.
        assert (Hold : module_name (module_of m) ∈ checked0).
        { destruct (decide (module_name (module_of m) ∈ checked0)); tauto. }
        destruct (IH _ _ _ _ Hrest Hrun) as (Hacc & Hsub & Hcls & Hmods & Hcov).
        split; [exact Hacc |]. split; [exact Hsub |].
        split; [intros n c [H | H]; [discriminate H | now apply (Hcls n) ] |].
        split; [| exact Hcov ].
        intros n m2 [H | H] Hp; [| now apply (Hmods n) ].
        injection H as _ <-. now apply Hsub.
    + destruct (negb (Nat.eqb c TestScenario_class) && is_scenario_class c) eqn:Hkept.
      * destruct (IH _ _ _ _ Hrest Hrun) as (Hacc & Hsub & Hcls & Hmods & Hcov).
        split; [intros x Hx; apply Hacc, set_add_In; now right |].
        split; [exact Hsub |].
        split.
        { intros n x [H | H] Hk; [| now apply (Hcls n) ].
          injection H as _ <-. apply Hacc, set_add_In. now left. }
        split; [| exact Hcov ].
        intros n m2 [H | H] Hp; [discriminate H | now apply (Hmods n) ].
      * destruct (IH _ _ _ _ Hrest Hrun) as (Hacc & Hsub & Hcls & Hmods & Hcov).
        split; [exact Hacc |]. split; [exact Hsub |].
        split.
        { intros n x [H | H] Hk; [| now apply (Hcls n) ].
          injection H as _ <-. apply kept_iff in Hk. congruence. }
        split; [| exact Hcov ].
        intros n m2 [H | H] Hp; [discriminate H | now apply (Hmods n) ].
    + destruct (IH _ _ _ _ Hrest Hrun) as (Hacc & Hsub & Hcls & Hmods & Hcov).
      split; [exact Hacc |]. split; [exact Hsub |].
      split; [intros n c [H | H]; [discriminate H | now apply (Hcls n) ] |].
      split; [| exact Hcov ].
      intros n m2 [H | H] Hp; [discriminate H | now apply (Hmods n) ].
Qed.

Lemma find_in_complete fuel :
  forall m checked r checked',
    reach m -> find_in' fuel m checked = Some (r, checked') ->
    checked ⊆ checked' /\ module_name (module_of m) ∈ checked'
    /\ forall m', reach m' -> module_name (module_of m') ∈ checked' ->
                  module_name (module_of m') ∉ checked -> covered m' r checked'.
Proof.
  induction fuel as [| fuel IH]; intros m checked r checked' Hm Hrun;
    [discriminate Hrun |].
  simpl in Hrun.
  destruct (scan' (find_in' fuel) (members (module_of m)) []
              ({[module_name (module_of m)]} ∪ checked))
    as [[found checked1] |] eqn:E; [| discriminate ].
  injection Hrun as <- <-.
  destruct (scan_members_complete (find_in' fuel) IH _ _ _ _ _
              (fun name m2 Hin Hp => reachable_member _ _ m name m2 Hm Hin Hp) E)
    as (_ & Hsub & Hcls & Hmods & Hcov).
  split; [intros x Hx; apply Hsub, elem_of_union; now right |].
  split; [apply Hsub, elem_of_union; left; now apply elem_of_singleton |].
  intros m' Hm' Hin Hnot.
  apply (covered_mono m' found _ checked1 checked1);
    [intros c Hc; now apply sorted_iteration_In | reflexivity |].
  destruct (decide (module_name (module_of m') = module_name (module_of m))) as [E' | N].
  - apply (names_injective _ _ Hm' Hm) in E'. subst m'. split.
    + intros c [name Hc] Hk. now apply (Hcls name).
    + exact Hmods.
  - apply Hcov; [exact Hm' | exact Hin |].
    intros [H | H]%elem_of_union; [apply elem_of_singleton in H |]; tauto.
Qed.

Lemma find_in_exact fuel r checked :
  find_in' fuel root ∅ = Some (r, checked) ->
  forall c, In c r <-> found_ok c.
Proof.
  intros E c. split.
  - intros Hc.
    exact (proj1 (List.Forall_forall _ _)
             (find_in_sound fuel root ∅ r checked (reachable_root _ _) E) c Hc).
  - intros (Hk & m & Hm & Hmem).
    destruct (find_in_complete fuel root ∅ r checked (reachable_root _ _) E)
      as (_ & Hroot & Hcov).
    assert (Hall : forall m, reach m -> module_name (module_of m) ∈ checked).
    { clear m Hm Hmem. intros m Hm. induction Hm as [| m name m' Hm IH Hin Hp].
      - exact Hroot.
      - destruct (Hcov m) as [_ H]; [exact Hm | exact IH | apply not_elem_of_empty |].
        now apply (H name). }
    destruct (Hcov m Hm (Hall m Hm)) as [H _]; [apply not_elem_of_empty |].
    now apply H.
Qed.
End DiscoveryMembership.

(** *** The order of the full names *)

Lemma string_compare_as_OT a b : String.compare a b = String_as_OT.compare a b.
Proof.
  revert b. induction a as [| x a IH]; intros [| y b]; simpl; reflexivity.
Qed.

Lemma string_lt_irrefl a : ~ String_as_OT.lt a a.
Proof. exact (@StrictOrder_Irreflexive _ _ String_as_OT.lt_strorder a). Qed.

Lemma string_lt_trans a b c :
  String_as_OT.lt a b -> String_as_OT.lt b c -> String_as_OT.lt a c.
Proof. exact (@StrictOrder_Transitive _ _ String_as_OT.lt_strorder a b c). Qed.

Lemma string_leb_lt a b : String.leb a b = true <-> a = b \/ String_as_OT.lt a b.
Proof.
  unfold String.leb. rewrite string_compare_as_OT.
  destruct (String_as_OT.compare_spec a b) as [E | L | G].
  - split; [intros _; now left | reflexivity ].
  - split; [intros _; now right | reflexivity ].
  - split; [discriminate |]. intros [E | L]; exfalso.
    + rewrite E in G. exact (string_lt_irrefl b G).
    + exact (string_lt_irrefl a (string_lt_trans a b a L G)).
Qed.

Lemma string_leb_trans a b c :
  String.leb a b = true -> String.leb b c = true -> String.leb a c = true.
Proof.
  intros H1 H2. apply string_leb_lt. apply string_leb_lt in H1, H2.
  destruct H1 as [E1 | L1]; [rewrite E1; exact H2 |].
  destruct H2 as [E2 | L2]; [rewrite <- E2; now right |].
  right. exact (string_lt_trans a b c L1 L2).
Qed.

(** A sorted list begins with a least element. *)
Lemma sorted_head_least {A} (key : A -> string) (x : A) (l : list A) :
  Sorted (fun a b => String.leb (key a) (key b) = true) (x :: l) ->
  forall y, In y (x :: l) -> String.leb (key x) (key y) = true.
Proof.
  intros Hs. apply Sorted_StronglySorted in Hs.
  - inversion Hs as [| ? ? _ Hall]; subst. intros y [<- | Hy].
    + destruct (String.leb_total (key x) (key x)); assumption.
    + exact (proj1 (List.Forall_forall _ _) Hall y Hy).
  - intros a b c. apply string_leb_trans.
Qed.

(** Two sorted lists without duplicates that have the same elements, with
    keys that tell the elements apart, are equal. *)
Lemma sorted_unique {A} (key : A -> string) (l1 : list A) :
  forall l2,
    Sorted (fun a b => String.leb (key a) (key b) = true) l1 ->
    Sorted (fun a b => String.leb (key a) (key b) = true) l2 ->
    List.NoDup l1 -> List.NoDup l2 ->
    (forall x, In x l1 <-> In x l2) ->
    (forall x y, In x l1 -> In y l1 -> key x = key y -> x = y) ->
    l1 = l2.
Proof.
  induction l1 as [| x l1 IH]; intros [| y l2] Hs1 Hs2 Hn1 Hn2 Hsame Hkey.
  - reflexivity.
  - exfalso. apply (proj2 (Hsame y)). now left.
  - exfalso. apply (proj1 (Hsame x)). now left.
  - assert (E : x = y).
    { apply Hkey; [now left | apply Hsame; now left |].
      apply String.leb_antisym.
      - apply (sorted_head_least key x l1 Hs1). apply Hsame. now left.
      - apply (sorted_head_least key y l2 Hs2). apply Hsame. now left. }
    subst y. f_equal.
    apply List.NoDup_cons_iff in Hn1. destruct Hn1 as [Hx1 Hn1].
    apply List.NoDup_cons_iff in Hn2. destruct Hn2 as [Hx2 Hn2].
    apply IH.
    + now inversion Hs1.
    + now inversion Hs2.
    + exact Hn1.
    + exact Hn2.
    + intros z. split; intros Hz.
      * destruct (proj1 (Hsame z) (or_intror Hz)) as [-> | H]; [contradiction | exact H ].
      * destruct (proj2 (Hsame z) (or_intror Hz)) as [-> | H]; [contradiction | exact H ].
    + intros a b Ha Hb. apply Hkey; now right.
Qed.

Section DiscoveryProperties.
Variable module_of : ModuleId -> PyModule.
Variable fullname : ClassId -> string.
Variable is_scenario_class : ClassId -> bool.
Variable TestScenario_class : ClassId.
Variable set_iteration : list ClassId -> list ClassId.

Abbreviation scan := (scan_members module_of is_scenario_class TestScenario_class).
Abbreviation find_in :=
  (find_test_scenarios_in module_of fullname is_scenario_class TestScenario_class
     set_iteration).

Lemma scan_members_NoDup recurse module_members :
  forall test_scenarios already_checked found checked,
    List.NoDup test_scenarios ->
    scan recurse module_members test_scenarios already_checked = Some (found, checked) ->
    List.NoDup found.
Proof.
  induction module_members as [| [name member] rest IH];
    intros acc checked0 found checked Hacc Hrun; simpl in Hrun.
  - injection Hrun as <- _. exact Hacc.
  - destruct member as [m | c |].
    + destruct (bool_decide (module_name (module_of m) ∉ checked0)
                && String.prefix "monitoring.uss_qualifier.scenarios"
                     (module_name (module_of m))).
      * destruct (recurse m checked0) as [[descendants checked1] |]; [| discriminate ].
        eapply IH; [| exact Hrun ]. now apply fold_set_add_NoDup.
      * eapply IH; eassumption.
    + destruct (negb (Nat.eqb c TestScenario_class) && is_scenario_class c).
      * eapply IH; [| exact Hrun ]. now apply set_add_NoDup.
      * eapply IH; eassumption.
    + eapply IH; eassumption.
Qed.

(** *** More fuel changes nothing *)

Lemma scan_members_mono recurse1 recurse2 module_members :
  (forall m checked r, recurse1 m checked = Some r -> recurse2 m checked = Some r) ->
  forall test_scenarios already_checked r,
    scan recurse1 module_members test_scenarios already_checked = Some r ->
    scan recurse2 module_members test_scenarios already_checked = Some r.
Proof.
  intros Hrec. induction module_members as [| [name member] rest IH];
    intros acc checked0 r Hrun; simpl in *.
  - exact Hrun.
  - destruct member as [m | c |]; [| now destruct (_ && _); apply IH | now apply IH ].
    destruct (_ && _); [| now apply IH ].
    destruct (recurse1 m checked0) as [[descendants checked1] |] eqn:E;
      [| discriminate ].
    rewrite (Hrec _ _ _ E). now apply IH.
Qed.

Lemma find_in_more_fuel fuel :
  forall module already_checked r,
    find_in fuel module already_checked = Some r ->
    find_in (S fuel) module already_checked = Some r.
Proof.
  induction fuel as [| fuel IH]; intros module checked r Hrun.
  - discriminate Hrun.
  - simpl in Hrun.
    destruct (scan (find_in fuel) (members (module_of module)) []
                ({[module_name (module_of module)]} ∪ checked))
      as [[found checked1] |] eqn:E; [| discriminate ].
    change (find_in (S (S fuel)) module checked)
      with (match scan (find_in (S fuel)) (members (module_of module)) []
                    ({[module_name (module_of module)]} ∪ checked) with
            | None => None
            | Some (test_scenarios, already_checked) =>
                Some (sort_by_key fullname (set_iteration test_scenarios),
                      already_checked)
            end).
    rewrite (scan_members_mono _ _ _ IH _ _ _ E). exact Hrun.
Qed.

Lemma find_in_fuel_le fuel fuel' module already_checked r :
  fuel <= fuel' ->
  find_in fuel module already_checked = Some r ->
  find_in fuel' module already_checked = Some r.
Proof.
  induction 1 as [| fuel' _ IH]; intros Hrun.
  - exact Hrun.
  - now apply find_in_more_fuel, IH.
Qed.
(** *** Enough fuel gives a result *)

Section Termination.
Variable universe : gset string.
Hypothesis names_in_universe : forall m, module_name (module_of m) ∈ universe.

Lemma unchecked_shrinks (n : string) (checked : gset string) :
  n ∈ universe -> n ∉ checked ->
  size (universe ∖ ({[n]} ∪ checked)) < size (universe ∖ checked).
Proof.
  intros Hin Hnot. apply subset_size. split.
  - intros x. rewrite !elem_of_difference, elem_of_union. tauto.
  - intros Hsub. specialize (Hsub n).
    rewrite !elem_of_difference, elem_of_union, elem_of_singleton in Hsub. tauto.
Qed.

Lemma unchecked_antitone (checked checked' : gset string) :
  checked ⊆ checked' -> size (universe ∖ checked') <= size (universe ∖ checked).
Proof.
  intros Hsub. apply subseteq_size. intros x.
  rewrite !elem_of_difference. specialize (Hsub x). tauto.
Qed.

Lemma scan_members_total recurse bound module_members :
  (forall m checked,
      module_name (module_of m) ∉ checked ->
      size (universe ∖ checked) <= bound ->
      exists r checked', recurse m checked = Some (r, checked') /\ checked ⊆ checked') ->
  forall test_scenarios already_checked,
    size (universe ∖ already_checked) <= bound ->
    exists found checked,
      scan recurse module_members test_scenarios already_checked = Some (found, checked)
      /\ already_checked ⊆ checked.
Proof.
  intros Hrec. induction module_members as [| [name member] rest IH];
    intros acc checked0 Hbound; simpl.
  - exists acc, checked0. split; [reflexivity | set_solver ].
  - destruct member as [m | c |]; [| destruct (_ && _); now apply IH | now apply IH ].
    destruct (bool_decide (module_name (module_of m) ∉ checked0)) eqn:Hdec; simpl;
      [| now apply IH ].
    destruct (String.prefix _ _); [| now apply IH ].
    apply bool_decide_eq_true in Hdec.
    destruct (Hrec m checked0 Hdec Hbound) as (r & checked1 & -> & Hsub).
    destruct (IH (fold_left (fun s d => set_add d s) r acc) checked1)
      as (found & checked & Hrun & Hsub').
    + pose proof (unchecked_antitone _ _ Hsub). lia.
    + exists found, checked. split; [exact Hrun | set_solver ].
Qed.

Lemma find_in_total fuel :
  forall module already_checked,
    module_name (module_of module) ∉ already_checked ->
    size (universe ∖ already_checked) <= fuel ->
    exists r checked,
      find_in fuel module already_checked = Some (r, checked)
      /\ already_checked ⊆ checked.
Proof.
  induction fuel as [| fuel IH]; intros module checked0 Hnot Hsize.
  - pose proof (unchecked_shrinks _ _ (names_in_universe module) Hnot). lia.
  - simpl.
    destruct (scan_members_total (find_in fuel) fuel (members (module_of module)) IH []
                ({[module_name (module_of module)]} ∪ checked0))
      as (found & checked & -> & Hsub).
    + pose proof (unchecked_shrinks _ _ (names_in_universe module) Hnot). lia.
    + eexists _, _. split; [reflexivity | set_solver ].
Qed.
End Termination.
Lemma find_in_result fuel module already_checked result checked :
  (forall l, Permutation (set_iteration l) l) ->
  find_in fuel module already_checked = Some (result, checked) ->
  List.NoDup result
  /\ Sorted (fun a b => String.leb (fullname a) (fullname b) = true) result.
Proof.
  intros Hperm Hrun. destruct fuel as [| fuel]; [discriminate Hrun |].
  simpl in Hrun.
  destruct (scan (find_in fuel) (members (module_of module)) []
              ({[module_name (module_of module)]} ∪ already_checked))
    as [[found checked1] |] eqn:E; [| discriminate ].
  injection Hrun as <- _. split.
  - apply (Permutation_NoDup (l := found)).
    + now rewrite sort_by_key_perm, Hperm.
    + eapply scan_members_NoDup; [| exact E ]. constructor.
  - apply sort_by_key_sorted.
Qed.

End DiscoveryProperties.

Section Determinism.
Variable module_of : ModuleId -> PyModule.
Variable fullname : ClassId -> string.
Variable is_scenario_class : ClassId -> bool.
Variable TestScenario_class : ClassId.
Variable set_iteration : list ClassId -> list ClassId.

(** C9. With the module names of the interpreter in a finite set, an
    invocation of [find_test_scenarios] on a root module returns a result
    as soon as its fuel covers that set; two invocations on the same
    namespace return the same sequence, in the same order, whatever fuel
    each was given; the sequence has no class twice, is sorted by
    [fullname] and holds scenario classes of the modules that discovery can
    get to only.  When the names of these modules tell them apart, it holds
    every such class, also one that several modules export and whatever the
    cycles of imports are; and when, moreover, the full names tell these
    classes apart, the sequence is the same whatever the order in which
    the sets are walked. *)
Theorem discovery_is_deterministic
    (universe : gset string) (root : ModuleId) (fuel fuel' : nat) :
  (forall m, module_name (module_of m) ∈ universe) ->
  (forall l, Permutation (set_iteration l) l) ->
  size universe <= fuel ->
  size universe <= fuel' ->
  exists result,
    find_test_scenarios module_of fullname is_scenario_class TestScenario_class
      set_iteration fuel root None = Some result
    /\ find_test_scenarios module_of fullname is_scenario_class TestScenario_class
         set_iteration fuel' root None = Some result
    /\ List.NoDup result
    /\ Sorted (fun a b => String.leb (fullname a) (fullname b) = true) result
    /\ (forall c,
           In c result ->
           discoverable module_of is_scenario_class TestScenario_class root c)
    /\ (modules_told_apart module_of root ->
        (forall c,
            discoverable module_of is_scenario_class TestScenario_class root c ->
            In c result)
        /\ (classes_told_apart module_of fullname is_scenario_class
              TestScenario_class root ->
            forall set_iteration' : list ClassId -> list ClassId,
              (forall l, Permutation (set_iteration' l) l) ->
              find_test_scenarios module_of fullname is_scenario_class
                TestScenario_class set_iteration' fuel root None
              = Some result)).
Proof.
  intros Hnames Hperm Hfuel Hfuel'.
  assert (Hruns : forall walk : list ClassId -> list ClassId,
             exists result checked,
               find_test_scenarios_in module_of fullname is_scenario_class
                 TestScenario_class walk (size universe) root ∅
               = Some (result, checked)).
  { intros walk.
    destruct (find_in_total module_of fullname is_scenario_class TestScenario_class
                walk universe Hnames (size universe) root ∅)
      as (result & checked & Hrun & _).
    - apply not_elem_of_empty.
    - apply subseteq_size. intros x. rewrite elem_of_difference. tauto.
    - now exists result, checked. }
  destruct (Hruns set_iteration) as (result & checked & Hrun).
  exists result. unfold find_test_scenarios.
  rewrite (find_in_fuel_le _ _ _ _ _ _ _ _ _ _ Hfuel Hrun).
  rewrite (find_in_fuel_le _ _ _ _ _ _ _ _ _ _ Hfuel' Hrun).
  destruct (find_in_result _ _ _ _ _ _ _ _ _ _ Hperm Hrun) as [Hnodup Hsorted].
  split; [reflexivity |]. split; [reflexivity |].
  split; [exact Hnodup |]. split; [exact Hsorted |].
  split.
  { intros c.
    exact (proj1 (List.Forall_forall _ _)
             (find_in_sound module_of fullname is_scenario_class TestScenario_class
                set_iteration root Hperm _ root ∅ result checked
                (reachable_root _ _) Hrun) c). }
  intros Hmodules.
  pose proof (find_in_exact module_of fullname is_scenario_class TestScenario_class
                set_iteration root Hperm Hmodules _ result checked Hrun) as Hexact.
  split; [intros c; apply Hexact |].
  intros Hclasses set_iteration' Hperm'.
  destruct (Hruns set_iteration') as (result' & checked' & Hrun').
  rewrite (find_in_fuel_le _ _ _ _ _ _ _ _ _ _ Hfuel Hrun'). simpl.
  f_equal.
  destruct (find_in_result _ _ _ _ _ _ _ _ _ _ Hperm' Hrun') as [Hnodup' Hsorted'].
  pose proof (find_in_exact module_of fullname is_scenario_class
                TestScenario_class set_iteration' root Hperm' Hmodules _ result'
                checked' Hrun') as Hexact'.
  apply (sorted_unique fullname); try assumption.
  - intros c. now rewrite Hexact, Hexact'.
  - intros c c' Hc Hc'. apply Hclasses; now apply Hexact'.
Qed.
End Determinism.

Lemma example_names_in_universe m :
  module_name (example_module_of m) ∈ (list_to_set example_universe : gset string).
Proof.
  apply elem_of_list_to_set. unfold example_universe.
  destruct m as [| [| [| [| [| m]]]]]; simpl; set_solver.
Qed.

Lemma example_universe_size :
  size (list_to_set example_universe : gset string) <= 5.
Proof.
  rewrite size_list_to_set; [reflexivity |].
  apply (bool_decide_unpack _). vm_compute. exact I.
Qed.

Lemma example_reachable_modules m :
  package_reachable example_module_of 0 m -> m < 4.
Proof.
  intros H. induction H as [| m name m' _ _ Hin Hp]; [lia |].
  destruct m as [| [| [| [| m]]]]; simpl in Hin;
    repeat (destruct Hin as [Hin | Hin]; [injection Hin as _ <- + discriminate Hin |]);
    try lia; try contradiction; try discriminate Hin.
  all: vm_compute in Hp; discriminate Hp.
Qed.

Lemma example_names_injective m m' :
  package_reachable example_module_of 0 m ->
  package_reachable example_module_of 0 m' ->
  module_name (example_module_of m) = module_name (example_module_of m') -> m = m'.
Proof.
  intros Hm Hm'. apply example_reachable_modules in Hm, Hm'.
  destruct m as [| [| [| [| m]]]]; [| | | | lia];
    (destruct m' as [| [| [| [| m']]]]; [| | | | lia]);
    intros H; try reflexivity; vm_compute in H; discriminate H.
Qed.

Lemma discovery_is_deterministic_witness :
  exists result,
    find_test_scenarios example_module_of example_fullname example_is_scenario_class
      10 (@rev ClassId) 5 0 None = Some result
    /\ find_test_scenarios example_module_of example_fullname example_is_scenario_class
         10 (@rev ClassId) 8 0 None = Some result
    /\ find_test_scenarios example_module_of example_fullname example_is_scenario_class
         10 (fun l => l) 5 0 None = Some result
    /\ List.NoDup result
    /\ Sorted (fun a b => String.leb (example_fullname a) (example_fullname b) = true)
         result
    /\ (forall c,
           In c result
           <-> discoverable example_module_of example_is_scenario_class 10 0 c).
Proof.
  destruct (discovery_is_deterministic example_module_of example_fullname
              example_is_scenario_class 10 (@rev ClassId)
              (list_to_set example_universe) 0 5 8)
    as (result & H1 & H2 & H3 & H4 & H5 & H6).
  - exact example_names_in_universe.
  - intros l. symmetry. apply Permutation_rev.
  - exact example_universe_size.
  - etransitivity; [exact example_universe_size | lia ].
  - destruct (H6 example_names_injective) as [H7 H8].
    exists result. split; [exact H1 |]. split; [exact H2 |].
    split; [| split; [exact H3 | split; [exact H4 |] ] ].
    + apply H8; [| intros l; reflexivity ].
      intros c c' Hc Hc'. apply H7 in Hc, Hc'.
      assert (E : result = [11; 12]).
      { pose proof H1 as E. vm_compute in E. now injection E as <-. }
      rewrite E in Hc, Hc'. simpl in Hc, Hc'.
      destruct Hc as [<- | [<- | []]], Hc' as [<- | [<- | []]];
        intros H; try reflexivity; vm_compute in H; discriminate H.
    + intros c. split; [apply H5 | apply H7 ].
Defined.

(** The example, run: the class that two modules export comes once, the base
    class and the classes that are no scenarios do not come, and the order
    is the one of the full names. *)
Lemma example_discovery :
  find_test_scenarios example_module_of example_fullname example_is_scenario_class
    10 (@rev ClassId) 5 0 None = Some [11; 12].
Proof. vm_compute. reflexivity. Qed.

(** ** Reachable states are well formed *)

Lemma Forall_lt_mono (l : list nat) (n m : nat) :
  Forall (fun x => x < n) l -> n <= m -> Forall (fun x => x < m) l.
Proof. intros H Hle. revert H. apply List.Forall_impl. intros x Hx. lia. Qed.

Lemma case_steps_mono (h : list TestCaseReport) (n m : nat) :
  Forall (fun cr => Forall (fun sl => sl < n) (cr_steps cr)) h ->
  n <= m ->
  Forall (fun cr => Forall (fun sl => sl < m) (cr_steps cr)) h.
Proof.
  intros H Hle. revert H. apply List.Forall_impl. intros cr H.
  now apply Forall_lt_mono with n.
Qed.

Lemma checks_mono (h : list PendingCheck) (n m : nat) :
  Forall (fun c => exists l, pc_step_report c = Some l /\ l < n) h ->
  n <= m ->
  Forall (fun c => exists l, pc_step_report c = Some l /\ l < m) h.
Proof.
  intros H Hle. revert H. apply List.Forall_impl. intros c (l & H1 & H2).
  exists l. split; [exact H1 | lia].
Qed.

Lemma initial_well_formed s : initial s -> well_formed s.
Proof.
  intros (Hp & Hr & Hcc & Hcr & Hcs & Hsr & Hc & Hs & Hk).
  constructor; rewrite ?Hp, ?Hr, ?Hc, ?Hs, ?Hk; simpl; try discriminate;
    try (constructor; fail); try (intros [? ?]; discriminate);
    intuition discriminate.
Qed.

(** The proof of each operation starts with the phase expectation: either
    it fails, and the state is the old one, or the phase is one of the
    expected ones. *)
Ltac expect_phase Hwf Hp :=
  match goal with
  | |- context [bind (_expect_phase ?c ?ps) ?k ?s] =>
      destruct (phase_in (_phase s) ps) eqn:Hp;
      [ rewrite (bind_Ok _ k _ _ _ (_expect_phase_Ok c ps s Hp));
        apply phase_in_In in Hp
      | rewrite (bind_Raise _ k _ _ _ (_expect_phase_Raise c ps s Hp));
        exact Hwf ]
  end.

(** The closing steps shared by the proofs below. *)
Ltac wf_fields :=
  constructor; simpl; intros; simplify_eq/=;
  try (exfalso; intuition discriminate);
  eauto;
  try (match goal with
       | H : _ -> is_Some (_scenario_report ?s) |- is_Some (_scenario_report ?s) =>
           apply H; simpl in *; intuition
       end);
  try (match goal with
       | Hc : forall r l, _ -> _ -> l < _,
         H1 : _scenario_report _ = Some _, H2 : r_cleanup _ = Some _ |- _ =>
           pose proof (Hc _ _ H1 H2); rewrite ?length_app, ?length_insert; simpl; lia
       end);
  try (rewrite ?length_app, ?length_insert; simpl;
       first [ apply Forall_app; split
             | idtac ];
       eauto using Forall_lt_mono, case_steps_mono, checks_mono, Forall_insert
         with lia).

Lemma wf_begin_test_scenario now s :
  well_formed s -> well_formed (snd (begin_test_scenario now s)).
Proof.
  intros Hwf. unfold begin_test_scenario. expect_phase Hwf Hp.
  unfold _make_scenario_report. cbv beta iota delta [bind get].
  destruct (documentation s) as [doc |] eqn:Hdoc; [| exact Hwf ].
  destruct (declaration s) as [decl |] eqn:Hdecl; [| exact Hwf ].
  simpl. destruct Hwf. wf_fields.
Qed.

Lemma wf_go_to_cleanup s : well_formed s -> well_formed (snd (go_to_cleanup s)).
Proof.
  intros Hwf. unfold go_to_cleanup. expect_phase Hwf Hp.
  destruct Hwf. wf_fields.
Qed.

Lemma wf_skip_cleanup s : well_formed s -> well_formed (snd (skip_cleanup s)).
Proof.
  intros Hwf. unfold skip_cleanup. expect_phase Hwf Hp.
  rewrite bind_get.
  destruct (documentation s) as [doc |] eqn:Hdoc; [| exact Hwf ].
  cbn [attr_of]. rewrite bind_ret.
  destruct (cleanup doc) as [[d |] |]; [exact Hwf | |];
    destruct Hwf; wf_fields.
Qed.

Lemma wf_end_test_scenario now s :
  well_formed s -> well_formed (snd (end_test_scenario now s)).
Proof.
  intros Hwf. unfold end_test_scenario. expect_phase Hwf Hp.
  destruct (wf_report s Hwf) as [r Hr]; [simpl in *; intuition |].
  cbv beta iota delta [bind modify update_scenario_report get ret attr_of].
  rewrite Hr. simpl. destruct Hwf. wf_fields.
Qed.

Lemma list_comprehension_names_state (h : list TestCaseReport) (ls : list loc) s :
  snd (list_comprehension ls (fun l => cr <- deref h l ;; ret (cr_name cr)) s) = s.
Proof.
  induction ls as [| l ls IH]; simpl; [reflexivity |].
  unfold bind at 1. unfold bind at 1. unfold deref at 1.
  destruct (h !! l) as [cr |]; simpl; [| reflexivity ].
  unfold bind.
  destruct (list_comprehension ls _ s) as [[names | e] s'] eqn:E;
    simpl in *; congruence.
Qed.

Lemma wf_begin_test_case name now s :
  well_formed s -> well_formed (snd (begin_test_case name now s)).
Proof.
  intros Hwf. unfold begin_test_case. expect_phase Hwf Hp.
  rewrite bind_get.
  destruct (documentation s) as [doc |] eqn:Hdoc; [| exact Hwf ].
  cbn [attr_of]. rewrite bind_ret.
  destruct (PyDict.get name _) as [c |]; [| exact Hwf ].
  destruct (wf_report s Hwf) as [r Hr]; [simpl in *; intuition |].
  rewrite Hr. cbn [attr_of]. rewrite bind_ret.
  pose proof (list_comprehension_names_state (case_store s) (r_cases r) s) as Hs.
  unfold bind at 1.
  destruct (list_comprehension (r_cases r) _ s) as [[ran | e] s'] eqn:E;
    simpl in Hs; subst s'; [| exact Hwf ].
  destruct (existsb (String.eqb name) ran); [exact Hwf |].
  cbv beta iota delta [bind modify new_case_report update_scenario_report get ret
                         attr_of].
  simpl. rewrite Hr. simpl. destruct Hwf. wf_fields.
Qed.

Lemma wf_begin_test_step name now s :
  well_formed s -> well_formed (snd (begin_test_step name now s)).
Proof.
  intros Hwf. unfold begin_test_step. expect_phase Hwf Hp.
  rewrite bind_get.
  destruct (wf_current_case s Hwf) as ([cc Hcc] & cl & Hcl & Hlt);
    [simpl in *; intuition |].
  rewrite Hcc. cbn [attr_of]. rewrite bind_ret.
  destruct (PyDict.get name _) as [d |]; [| exact Hwf ].
  destruct (lookup_lt_is_Some_2 _ _ Hlt) as [cr Hcr].
  cbv beta iota delta [bind modify new_step_report update_case_report get ret
                         attr_of deref].
  simpl. rewrite Hcl. simpl. rewrite Hcr. simpl.
  destruct Hwf. wf_fields.
  apply Forall_insert; [eapply case_steps_mono; [eassumption | lia] |].
  simpl. apply Forall_app. split.
  - eapply Forall_lt_mono;
      [exact (proj1 (Forall_lookup _ _) wf_case_steps0 _ _ Hcr) | lia ].
  - repeat constructor. lia.
Qed.

Lemma case_steps_insert (h : list TestCaseReport) (n : nat) l cr f :
  Forall (fun cr => Forall (fun sl => sl < n) (cr_steps cr)) h ->
  h !! l = Some cr ->
  cr_steps (f cr) = cr_steps cr ->
  Forall (fun cr => Forall (fun sl => sl < n) (cr_steps cr)) (<[l := f cr]> h).
Proof.
  intros H Hl Hf. apply Forall_insert; [exact H |]. rewrite Hf.
  exact (proj1 (Forall_lookup _ _) H _ _ Hl).
Qed.

Lemma wf_record_query query s :
  well_formed s -> well_formed (snd (record_query query s)).
Proof.
  intros Hwf. unfold record_query. expect_phase Hwf Hp.
  rewrite bind_get.
  destruct (wf_current_step s Hwf) as (_ & l & Hl & Hlt); [exact Hp |].
  rewrite Hl. destruct (lookup_lt_is_Some_2 _ _ Hlt) as [sr Hsr].
  rewrite (update_step_report_runs _ _ _ _ Hsr).
  destruct Hwf. wf_fields.
Qed.

Lemma wf_check name participants s :
  well_formed s -> well_formed (snd (check name participants s)).
Proof.
  intros Hwf. unfold check. expect_phase Hwf Hp.
  rewrite bind_get.
  destruct (wf_current_step s Hwf) as ([d Hd] & l & Hl & Hlt); [exact Hp |].
  rewrite Hd. cbn [attr_of]. rewrite bind_ret.
  destruct (PyDict.get name _) as [cd |].
  - cbv beta iota delta [new_pending_check bind get modify ret]. simpl.
    destruct Hwf. wf_fields.
  - destruct (_current_case s); exact Hwf.
Qed.

Lemma wf_end_test_step now s :
  well_formed s -> well_formed (snd (end_test_step now s)).
Proof.
  intros Hwf. unfold end_test_step. expect_phase Hwf Hp.
  rewrite bind_get.
  destruct (wf_current_step s Hwf) as (_ & l & Hl & Hlt); [simpl in *; intuition |].
  destruct (wf_current_case s Hwf) as (Hcc & Hcl); [simpl in *; intuition |].
  rewrite Hl. cbn [attr_of]. rewrite bind_ret.
  destruct (lookup_lt_is_Some_2 _ _ Hlt) as [sr Hsr].
  erewrite bind_Ok; [| exact (update_step_report_runs _ _ _ _ Hsr) ].
  simpl. destruct Hwf. wf_fields.
Qed.

Lemma wf_end_test_case now s :
  well_formed s -> well_formed (snd (end_test_case now s)).
Proof.
  intros Hwf. unfold end_test_case. expect_phase Hwf Hp.
  rewrite bind_get.
  destruct (wf_current_case s Hwf) as (_ & cl & Hcl & Hlt); [simpl in *; intuition |].
  rewrite Hcl. cbn [attr_of]. rewrite bind_ret.
  destruct (lookup_lt_is_Some_2 _ _ Hlt) as [cr Hcr].
  cbv beta iota delta [update_case_report bind get modify ret deref].
  rewrite Hcr. simpl. destruct Hwf. wf_fields.
  now apply case_steps_insert.
Qed.

Lemma wf_begin_cleanup now s :
  well_formed s -> well_formed (snd (begin_cleanup now s)).
Proof.
  intros Hwf. unfold begin_cleanup. expect_phase Hwf Hp.
  rewrite bind_get.
  destruct (documentation s) as [doc |] eqn:Hdoc; [| exact Hwf ].
  cbn [attr_of]. rewrite bind_ret.
  destruct (cleanup doc) as [[d |] |]; [| exact Hwf | exact Hwf ].
  destruct (wf_report s Hwf) as [r Hr]; [simpl in *; intuition |].
  cbv beta iota delta [bind modify new_step_report update_scenario_report get ret
                         attr_of].
  simpl. rewrite Hr. simpl. destruct Hwf. wf_fields.
Qed.

Lemma wf_end_cleanup now s :
  well_formed s -> well_formed (snd (end_cleanup now s)).
Proof.
  intros Hwf. unfold end_cleanup. expect_phase Hwf Hp.
  rewrite bind_get.
  destruct (wf_current_step s Hwf) as (_ & l & Hl & Hlt); [simpl in *; intuition |].
  rewrite Hl. cbn [attr_of]. rewrite bind_ret.
  destruct (lookup_lt_is_Some_2 _ _ Hlt) as [sr Hsr].
  erewrite bind_Ok; [| exact (update_step_report_runs _ _ _ _ Hsr) ].
  simpl. destruct Hwf. wf_fields.
Qed.

Lemma wf_record_note key message now s :
  well_formed s -> well_formed (snd (record_note key message now s)).
Proof.
  intros Hwf. unfold record_note. expect_phase Hwf Hp.
  rewrite bind_get.
  destruct (_scenario_report s) as [r |] eqn:Hr; [| exact Hwf ].
  simpl. destruct Hwf. wf_fields.
Qed.

Lemma preserves_bind {A B} (m : M A) (k : A -> M B) :
  preserves_well_formed m ->
  (forall a, preserves_well_formed (k a)) ->
  preserves_well_formed (bind m k).
Proof.
  intros Hm Hk s Hwf. unfold bind. specialize (Hm s Hwf).
  destruct (m s) as [[a | e] s']; simpl in *; [now apply Hk | exact Hm ].
Qed.

Lemma preserves_ret {A} (a : A) : preserves_well_formed (ret a).
Proof. intros s Hwf. exact Hwf. Qed.

Lemma preserves_try {A} (m : M A) (h : Exn -> M A) :
  preserves_well_formed m ->
  (forall e, preserves_well_formed (h e)) ->
  preserves_well_formed (try_except_RuntimeError m h).
Proof.
  intros Hm Hh s Hwf. unfold try_except_RuntimeError. specialize (Hm s Hwf).
  destruct (m s) as [[a | e] s']; simpl in *; [exact Hm |].
  destruct (is_RuntimeError e); [now apply Hh | exact Hm ].
Qed.

Lemma preserves_for_each {A} (xs : list A) (body : A -> M unit) :
  (forall x, preserves_well_formed (body x)) ->
  preserves_well_formed (for_each xs body).
Proof.
  intros Hbody. induction xs as [| x xs IH]; simpl.
  - apply preserves_ret.
  - apply preserves_bind; [apply Hbody | intros _; exact IH ].
Qed.

Lemma preserves_expect_phase caller ps :
  preserves_well_formed (_expect_phase caller ps).
Proof.
  intros s Hwf. unfold _expect_phase. rewrite bind_get.
  destruct (phase_in (_phase s) ps); exact Hwf.
Qed.

Lemma preserves_read_scenario_report : preserves_well_formed read_scenario_report.
Proof.
  intros s Hwf. unfold read_scenario_report. rewrite bind_get.
  destruct (_scenario_report s); exact Hwf.
Qed.

Lemma preserves_read_case_report l : preserves_well_formed (read_case_report l).
Proof.
  intros s Hwf. unfold read_case_report, deref. rewrite bind_get.
  destruct (case_store s !! l); exact Hwf.
Qed.

Lemma preserves_read_step_report l : preserves_well_formed (read_step_report l).
Proof.
  intros s Hwf. unfold read_step_report, deref. rewrite bind_get.
  destruct (step_store s !! l); exact Hwf.
Qed.

(** An assignment to a field of the scenario report other than its
    references. *)
Lemma preserves_update_scenario_report f :
  (forall r, r_cases (f r) = r_cases r /\ r_cleanup (f r) = r_cleanup r) ->
  preserves_well_formed (update_scenario_report f).
Proof.
  intros Hf s Hwf. unfold update_scenario_report. rewrite bind_get.
  destruct (_scenario_report s) as [r |] eqn:Hr; [| exact Hwf ].
  destruct (Hf r) as [Hc Hl]. simpl. destruct Hwf.
  constructor; simpl; intros; simplify_eq/=; eauto.
  - rewrite Hc. eauto.
  - rewrite Hl in *. eauto.
Qed.

Lemma preserves__make_scenario_report now :
  forall s, well_formed s -> _scenario_report s = None ->
            well_formed (snd (_make_scenario_report now s)).
Proof.
  intros s Hwf Hnone. unfold _make_scenario_report. cbv beta iota delta [bind get].
  destruct (documentation s) as [doc |] eqn:Hdoc; [| exact Hwf ].
  destruct (declaration s) as [decl |] eqn:Hdecl; [| exact Hwf ].
  simpl. destruct Hwf. wf_fields.
Qed.

Lemma preserves_record_execution_error e now :
  preserves_well_formed (record_execution_error e now).
Proof.
  intros s Hwf. unfold record_execution_error. rewrite bind_get.
  destruct (ScenarioPhase_eqb (_phase s) Complete); [exact Hwf |].
  assert (Hmade : well_formed
                    (snd (match _scenario_report s with
                          | None => _make_scenario_report now
                          | Some _ => ret tt
                          end s))).
  { destruct (_scenario_report s) eqn:Hr;
      [exact Hwf | now apply preserves__make_scenario_report ]. }
  revert Hmade. generalize (match _scenario_report s with
                            | None => _make_scenario_report now
                            | Some _ => ret tt
                            end).
  intros m Hm. unfold bind at 1. destruct (m s) as [[[] | e'] s1]; [| exact Hm ].
  simpl in Hm. revert s1 Hm.
  apply (preserves_bind (update_scenario_report _)
           (fun _ => update_scenario_report _ ;;; modify (set_phase Complete))).
  - apply preserves_update_scenario_report. intros r. split; reflexivity.
  - intros _. apply preserves_bind.
    + apply preserves_update_scenario_report. intros r. split; reflexivity.
    + intros _ s1 Hwf1. unfold modify. simpl. destruct Hwf1. wf_fields.
Qed.

Lemma preserves_flag_if_not_low fc : preserves_well_formed (flag_if_not_low fc).
Proof.
  unfold flag_if_not_low. destruct (negb _); [| apply preserves_ret ].
  apply preserves_update_scenario_report. intros r. split; reflexivity.
Qed.

Lemma preserves_evaluate_success : preserves_well_formed evaluate_success.
Proof.
  unfold evaluate_success.
  apply preserves_bind;
    [apply preserves_update_scenario_report; intros r; split; reflexivity |].
  intros _. apply preserves_bind; [apply preserves_read_scenario_report |].
  intros r. apply preserves_bind.
  { apply preserves_for_each. intros cl.
    apply preserves_bind; [apply preserves_read_case_report |].
    intros cr. apply preserves_for_each. intros sl.
    apply preserves_bind; [apply preserves_read_step_report |].
    intros sr. apply preserves_for_each, preserves_flag_if_not_low. }
  intros _. apply preserves_bind; [apply preserves_read_scenario_report |].
  intros r'. apply preserves_bind; [| intros _; apply preserves_read_scenario_report ].
  destruct (r_cleanup r'); [| apply preserves_ret ].
  apply preserves_bind; [apply preserves_read_step_report |].
  intros sr. apply preserves_for_each, preserves_flag_if_not_low.
Qed.

Lemma preserves_get_report now : preserves_well_formed (get_report now).
Proof.
  intros s Hwf. unfold get_report. rewrite bind_get.
  assert (Hmade : well_formed
                    (snd (match _scenario_report s with
                          | None => _make_scenario_report now
                          | Some _ => ret tt
                          end s))).
  { destruct (_scenario_report s) eqn:Hr;
      [exact Hwf | now apply preserves__make_scenario_report ]. }
  revert Hmade. generalize (match _scenario_report s with
                            | None => _make_scenario_report now
                            | Some _ => ret tt
                            end).
  intros m Hm. unfold bind at 1. destruct (m s) as [[[] | e'] s1]; [| exact Hm ].
  simpl in Hm. revert s1 Hm.
  apply preserves_bind; [apply preserves_read_scenario_report |].
  intros r. apply preserves_bind; [| intros _; apply preserves_evaluate_success ].
  destruct (execution_error r); [apply preserves_ret |].
  apply preserves_try; [apply preserves_expect_phase |].
  intros e. apply preserves_record_execution_error.
Qed.

Lemma preserves_update_pending_check self :
  preserves_well_formed (update_pending_check self (check_with_outcome_recorded true)).
Proof.
  intros s Hwf. unfold update_pending_check, deref. rewrite bind_get.
  destruct (check_store s !! self) as [c |] eqn:Hc; [| exact Hwf ].
  simpl. destruct Hwf. wf_fields.
  apply Forall_insert; [exact wf_checks0 |].
  exact (proj1 (Forall_lookup _ _) wf_checks0 _ _ Hc).
Qed.

(** Appending a check to the step report that a pending check is bound to. *)
Lemma preserves_record_on_step self f :
  preserves_well_formed
    (s <- get ;;
     c <- deref (check_store s) self ;;
     l <- attr_of (pc_step_report c) ;;
     update_step_report l (f c)).
Proof.
  intros s Hwf. rewrite bind_get. unfold deref.
  destruct (check_store s !! self) as [c |] eqn:Hc; [| exact Hwf ].
  rewrite bind_ret.
  destruct (pc_step_report c) as [l |]; [| exact Hwf ].
  cbn [attr_of]. rewrite bind_ret. unfold update_step_report, deref.
  rewrite bind_get. destruct (step_store s !! l) as [sr |]; [| exact Hwf ].
  simpl. destruct Hwf. wf_fields.
Qed.

Lemma preserves_record_passed self participants requirements :
  preserves_well_formed (record_passed self participants requirements).
Proof.
  unfold record_passed.
  apply preserves_bind; [apply preserves_update_pending_check |].
  intros _.
  apply (preserves_record_on_step self
           (fun c r =>
              step_with_passed_checks
                (passed_checks r ++ [passed_check_of c participants requirements]) r)).
Qed.

Lemma preserves___exit__ self : preserves_well_formed (__exit__ self).
Proof.
  intros s Hwf. unfold __exit__, deref. rewrite bind_get.
  destruct (check_store s !! self) as [c |]; [| exact Hwf ].
  rewrite bind_ret. destruct (negb (_outcome_recorded c)); [| exact Hwf ].
  now apply preserves_record_passed.
Qed.

Section Reachability.
Variable run_callback : Callback -> FailedCheck -> M unit.
Hypothesis callbacks_preserve :
  forall f failed_check, preserves_well_formed (run_callback f failed_check).

Lemma preserves_record_failed self summary severity details participants
    query_timestamps additional_data requirements now :
  preserves_well_formed
    (record_failed run_callback self summary severity details participants
       query_timestamps additional_data requirements now).
Proof.
  unfold record_failed.
  apply preserves_bind; [apply preserves_update_pending_check |].
  intros _ s Hwf. rewrite bind_get. unfold deref at 1.
  destruct (check_store s !! self) as [c |] eqn:Hc; [| exact Hwf ].
  rewrite bind_ret.
  destruct (pc_step_report c) as [l |]; [| exact Hwf ].
  cbn [attr_of]. rewrite bind_ret. revert s Hwf Hc.
  assert (Hgoal : forall fc,
             preserves_well_formed
               (update_step_report l
                  (fun r => step_with_failed_checks (failed_checks r ++ [fc]) r) ;;;
                match _on_failed_check c with
                | Some f => run_callback f fc
                | None => ret tt
                end ;;;
                (if Severity_eqb severity High
                 then raise (ScenarioCannotContinueError (SeverityIssue severity summary))
                 else ret tt) ;;;
                (if Severity_eqb severity Critical
                 then raise (TestRunCannotContinueError (SeverityIssue severity summary))
                 else ret tt))).
  { intros fc. apply preserves_bind.
    - intros s Hwf. unfold update_step_report, deref. rewrite bind_get.
      destruct (step_store s !! l) as [sr |]; [| exact Hwf ].
      simpl. destruct Hwf. wf_fields.
    - intros _. apply preserves_bind.
      + destruct (_on_failed_check c); [apply callbacks_preserve | apply preserves_ret ].
      + intros _. apply preserves_bind.
        * destruct (Severity_eqb severity High); intros s Hwf; exact Hwf.
        * intros _. destruct (Severity_eqb severity Critical); intros s Hwf; exact Hwf. }
  intros s Hwf _. now apply Hgoal.
Qed.

Lemma preserves_invoke op : preserves_well_formed (invoke op).
Proof.
  intros s Hwf. destruct op; simpl.
  - now apply wf_begin_test_scenario.
  - now apply wf_begin_test_case.
  - now apply wf_begin_test_step.
  - now apply wf_end_test_step.
  - now apply wf_end_test_case.
  - now apply wf_end_test_scenario.
  - now apply wf_go_to_cleanup.
  - now apply wf_begin_cleanup.
  - now apply wf_skip_cleanup.
  - now apply wf_end_cleanup.
  - now apply wf_record_query.
  - revert s Hwf. apply preserves_bind; [| intros _; apply preserves_ret ].
    intros s Hwf. now apply wf_check.
Qed.

Lemma preserves_perform a : preserves_well_formed (perform run_callback a).
Proof.
  destruct a; simpl.
  - apply preserves_invoke.
  - intros s Hwf. now apply wf_record_note.
  - apply preserves_record_execution_error.
  - apply preserves_bind; [apply preserves_get_report | intros _; apply preserves_ret ].
  - apply preserves_record_passed.
  - apply preserves_record_failed.
  - apply preserves___exit__.
Qed.

(** X2. Every state that a driver can reach, by calls in any order and with any
    arguments, is well formed. *)
Lemma reachable_well_formed s : reachable run_callback s -> well_formed s.
Proof.
  induction 1 as [s Hinit | s a _ IH].
  - now apply initial_well_formed.
  - now apply preserves_perform.
Qed.
End Reachability.

(** What well-formedness gives to the statements above: the scenario report
    and the documentation that [begin_test_case] needs, with resolved
    references, and a report tree that [get_report] can walk. *)
Lemma well_formed_ready_for_test_case s :
  well_formed s -> _phase s = ReadyForTestCase ->
  exists r doc,
    _scenario_report s = Some r
    /\ documentation s = Some doc
    /\ Forall (fun l => is_Some (case_store s !! l)) (r_cases r).
Proof.
  intros Hwf Hp. destruct (wf_report s Hwf) as [r Hr]; [rewrite Hp; simpl; auto |].
  destruct (wf_bound s Hwf) as [[doc Hdoc] _]; [now rewrite Hr |].
  exists r, doc. split; [exact Hr |]. split; [exact Hdoc |].
  pose proof (wf_report_cases s Hwf r Hr) as H. revert H.
  apply List.Forall_impl. intros l. apply lookup_lt_is_Some_2.
Qed.

Lemma well_formed_report_resolved s r :
  well_formed s -> _scenario_report s = Some r -> report_resolved s r.
Proof.
  intros Hwf Hr. split.
  - pose proof (wf_report_cases s Hwf r Hr) as H. revert H.
    apply List.Forall_impl. intros cl Hcl.
    destruct (lookup_lt_is_Some_2 _ _ Hcl) as [cr Hcr]. exists cr. split; [exact Hcr |].
    pose proof (proj1 (Forall_lookup _ _) (wf_case_steps s Hwf) _ _ Hcr) as H.
    revert H. apply List.Forall_impl. intros sl. apply lookup_lt_is_Some_2.
  - destruct (r_cleanup r) as [l |] eqn:Hl; [| exact I ].
    apply lookup_lt_is_Some_2. exact (wf_report_cleanup s Hwf r l Hr Hl).
Qed.

Lemma well_formed_pending_check s self c :
  well_formed s -> check_store s !! self = Some c ->
  exists l sr, pc_step_report c = Some l /\ step_store s !! l = Some sr.
Proof.
  intros Hwf Hc.
  destruct (proj1 (Forall_lookup _ _) (wf_checks s Hwf) _ _ Hc) as (l & Hl & Hlt).
  destruct (lookup_lt_is_Some_2 _ _ Hlt) as [sr Hsr]. eauto.
Qed.

(** * Further properties of the code *)

(** ** record_note, where a report exists *)

Lemma example_started_report :
  exists r, _scenario_report example_started = Some r /\ r_notes r = None.
Proof. eexists. split; reflexivity. Qed.

Lemma record_note_upserts_witness :
  exists s' r' notes',
    record_note "First USS" "uss1" 2%Z example_started = (Ok tt, s')
    /\ _phase s' = ReadyForTestCase
    /\ _scenario_report s' = Some r'
    /\ r_notes r' = Some notes'
    /\ notes' !! "First USS"
       = Some {| note_message := "uss1"; note_timestamp := SBDT 2%Z |}.
Proof.
  destruct example_started_report as (r & Hr & _).
  destruct (record_note_upserts "First USS" "uss1" 2%Z example_started r
              (or_intror (or_introl eq_refl)) Hr)
    as (s' & r' & notes' & H1 & H2 & H3 & H4 & H5 & _).
  exists s', r', notes'. repeat split; assumption.
Defined.

(** ** Reachable states *)

Lemma new_scenario_initial doc cb : initial (new_scenario doc cb).
Proof. repeat split. Qed.

Lemma reachable_well_formed_witness :
  well_formed
    (snd (perform no_callbacks (phase_operation (call_begin_test_case "Setup" 2%Z))
            (snd (perform no_callbacks (phase_operation (call_begin_test_scenario 1%Z))
                    (new_scenario example_documentation None))))).
Proof.
  apply (reachable_well_formed no_callbacks).
  - intros f failed_check. apply preserves_ret.
  - apply reachable_step, reachable_step, reachable_initial, new_scenario_initial.
Defined.

(** ** begin_test_step *)

(** X3. In phase [ReadyForTestStep], with the current case and its report in
    place, [begin_test_step name] raises a [RuntimeError] and changes
    nothing when the current case documents no step of that name; otherwise
    it creates a step report of that name without checks, appends a
    reference to it to the steps of the current case report, makes it the
    current step report and sets the phase to [RunningTestStep]. *)
Theorem begin_test_step_spec
    (name : string) (now : datetime) (s : State)
    (current_case : TestCaseDocumentation) (cl : loc) (cr : TestCaseReport) :
  _phase s = ReadyForTestStep ->
  _current_case s = Some current_case ->
  _case_report s = Some cl ->
  case_store s !! cl = Some cr ->
  (~ In name (map step_name (steps current_case)) ->
   begin_test_step name now s
   = (Raise (RuntimeError
               (UndeclaredStep (me s) name (case_name current_case)
                  (PyDict.keys (PyDict.comprehension step_name (steps current_case))))),
      s))
  /\ (In name (map step_name (steps current_case)) ->
      exists s' d sr cr',
        begin_test_step name now s = (Ok tt, s')
        /\ _phase s' = RunningTestStep
        /\ _current_step s' = Some d /\ step_name d = name /\ In d (steps current_case)
        /\ _step_report s' = Some (length (step_store s))
        /\ step_store s' = step_store s ++ [sr]
        /\ sr_name sr = name /\ sr_start_time sr = SBDT now /\ sr_end_time sr = None
        /\ failed_checks sr = [] /\ passed_checks sr = [] /\ queries sr = None
        /\ case_store s' = <[cl := cr']> (case_store s)
        /\ cr_steps cr' = cr_steps cr ++ [length (step_store s)]
        /\ cr_name cr' = cr_name cr
        /\ _scenario_report s' = _scenario_report s).
Proof.
  intros Hphase Hcc Hcl Hcr. unfold begin_test_step.
  erewrite bind_Ok; [| apply _expect_phase_Ok; rewrite Hphase; reflexivity ].
  rewrite bind_get, Hcc. cbn [attr_of]. rewrite bind_ret.
  destruct (PyDict.get name (PyDict.comprehension step_name (steps current_case)))
    as [d |] eqn:Hget.
  - apply comprehension_Some in Hget. destruct Hget as [Hin Hname]. split.
    + intros Hnot. exfalso. apply Hnot. rewrite <- Hname. now apply in_map.
    + intros _.
      cbv beta iota delta [bind modify new_step_report update_case_report get ret
                             attr_of deref].
      simpl. rewrite Hcl. simpl. rewrite Hcr. simpl.
      eexists _, d, _, _. split; [reflexivity |]. simpl.
      repeat split; try reflexivity; assumption.
  - apply comprehension_None in Hget. split; [reflexivity | contradiction ].
Qed.

Lemma example_in_case_objects :
  _phase (snd (begin_test_case "Setup" 2%Z example_started)) = ReadyForTestStep
  /\ _current_case (snd (begin_test_case "Setup" 2%Z example_started)) = Some example_case
  /\ _case_report (snd (begin_test_case "Setup" 2%Z example_started)) = Some 0
  /\ case_store (snd (begin_test_case "Setup" 2%Z example_started)) !! 0
     = Some {| cr_name := "Setup"; cr_documentation_url := "doc#case";
               cr_start_time := SBDT 2%Z; cr_end_time := None; cr_steps := [] |}.
Proof. repeat split; vm_compute; reflexivity. Qed.

Lemma begin_test_step_spec_witness :
  exists s' sr,
    begin_test_step "Clear area" 3%Z (snd (begin_test_case "Setup" 2%Z example_started))
    = (Ok tt, s')
    /\ _phase s' = RunningTestStep
    /\ _step_report s' = Some 0
    /\ step_store s' = [sr]
    /\ sr_name sr = "Clear area".
Proof.
  destruct example_in_case_objects as (H1 & H2 & H3 & H4).
  destruct (begin_test_step_spec "Clear area" 3%Z _ _ _ _ H1 H2 H3 H4) as [_ H].
  destruct H as (s' & d & sr & cr' & R1 & R2 & _ & _ & _ & R3 & R4 & R5 & _).
  - simpl. left. reflexivity.
  - exists s', sr. repeat split; assumption.
Defined.

(** ** check *)

(** X4. In the phases that allow checks and with a current step, [check name]
    for a name that the current step does not document raises and changes
    nothing: the [RuntimeError] that lists the documented checks when a
    current case is set, and an [AttributeError] when there is none (as
    during cleanup after the cases have ended), because the message reads
    the name of the current case.  For a documented name it returns a new
    pending check, stored after the existing ones, without outcome, with the
    given participants (none by default), bound to the current step report
    and to the scenario's failure observer; nothing else changes. *)
Theorem check_spec
    (name : string) (participants : option (list ParticipantID))
    (s : State) (d : TestStepDocumentation) :
  In (_phase s) [RunningTestStep; CleaningUp] ->
  _current_step s = Some d ->
  (~ In name (map check_name (checks d)) ->
   check name participants s
   = (Raise (match _current_case s with
             | Some current_case =>
                 RuntimeError
                   (UndeclaredCheck (me s) name (step_name d) (case_name current_case)
                      (PyDict.keys (PyDict.comprehension check_name (checks d))))
             | None => AttributeError
             end),
      s))
  /\ (In name (map check_name (checks d)) ->
      exists c,
        check name participants s
        = (Ok (length (check_store s)), set_check_store (check_store s ++ [c]) s)
        /\ check_name (_documentation c) = name
        /\ In (_documentation c) (checks d)
        /\ _participants c = match participants with Some p => p | None => [] end
        /\ pc_step_report c = _step_report s
        /\ _on_failed_check c = on_failed_check s
        /\ _outcome_recorded c = false).
Proof.
  intros Hphase Hd. unfold check.
  erewrite bind_Ok; [| apply _expect_phase_Ok; now apply phase_in_In ].
  rewrite bind_get, Hd. cbn [attr_of]. rewrite bind_ret.
  destruct (PyDict.get name (PyDict.comprehension check_name (checks d)))
    as [cd |] eqn:Hget.
  - apply comprehension_Some in Hget. destruct Hget as [Hin Hname]. split.
    + intros Hnot. exfalso. apply Hnot. rewrite <- Hname. now apply in_map.
    + intros _. eexists. split; [reflexivity |]. simpl.
      repeat split; try assumption; now destruct participants.
  - apply comprehension_None in Hget. split; [| contradiction ].
    intros _. destruct (_current_case s); reflexivity.
Qed.

Lemma example_running_objects :
  _phase (example_running None) = RunningTestStep
  /\ _current_step (example_running None) = Some example_step.
Proof. split; vm_compute; reflexivity. Qed.

Lemma check_spec_witness :
  exists e,
    check "No such check" None (example_running None) = (Raise e, example_running None)
    /\ is_RuntimeError e = true.
Proof.
  destruct example_running_objects as [Hp Hd].
  destruct (check_spec "No such check" None (example_running None) example_step
              (or_introl (eq_sym Hp)) Hd) as [H _].
  eexists. split.
  - apply H. simpl. intros [E | []]. discriminate E.
  - vm_compute. reflexivity.
Defined.

(** ** The end of a scenario *)

(** X5. Once a scenario is [Complete], every phase-machine operation,
    [record_note] and [record_execution_error] raise a [RuntimeError] and
    leave the state alone: only [get_report] and the pending checks still
    work. *)
Theorem complete_is_final (s : State) :
  _phase s = Complete ->
  (forall op, exists m, invoke op s = (Raise (RuntimeError m), s))
  /\ (forall key message now,
         exists m, record_note key message now s = (Raise (RuntimeError m), s))
  /\ (forall e now,
         record_execution_error e now s
         = (Raise (RuntimeError (AlreadyComplete (me s))), s))
  /\ cleanup_method s
     = (Raise (RuntimeError (WrongPhase (me s) Complete "skip_cleanup" [ReadyForCleanup])),
        s).
Proof.
  intros Hphase. split; [| split; [| split ]].
  - intros op.
    destruct op; eexists; simpl;
      unfold begin_test_scenario, begin_test_case, begin_test_step, end_test_step,
        end_test_case, end_test_scenario, go_to_cleanup, begin_cleanup,
        skip_cleanup, end_cleanup, record_query, check;
      repeat (erewrite bind_Raise; [reflexivity |]);
      apply _expect_phase_Raise; rewrite Hphase; reflexivity.
  - intros key message now. eexists. unfold record_note.
    erewrite bind_Raise; [reflexivity |].
    apply _expect_phase_Raise. rewrite Hphase. reflexivity.
  - intros e now. unfold record_execution_error. rewrite bind_get, Hphase. reflexivity.
  - unfold cleanup_method, skip_cleanup.
    erewrite bind_Raise; [reflexivity |].
    rewrite _expect_phase_Raise by (rewrite Hphase; reflexivity).
    now rewrite Hphase.
Qed.

Lemma example1_complete : _phase example1_state = Complete.
Proof. vm_compute. reflexivity. Qed.

Lemma complete_is_final_witness :
  (exists m, invoke (call_begin_test_case "Setup" 9%Z) example1_state
             = (Raise (RuntimeError m), example1_state))
  /\ record_execution_error (OtherException "late") 9%Z example1_state
     = (Raise (RuntimeError (AlreadyComplete (me example1_state))), example1_state).
Proof.
  destruct (complete_is_final example1_state example1_complete) as (H1 & _ & H3 & _).
  split; [apply H1 | apply H3 ].
Defined.

(** ** Cleanup *)

(** X6. In phase [ReadyForCleanup] exactly one of [begin_cleanup] and
    [skip_cleanup] is accepted, by the documentation alone: when it
    documents a cleanup step, [skip_cleanup] (and so the [cleanup] method of
    the base class) raises and [begin_cleanup] opens the cleanup step report
    and makes it the report's cleanup; when it documents none,
    [begin_cleanup] raises and [skip_cleanup] completes the scenario.  The
    call that raises changes nothing.  (A scenario with a report has its
    documentation bound; were it not, each call would raise
    [AttributeError].) *)
Theorem cleanup_is_begun_or_skipped (now : datetime) (s : State) (r : TestScenarioReport) :
  _phase s = ReadyForCleanup ->
  _scenario_report s = Some r ->
  match cleanup <$> documentation s with
  | None =>
      begin_cleanup now s = (Raise AttributeError, s)
      /\ skip_cleanup s = (Raise AttributeError, s)
      /\ cleanup_method s = (Raise AttributeError, s)
  | Some (Some (Some d)) =>
      skip_cleanup s = (Raise (RuntimeError (CleanupSkipped (me s))), s)
      /\ cleanup_method s = (Raise (RuntimeError (CleanupSkipped (me s))), s)
      /\ exists s' r' sr,
           begin_cleanup now s = (Ok tt, s')
           /\ _phase s' = CleaningUp
           /\ _current_step s' = Some d
           /\ _step_report s' = Some (length (step_store s))
           /\ step_store s' = step_store s ++ [sr]
           /\ sr_name sr = step_name d
           /\ failed_checks sr = [] /\ passed_checks sr = []
           /\ _scenario_report s' = Some r'
           /\ r_cleanup r' = Some (length (step_store s))
           /\ r_cases r' = r_cases r
           /\ case_store s' = case_store s
  | Some _ =>
      begin_cleanup now s = (Raise (RuntimeError (NoCleanupDocumented (me s))), s)
      /\ skip_cleanup s = (Ok tt, set_phase Complete s)
      /\ cleanup_method s = (Ok tt, set_phase Complete s)
  end.
Proof.
  intros Hphase Hr.
  assert (Hstart : forall caller (k : unit -> M unit),
             bind (_expect_phase caller [ReadyForCleanup]) k s = k tt s).
  { intros caller k. apply bind_Ok, _expect_phase_Ok. now rewrite Hphase. }
  unfold cleanup_method, skip_cleanup, begin_cleanup. rewrite !Hstart, !bind_get.
  destruct (documentation s) as [doc |] eqn:Hdoc; [| repeat split; reflexivity ].
  cbn [attr_of fmap option_fmap option_map]. rewrite !bind_ret.
  destruct (cleanup doc) as [[d |] |]; try (repeat split; reflexivity).
  split; [reflexivity |]. split; [reflexivity |].
  cbv beta iota delta [bind modify new_step_report update_scenario_report get ret
                         attr_of].
  simpl. rewrite Hr. simpl.
  eexists _, _, _. split; [reflexivity |]. simpl. repeat split; reflexivity.
Qed.

Lemma example_ready_for_cleanup :
  _phase (snd (go_to_cleanup (example_running None))) = ReadyForCleanup
  /\ exists r, _scenario_report (snd (go_to_cleanup (example_running None))) = Some r.
Proof. split; [| eexists ]; vm_compute; reflexivity. Qed.

Lemma cleanup_is_begun_or_skipped_witness :
  begin_cleanup 5%Z (snd (go_to_cleanup (example_running None)))
  = (Raise (RuntimeError (NoCleanupDocumented "monitoring.uss_qualifier.scenarios.Example")),
     snd (go_to_cleanup (example_running None)))
  /\ skip_cleanup (snd (go_to_cleanup (example_running None)))
     = (Ok tt, set_phase Complete (snd (go_to_cleanup (example_running None)))).
Proof.
  destruct example_ready_for_cleanup as (Hp & r & Hr).
  pose proof (cleanup_is_begun_or_skipped 5%Z _ r Hp Hr) as H.
  change (cleanup <$> documentation (snd (go_to_cleanup (example_running None))))
    with (Some (@None (option TestStepDocumentation))) in H.
  destruct H as (H1 & H2 & _). split; [exact H1 | exact H2 ].
Defined.

(** ** get_report, called again *)

(** With a report that holds an execution error, or in phase [Complete],
    [get_report] goes straight to the evaluation of success. *)
Lemma get_report_when_settled now s r :
  _scenario_report s = Some r ->
  execution_error r <> None \/ _phase s = Complete ->
  get_report now s = evaluate_success s.
Proof.
  intros Hr Hsettled. unfold get_report. rewrite bind_get, Hr, bind_ret.
  erewrite bind_Ok; [| unfold read_scenario_report; rewrite bind_get, Hr; reflexivity ].
  destruct (execution_error r) as [err |] eqn:Herr.
  - now rewrite bind_ret.
  - destruct Hsettled as [H | Hphase]; [congruence |].
    erewrite bind_Ok; [reflexivity |].
    unfold try_except_RuntimeError.
    rewrite _expect_phase_Ok; [reflexivity | now rewrite Hphase ].
Qed.



(** ** A check that fails inside its scope *)

Lemma check_opens name participants s d cd :
  In (_phase s) [RunningTestStep; CleaningUp] ->
  _current_step s = Some d ->
  PyDict.get name (PyDict.comprehension check_name (checks d)) = Some cd ->
  check name participants s
  = (Ok (length (check_store s)),
     set_check_store
       (check_store s
        ++ [ {| _documentation := cd;
                _participants := match participants with None => [] | Some p => p end;
                pc_step_report := _step_report s;
                _on_failed_check := on_failed_check s;
                _outcome_recorded := false |} ]) s).
Proof.
  intros Hphase Hd Hget. unfold check.
  erewrite bind_Ok; [| apply _expect_phase_Ok; now apply phase_in_In ].
  rewrite bind_get, Hd. cbn [attr_of]. rewrite bind_ret, Hget. reflexivity.
Qed.

Lemma declared_is_found {V} (key : V -> string) (name : string) (xs : list V) :
  In name (map key xs) ->
  exists x, PyDict.get name (PyDict.comprehension key xs) = Some x.
Proof.
  intros Hin. destruct (PyDict.get name (PyDict.comprehension key xs)) as [x |] eqn:E.
  - eauto.
  - apply comprehension_None in E. contradiction.
Qed.

(** X8. A check that is opened by a [with] statement and fails in its body, on a
    scenario without failure observer, is recorded as failed only: the step
    report gets the one failed check and no passed check, and the statement
    ends the way the severity says (it returns for [Low], it raises the
    scenario signal for [High] and the run signal for [Critical]). *)
Theorem failed_check_is_not_passed
    (run_callback : Callback -> FailedCheck -> M unit)
    (name summary details : string) (severity : Severity)
    (participants : option (list ParticipantID)) (now : datetime)
    (s : State) (d : TestStepDocumentation) (l : loc) (sr : TestStepReport) :
  In (_phase s) [RunningTestStep; CleaningUp] ->
  _current_step s = Some d ->
  In name (map check_name (checks d)) ->
  _step_report s = Some l ->
  step_store s !! l = Some sr ->
  on_failed_check s = None ->
  exists s' sr' failed_check,
    with_check (check name participants)
      (fun c => record_failed run_callback c summary severity details None None None
                  None now) s
    = (severity_signal severity summary, s')
    /\ step_store s' !! l = Some sr'
    /\ failed_checks sr' = failed_checks sr ++ [failed_check]
    /\ fc_name failed_check = name
    /\ fc_severity failed_check = severity
    /\ fc_summary failed_check = summary
    /\ passed_checks sr' = passed_checks sr
    /\ length (step_store s') = length (step_store s)
    /\ _phase s' = _phase s.
Proof.
  intros Hphase Hd Hname Hl Hsr Hnone.
  destruct (declared_is_found check_name name (checks d) Hname) as [cd Hget].
  pose proof (comprehension_Some _ _ _ _ Hget) as [_ Hcd].
  pose proof (check_opens name participants s d cd Hphase Hd Hget) as Hopen.
  set (c := {| _documentation := cd;
               _participants := match participants with None => [] | Some p => p end;
               pc_step_report := _step_report s;
               _on_failed_check := on_failed_check s;
               _outcome_recorded := false |}) in *.
  set (s1 := set_check_store (check_store s ++ [c]) s) in *.
  assert (Hc : check_store s1 !! length (check_store s) = Some c)
    by (simpl; apply list_lookup_middle; reflexivity).
  pose proof (record_failed_runs run_callback (length (check_store s)) summary severity
                details None None None None now s1 c l sr Hc Hl Hsr) as Hfail.
  cbv zeta in Hfail. cbn [_on_failed_check c] in Hfail. rewrite Hnone in Hfail.
  eexists _, _, _. split.
  - unfold with_check. erewrite bind_Ok by exact Hopen. unfold __enter__, ret.
    rewrite Hfail.
    rewrite (__exit___recorded _ _ (check_with_outcome_recorded true c));
      [reflexivity | simpl; eapply lookup_insert_same; exact Hc | reflexivity ].
  - split; [simpl; eapply lookup_insert_same; exact Hsr |].
    split; [reflexivity |]. split; [exact Hcd |].
    repeat split; try reflexivity. simpl. apply length_insert.
Qed.

Lemma example_running_step :
  _step_report (example_running None) = Some 0
  /\ step_store (example_running None) !! 0 = Some example_step_report
  /\ on_failed_check (example_running None) = None.
Proof. repeat split; vm_compute; reflexivity. Qed.

Lemma failed_check_is_not_passed_witness :
  exists s' sr' failed_check,
    with_check (check "Area is clear" None)
      (fun c => record_failed no_callbacks c "area not clear" High "" None None None
                  None 4%Z) (example_running None)
    = (Raise (ScenarioCannotContinueError (SeverityIssue High "area not clear")), s')
    /\ step_store s' !! 0 = Some sr'
    /\ failed_checks sr' = [failed_check]
    /\ passed_checks sr' = [].
Proof.
  destruct example_running_objects as [Hp Hd].
  destruct example_running_step as (Hl & Hsr & Hnone).
  destruct (failed_check_is_not_passed no_callbacks "Area is clear" "area not clear" ""
              High None 4%Z (example_running None) example_step 0 example_step_report
              (or_introl (eq_sym Hp)) Hd (or_introl eq_refl) Hl Hsr Hnone)
    as (s' & sr' & fc & H1 & H2 & H3 & _ & _ & _ & H4 & _).
  exists s', sr', fc. repeat split; assumption.
Defined.

(** ** Names that the documentation declares twice *)

Lemma find_in_app {A} (f : A -> bool) (l1 l2 : list A) :
  List.find f (l1 ++ l2)
  = match List.find f l1 with Some x => Some x | None => List.find f l2 end.
Proof.
  induction l1 as [| x l1 IH]; simpl; [reflexivity |].
  destruct (f x); [reflexivity | exact IH ].
Qed.

Lemma PyDict_fold_last {V} (key : V -> string) (k : string) xs d0 :
  PyDict.get k (fold_left (fun d x => PyDict.set (key x) x d) xs d0)
  = match last_declared key k xs with
    | Some x => Some x
    | None => PyDict.get k d0
    end.
Proof.
  unfold last_declared. revert d0. induction xs as [| x xs IH]; intros d0; simpl.
  - reflexivity.
  - rewrite IH, PyDict_get_set, find_in_app.
    destruct (List.find (fun x0 => String.eqb k (key x0)) (rev xs)); [reflexivity |].
    simpl. destruct (String.eqb k (key x)); reflexivity.
Qed.

Lemma comprehension_last {V} (key : V -> string) (k : string) xs :
  PyDict.get k (PyDict.comprehension key xs) = last_declared key k xs.
Proof.
  unfold PyDict.comprehension. rewrite PyDict_fold_last.
  now destruct (last_declared key k xs).
Qed.

Lemma PyDict_set_keys {V} (k : string) (v : V) d :
  PyDict.keys (PyDict.set k v d)
  = if existsb (String.eqb k) (PyDict.keys d) then PyDict.keys d
    else PyDict.keys d ++ [k].
Proof.
  induction d as [| [k' v'] d IH]; simpl; [reflexivity |].
  destruct (String.eqb k k') eqn:E; simpl; [reflexivity |].
  fold (PyDict.keys d). fold (PyDict.keys (PyDict.set k v d)). rewrite IH.
  now destruct (existsb (String.eqb k) (PyDict.keys d)).
Qed.

Lemma PyDict_fold_keys_NoDup {V} (key : V -> string) xs d0 :
  List.NoDup (PyDict.keys d0) ->
  List.NoDup (PyDict.keys (fold_left (fun d x => PyDict.set (key x) x d) xs d0)).
Proof.
  revert d0. induction xs as [| x xs IH]; intros d0 H; simpl; [exact H |].
  apply IH. rewrite PyDict_set_keys.
  destruct (existsb (String.eqb (key x)) (PyDict.keys d0)) eqn:E; [exact H |].
  apply (Permutation_NoDup (Permutation_cons_append _ _)).
  constructor; [| exact H ]. intros Hin.
  apply existsb_eqb_In in Hin. congruence.
Qed.

Lemma PyDict_get_keys {V} (k : string) (d : list (string * V)) :
  In k (PyDict.keys d) <-> PyDict.get k d <> None.
Proof.
  induction d as [| [k' v'] d IH]; simpl.
  - tauto.
  - destruct (String.eqb k k') eqn:E.
    + apply String.eqb_eq in E. subst. split; [discriminate | auto ].
    + apply String.eqb_neq in E. rewrite <- IH. fold (PyDict.keys d).
      split; [intros [H | H]; [congruence | exact H] | auto ].
Qed.

(** X9. The dictionaries that [begin_test_case], [begin_test_step], [check] and
    [_get_check] build from the documentation ([{c.name: c for c in ...}]):
    a name that is declared more than once stands for its last declaration,
    and the list of declared names, which the error messages show, has each
    name once. *)
Theorem declared_twice_last_wins {V} (key : V -> string) (xs : list V) :
  (forall name, PyDict.get name (PyDict.comprehension key xs) = last_declared key name xs)
  /\ List.NoDup (PyDict.keys (PyDict.comprehension key xs))
  /\ (forall name,
         In name (PyDict.keys (PyDict.comprehension key xs)) <-> In name (map key xs)).
Proof.
  split; [intros name; apply comprehension_last |]. split.
  - apply PyDict_fold_keys_NoDup. constructor.
  - intros name. rewrite PyDict_get_keys. split.
    + intros H. destruct (in_dec string_dec name (map key xs)) as [Hin | Hnot];
        [exact Hin |].
      apply comprehension_None in Hnot. contradiction.
    + intros Hin Hnone. apply comprehension_None in Hnone. contradiction.
Qed.

(** ** _get_check *)

(** X10. [_get_check] never changes the state and asks for no phase.  With a
    current step, it returns the documentation of the check of that name,
    the last one if the step declares the name twice, and it raises when the
    step declares none: a [RuntimeError] if a current case is set, an
    [AttributeError] if not. *)
Theorem _get_check_spec (name : string) (s : State) (d : TestStepDocumentation) :
  _current_step s = Some d ->
  _get_check name s
  = (match last_declared check_name name (checks d) with
     | Some check_documentation => Ok check_documentation
     | None =>
         Raise (match _current_case s with
                | Some current_case =>
                    RuntimeError
                      (UndeclaredCheck (me s) name (step_name d) (case_name current_case)
                         (PyDict.keys (PyDict.comprehension check_name (checks d))))
                | None => AttributeError
                end)
     end, s).
Proof.
  intros Hd. unfold _get_check. rewrite bind_get, Hd. cbn [attr_of].
  rewrite bind_ret, comprehension_last.
  destruct (last_declared check_name name (checks d)); [reflexivity |].
  destruct (_current_case s); reflexivity.
Qed.

Lemma _get_check_spec_witness :
  _get_check "Area is clear" (example_running None)
  = (Ok example_check, example_running None).
Proof.
  rewrite (_get_check_spec "Area is clear" (example_running None) example_step
             (proj2 example_running_objects)).
  reflexivity.
Defined.

(** ** The operations on the nominal path *)

Lemma begin_test_scenario_runs now s doc decl :
  _phase s = NotStarted ->
  documentation s = Some doc ->
  declaration s = Some decl ->
  begin_test_scenario now s
  = (Ok tt,
     set_phase ReadyForTestCase
       (set_scenario_report
          (Some {| r_name := doc_name doc;
                   r_scenario_type := scenario_type decl;
                   r_documentation_url := doc_url doc;
                   r_start_time := SBDT now;
                   r_end_time := None;
                   r_cases := [];
                   r_notes := None;
                   r_cleanup := None;
                   execution_error := None;
                   successful := None |}) s)).
Proof.
  intros Hphase Hdoc Hdecl. unfold begin_test_scenario.
  erewrite bind_Ok; [| apply _expect_phase_Ok; rewrite Hphase; reflexivity ].
  unfold _make_scenario_report. cbv beta iota delta [bind get].
  rewrite Hdoc, Hdecl. reflexivity.
Qed.

Lemma begin_test_case_runs name now s r doc c :
  _phase s = ReadyForTestCase ->
  _scenario_report s = Some r ->
  documentation s = Some doc ->
  Forall (fun l => is_Some (case_store s !! l)) (r_cases r) ->
  PyDict.get name (PyDict.comprehension case_name (cases doc)) = Some c ->
  (forall l cr, In l (r_cases r) -> case_store s !! l = Some cr -> cr_name cr <> name) ->
  begin_test_case name now s
  = (Ok tt,
     set_phase ReadyForTestStep
       (set_scenario_report
          (Some (report_with_cases (r_cases r ++ [length (case_store s)]) r))
          (set_case_report (Some (length (case_store s)))
             (set_case_store
                (case_store s
                 ++ [ {| cr_name := case_name c;
                         cr_documentation_url := case_url c;
                         cr_start_time := SBDT now;
                         cr_end_time := None;
                         cr_steps := [] |} ])
                (set_current_case (Some c) s))))).
Proof.
  intros Hphase Hr Hdoc Hrefs Hget Hnew. unfold begin_test_case.
  erewrite bind_Ok; [| apply _expect_phase_Ok; rewrite Hphase; reflexivity ].
  rewrite bind_get, Hdoc. cbn [attr_of]. rewrite bind_ret, Hget, Hr.
  cbn [attr_of]. rewrite bind_ret.
  destruct (case_names_resolved (case_store s) (r_cases r) s Hrefs)
    as (names & Hrun & Hnames).
  erewrite bind_Ok; [| exact Hrun ].
  destruct (existsb (String.eqb name) names) eqn:Hran.
  - apply existsb_eqb_In, Hnames in Hran.
    destruct Hran as (l & cr & Hin & Hl & Hname). exfalso. now apply (Hnew l cr).
  - cbv beta iota delta [bind modify new_case_report update_scenario_report get ret
                           attr_of].
    simpl. rewrite Hr. reflexivity.
Qed.

Lemma begin_test_step_runs name now s current_case d cl cr :
  _phase s = ReadyForTestStep ->
  _current_case s = Some current_case ->
  PyDict.get name (PyDict.comprehension step_name (steps current_case)) = Some d ->
  _case_report s = Some cl ->
  case_store s !! cl = Some cr ->
  begin_test_step name now s
  = (Ok tt,
     set_phase RunningTestStep
       (set_case_store
          (<[cl := case_with_steps (cr_steps cr ++ [length (step_store s)]) cr]>
             (case_store s))
          (set_step_report (Some (length (step_store s)))
             (set_step_store
                (step_store s
                 ++ [ {| sr_name := step_name d;
                         sr_documentation_url := step_url d;
                         sr_start_time := SBDT now;
                         sr_end_time := None;
                         failed_checks := [];
                         passed_checks := [];
                         queries := None |} ])
                (set_current_step (Some d) s))))).
Proof.
  intros Hphase Hcc Hget Hcl Hcr. unfold begin_test_step.
  erewrite bind_Ok; [| apply _expect_phase_Ok; rewrite Hphase; reflexivity ].
  rewrite bind_get, Hcc. cbn [attr_of]. rewrite bind_ret, Hget.
  cbv beta iota delta [bind modify new_step_report update_case_report get ret
                         attr_of deref].
  simpl. rewrite Hcl. simpl. rewrite Hcr. reflexivity.
Qed.

Lemma end_test_step_runs now s l sr :
  _phase s = RunningTestStep ->
  _step_report s = Some l ->
  step_store s !! l = Some sr ->
  end_test_step now s
  = (Ok tt,
     set_phase ReadyForTestStep
       (set_step_report None
          (set_current_step None
             (set_step_store (<[l := step_with_end_time (SBDT now) sr]> (step_store s))
                s)))).
Proof.
  intros Hphase Hl Hsr. unfold end_test_step.
  erewrite bind_Ok; [| apply _expect_phase_Ok; rewrite Hphase; reflexivity ].
  rewrite bind_get, Hl. cbn [attr_of]. rewrite bind_ret.
  erewrite bind_Ok; [| exact (update_step_report_runs _ _ _ _ Hsr) ].
  reflexivity.
Qed.

Lemma end_test_case_runs now s cl cr :
  _phase s = ReadyForTestStep ->
  _case_report s = Some cl ->
  case_store s !! cl = Some cr ->
  end_test_case now s
  = (Ok tt,
     set_phase ReadyForTestCase
       (set_case_report None
          (set_current_case None
             (set_case_store (<[cl := case_with_end_time (SBDT now) cr]> (case_store s))
                s)))).
Proof.
  intros Hphase Hcl Hcr. unfold end_test_case.
  erewrite bind_Ok; [| apply _expect_phase_Ok; rewrite Hphase; reflexivity ].
  rewrite bind_get, Hcl. cbn [attr_of]. rewrite bind_ret.
  cbv beta iota delta [update_case_report bind get modify ret deref].
  rewrite Hcr. reflexivity.
Qed.

Lemma end_test_scenario_runs now s r :
  _phase s = ReadyForTestCase ->
  _scenario_report s = Some r ->
  end_test_scenario now s
  = (Ok tt,
     set_phase ReadyForCleanup
       (set_scenario_report (Some (report_with_end_time (SBDT now) r)) s)).
Proof.
  intros Hphase Hr. unfold end_test_scenario.
  erewrite bind_Ok; [| apply _expect_phase_Ok; rewrite Hphase; reflexivity ].
  cbv beta iota delta [update_scenario_report bind get modify ret attr_of].
  rewrite Hr. reflexivity.
Qed.

Lemma skip_cleanup_runs s doc :
  _phase s = ReadyForCleanup ->
  documentation s = Some doc ->
  cleanup doc = None \/ cleanup doc = Some None ->
  skip_cleanup s = (Ok tt, set_phase Complete s).
Proof.
  intros Hphase Hdoc Hclean. unfold skip_cleanup.
  erewrite bind_Ok; [| apply _expect_phase_Ok; rewrite Hphase; reflexivity ].
  rewrite bind_get, Hdoc. cbn [attr_of]. rewrite bind_ret.
  destruct Hclean as [-> | ->]; reflexivity.
Qed.

Lemma go_to_cleanup_runs s :
  In (_phase s) [ReadyForTestCase; ReadyForTestStep; RunningTestStep; ReadyForCleanup] ->
  go_to_cleanup s = (Ok tt, set_phase ReadyForCleanup s).
Proof.
  intros Hphase. unfold go_to_cleanup.
  erewrite bind_Ok; [| apply _expect_phase_Ok; now apply phase_in_In ].
  reflexivity.
Qed.

(** ** A complete run *)

(** Brings the state that the rest of a run starts from into normal form. *)
Ltac norm_state :=
  lazymatch goal with
  | |- context [bind ?m ?k ?st] =>
      let st' := eval cbv in st in change st with st'
  | |- context [with_check ?m ?k ?st] =>
      let st' := eval cbv in st in change st with st'
  end.

(** X11. On a scenario as the factory constructs it (documentation and
    declaration bound), whose documentation declares the case,
    the step under that case and the check under that step (taking the last
    declaration of each name) and no cleanup step, the run of one case, one
    step and one check without explicit outcome returns normally and
    completes the scenario; the report then has that one case with that one
    step, which holds one passed check and no failed check, and [get_report]
    returns it with [successful] true and without execution error. *)
Theorem nominal_run_succeeds
    (case step check_ : string) (t1 t2 t3 t4 t5 t6 t7 : datetime) (s : State)
    (doc : TestScenarioDocumentation) (decl : TestScenarioDeclaration)
    (c : TestCaseDocumentation) (d : TestStepDocumentation)
    (cd : TestCheckDocumentation) :
  initial s ->
  documentation s = Some doc ->
  declaration s = Some decl ->
  last_declared case_name case (cases doc) = Some c ->
  last_declared step_name step (steps c) = Some d ->
  last_declared check_name check_ (checks d) = Some cd ->
  cleanup doc = None \/ cleanup doc = Some None ->
  exists s' r cr sr,
    nominal_run case step check_ t1 t2 t3 t4 t5 t6 s = (Ok tt, s')
    /\ _phase s' = Complete
    /\ _scenario_report s' = Some r
    /\ r_cases r = [0] /\ r_cleanup r = None /\ r_end_time r = Some (SBDT t6)
    /\ case_store s' = [cr]
    /\ cr_name cr = case_name c /\ cr_steps cr = [0] /\ cr_end_time cr = Some (SBDT t5)
    /\ step_store s' = [sr]
    /\ sr_name sr = step_name d /\ sr_end_time sr = Some (SBDT t4)
    /\ passed_checks sr
       = [ {| pc_name := check_name cd; pc_participants := [];
              pc_requirements := applicable_requirements cd |} ]
    /\ failed_checks sr = []
    /\ exists r' s'',
         get_report t7 s' = (Ok r', s'')
         /\ successful r' = Some true
         /\ execution_error r' = None
         /\ r_cases r' = [0].
Proof.
  intros (Hp & Hr & Hcc & Hcr & Hcs & Hsr & Hc & Hs & Hk) Hdoc Hdecl
    Hcase Hstep Hcheck Hclean.
  rewrite <- comprehension_last in Hcase.
  rewrite <- comprehension_last in Hstep.
  rewrite <- comprehension_last in Hcheck.
  destruct s as [decl_ doc_ me_ cb ph rep cc crl cst srl cstore sstore kstore].
  simpl in *. subst.
  unfold nominal_run.
  erewrite bind_Ok; [| apply begin_test_scenario_runs; reflexivity ].
  norm_state.
  erewrite bind_Ok;
    [| eapply begin_test_case_runs;
       [reflexivity | reflexivity | reflexivity | constructor | exact Hcase
       | intros l cr [] ] ].
  norm_state.
  erewrite bind_Ok;
    [| eapply begin_test_step_runs;
       [reflexivity | reflexivity | exact Hstep | reflexivity | reflexivity ] ].
  norm_state.
  erewrite bind_Ok; cycle 1.
  { unfold with_check.
    erewrite bind_Ok;
      [| eapply check_opens; [left; reflexivity | reflexivity | exact Hcheck ] ].
    unfold __enter__, ret.
    erewrite __exit___unrecorded; [reflexivity | reflexivity .. ]. }
  norm_state.
  erewrite bind_Ok;
    [| eapply end_test_step_runs; [reflexivity | reflexivity | reflexivity ] ].
  norm_state.
  erewrite bind_Ok;
    [| eapply end_test_case_runs; [reflexivity | reflexivity | reflexivity ] ].
  norm_state.
  erewrite bind_Ok; [| eapply end_test_scenario_runs; [reflexivity | reflexivity ] ].
  rewrite (skip_cleanup_runs _ doc); [| reflexivity | reflexivity | exact Hclean ].
  eexists _, _, _, _. split; [reflexivity |].
  do 14 (split; [reflexivity |]).
  eexists _, _.
  match goal with
  | |- context [get_report t7 ?st] =>
      pose proof (get_report_when_settled t7 st _ eq_refl (or_intror eq_refl)) as Hg
  end.
  rewrite Hg. erewrite evaluate_success_runs; [| reflexivity |].
  - split; [reflexivity |]. repeat split; reflexivity.
  - split; [| exact I ]. repeat constructor; eexists; split; [reflexivity |].
    repeat constructor. eexists. reflexivity.
Qed.

Lemma example_declarations :
  last_declared case_name "Setup" (cases example_documentation) = Some example_case
  /\ last_declared step_name "Clear area" (steps example_case) = Some example_step
  /\ last_declared check_name "Area is clear" (checks example_step) = Some example_check.
Proof. repeat split; vm_compute; reflexivity. Qed.

Lemma nominal_run_succeeds_witness :
  exists s' r',
    nominal_run "Setup" "Clear area" "Area is clear" 1%Z 2%Z 3%Z 4%Z 5%Z 6%Z
      (new_scenario example_documentation None) = (Ok tt, s')
    /\ _phase s' = Complete
    /\ exists s'',
         get_report 7%Z s' = (Ok r', s'') /\ successful r' = Some true.
Proof.
  destruct example_declarations as (H1 & H2 & H3).
  destruct (nominal_run_succeeds "Setup" "Clear area" "Area is clear"
              1%Z 2%Z 3%Z 4%Z 5%Z 6%Z 7%Z (new_scenario example_documentation None)
              example_documentation {| scenario_type := "scenarios.Example" |}
              example_case example_step example_check
              (new_scenario_initial _ _) eq_refl eq_refl H1 H2 H3 (or_introl eq_refl))
    as (s' & r & cr & sr & R1 & R2 & R).
  do 13 (destruct R as [_ R]). destruct R as (r' & s'' & G1 & G2 & _).
  exists s', r'. split; [exact R1 |]. split; [exact R2 |].
  exists s''. split; assumption.
Defined.

(** ** A run with a failed check *)

Lemma with_failed_check_runs run_callback name summary details severity participants
    now s d cd l sr :
  In (_phase s) [RunningTestStep; CleaningUp] ->
  _current_step s = Some d ->
  PyDict.get name (PyDict.comprehension check_name (checks d)) = Some cd ->
  _step_report s = Some l ->
  step_store s !! l = Some sr ->
  on_failed_check s = None ->
  let c := {| _documentation := cd;
              _participants := match participants with None => [] | Some p => p end;
              pc_step_report := Some l;
              _on_failed_check := None;
              _outcome_recorded := false |} in
  let failed_check :=
    {| fc_name := check_name cd;
       fc_documentation_url := check_url cd;
       fc_timestamp := SBDT now;
       fc_summary := summary;
       fc_details := details;
       fc_requirements := applicable_requirements cd;
       fc_severity := severity;
       fc_participants := match participants with None => [] | Some p => p end;
       fc_additional_data := None;
       fc_query_report_timestamps := None |} in
  with_check (check name participants)
    (fun c => record_failed run_callback c summary severity details None None None
                None now) s
  = (severity_signal severity summary,
     outcome_recorded_state (length (check_store s)) c l
       (step_with_failed_checks (failed_checks sr ++ [failed_check]) sr)
       (set_check_store (check_store s ++ [c]) s)).
Proof.
  intros Hphase Hd Hget Hl Hsr Hnone c failed_check.
  pose proof (check_opens name participants s d cd Hphase Hd Hget) as Hopen.
  rewrite Hl, Hnone in Hopen. fold c in Hopen.
  set (s1 := set_check_store (check_store s ++ [c]) s) in *.
  assert (Hc : check_store s1 !! length (check_store s) = Some c)
    by (simpl; apply list_lookup_middle; reflexivity).
  pose proof (record_failed_runs run_callback (length (check_store s)) summary severity
                details None None None None now s1 c l sr Hc eq_refl Hsr) as Hfail.
  cbv zeta in Hfail. cbn [_on_failed_check _documentation _participants c] in Hfail.
  unfold with_check. erewrite bind_Ok by exact Hopen. unfold __enter__, ret.
  rewrite Hfail.
  rewrite (__exit___recorded _ _ (check_with_outcome_recorded true c));
    [reflexivity | simpl; eapply lookup_insert_same; exact Hc | reflexivity ].
Qed.

(** X12. On a scenario as the factory constructs it (documentation and
    declaration bound), without failure observer and without
    documented cleanup, a driver that opens a declared check and records a
    failure of some severity, then goes to cleanup and skips it: the step
    ends the way the severity says, the scenario completes, the step report
    holds the failed check and no passed check, and [get_report] returns a
    report without execution error whose [successful] is true for [Low] and
    false for [High] and [Critical]. *)
Theorem failing_run_outcome
    (run_callback : Callback -> FailedCheck -> M unit)
    (case step check_ summary : string) (severity : Severity)
    (t1 t2 t3 t4 t5 : datetime) (s : State)
    (doc : TestScenarioDocumentation) (decl : TestScenarioDeclaration)
    (c : TestCaseDocumentation) (d : TestStepDocumentation)
    (cd : TestCheckDocumentation) :
  initial s ->
  documentation s = Some doc ->
  declaration s = Some decl ->
  on_failed_check s = None ->
  last_declared case_name case (cases doc) = Some c ->
  last_declared step_name step (steps c) = Some d ->
  last_declared check_name check_ (checks d) = Some cd ->
  cleanup doc = None \/ cleanup doc = Some None ->
  exists s1 s2 sr r' s3,
    failing_step run_callback case step check_ summary severity t1 t2 t3 t4 s
    = (severity_signal severity summary, s1)
    /\ leave_without_cleanup s1 = (Ok tt, s2)
    /\ _phase s2 = Complete
    /\ step_store s2 = [sr]
    /\ map fc_summary (failed_checks sr) = [summary]
    /\ map fc_severity (failed_checks sr) = [severity]
    /\ passed_checks sr = []
    /\ get_report t5 s2 = (Ok r', s3)
    /\ execution_error r' = None
    /\ successful r'
       = Some (match severity with Low => true | High | Critical => false end).
Proof.
  intros (Hp & Hr & Hcc & Hcr & Hcs & Hsr & Hc & Hs & Hk) Hdoc Hdecl Hnone
    Hcase Hstep Hcheck Hclean.
  rewrite <- comprehension_last in Hcase.
  rewrite <- comprehension_last in Hstep.
  rewrite <- comprehension_last in Hcheck.
  destruct s as [decl_ doc_ me_ cb ph rep cc crl cst srl cstore sstore kstore].
  simpl in *. subst.
  unfold failing_step, leave_without_cleanup.
  erewrite bind_Ok; [| apply begin_test_scenario_runs; reflexivity ].
  norm_state.
  erewrite bind_Ok;
    [| eapply begin_test_case_runs;
       [reflexivity | reflexivity | reflexivity | constructor | exact Hcase
       | intros l cr [] ] ].
  norm_state.
  erewrite bind_Ok;
    [| eapply begin_test_step_runs;
       [reflexivity | reflexivity | exact Hstep | reflexivity | reflexivity ] ].
  norm_state.
  erewrite with_failed_check_runs;
    [| left; reflexivity | reflexivity | exact Hcheck | reflexivity | reflexivity
     | reflexivity ].
  eexists _, _, _, _, _. split; [reflexivity |]. split.
  { erewrite bind_Ok; [| apply go_to_cleanup_runs; simpl; auto ].
    apply (skip_cleanup_runs _ doc); [reflexivity | reflexivity | exact Hclean ]. }
  do 5 (split; [reflexivity |]).
  match goal with
  | |- context [get_report t5 ?st] =>
      pose proof (get_report_when_settled t5 st _ eq_refl (or_intror eq_refl)) as Hg
  end.
  rewrite Hg. erewrite evaluate_success_runs; [| reflexivity |].
  - split; [reflexivity |]. split; [reflexivity |]. now destruct severity.
  - split; [| exact I ]. repeat constructor; eexists; split; [reflexivity |].
    repeat constructor. eexists. reflexivity.
Qed.

Lemma failing_run_outcome_witness :
  exists s1 s2 r' s3,
    failing_step no_callbacks "Setup" "Clear area" "Area is clear" "area not clear"
      Critical 1%Z 2%Z 3%Z 4%Z (new_scenario example_documentation None)
    = (Raise (TestRunCannotContinueError (SeverityIssue Critical "area not clear")), s1)
    /\ leave_without_cleanup s1 = (Ok tt, s2)
    /\ get_report 5%Z s2 = (Ok r', s3)
    /\ execution_error r' = None
    /\ successful r' = Some false.
Proof.
  destruct example_declarations as (H1 & H2 & H3).
  destruct (failing_run_outcome no_callbacks "Setup" "Clear area" "Area is clear"
              "area not clear" Critical 1%Z 2%Z 3%Z 4%Z 5%Z
              (new_scenario example_documentation None)
              example_documentation {| scenario_type := "scenarios.Example" |}
              example_case example_step example_check
              (new_scenario_initial _ _) eq_refl eq_refl eq_refl H1 H2 H3
              (or_introl eq_refl))
    as (s1 & s2 & sr & r' & s3 & R1 & R2 & _ & _ & _ & _ & _ & R3 & R4 & R5).
  exists s1, s2, r', s3. repeat split; assumption.
Defined.

(** ** The factory, when it constructs *)

Section FactoryConstruction.
Context {Resource : Type}.
Variable import_submodules : Outcome unit.
Variable get_module_object_by_name : string -> Outcome (@PyClass Resource).

Lemma populate_succeeds declaration (resource_pool : list (ResourceID * Resource))
    parameters :
  (forall a, In a parameters -> a <> "self" -> PyDict.get a resource_pool <> None) ->
  forall constructor_args,
  exists bound,
    populate_constructor_args declaration resource_pool parameters constructor_args
    = Ok bound.
Proof.
  induction parameters as [| p parameters IH]; intros Hall acc; simpl.
  - eauto.
  - destruct (String.eqb p "self") eqn:Ep.
    + apply IH. intros a Hin. apply Hall. now right.
    + apply String.eqb_neq in Ep.
      destruct (PyDict.get p resource_pool) as [r |] eqn:Hp.
      * apply IH. intros a Hin. apply Hall. now right.
      * exfalso. apply (Hall p); [now left | exact Ep | exact Hp ].
Qed.

(** X14. The constructor is called exactly when the import succeeds, the scenario
    type resolves to a subclass of [TestScenario] and the pool has every
    parameter other than [self]; in every other case the factory raises.  A
    scenario is only ever returned after a constructor call. *)
Theorem constructor_is_called_exactly_when
    (declaration : TestScenarioDeclaration)
    (resource_pool : list (ResourceID * Resource)) :
  (snd (make_test_scenario import_submodules get_module_object_by_name
          declaration resource_pool) <> []
   <-> import_submodules = Ok tt
       /\ exists scenario_class,
            get_module_object_by_name (scenario_type declaration) = Ok scenario_class
            /\ issubclass_TestScenario scenario_class = true
            /\ forall a, In a (init_parameters scenario_class) -> a <> "self" ->
                         PyDict.get a resource_pool <> None)
  /\ (snd (make_test_scenario import_submodules get_module_object_by_name
             declaration resource_pool) = [] ->
      exists e,
        fst (make_test_scenario import_submodules get_module_object_by_name
               declaration resource_pool) = Raise e).
Proof.
  unfold make_test_scenario.
  destruct import_submodules as [[] | e0]; cycle 1.
  { split; [split; [intros H; now contradiction H | intros [H _]; discriminate H ] |].
    intros _. eauto. }
  destruct (get_module_object_by_name (scenario_type declaration)) as [cls | e1];
    cycle 1.
  { split; [split; [intros H; now contradiction H |] |].
    - intros (_ & cls & H & _). discriminate H.
    - intros _. eauto. }
  destruct (issubclass_TestScenario cls) eqn:Hsub; simpl; cycle 1.
  { split; [split; [intros H; now contradiction H |] |].
    - intros (_ & cls' & H & Hsub' & _). injection H as <-. congruence.
    - intros _. eauto. }
  destruct (populate_constructor_args declaration resource_pool (init_parameters cls) [])
    as [bound | e2] eqn:Hrun.
  - split.
    + split.
      * intros _. split; [reflexivity |]. exists cls. split; [reflexivity |].
        split; [exact Hsub |]. intros a Hin Hne.
        destruct (populate_resolved get_module_object_by_name declaration
                    resource_pool _ _ _ Hrun a) as [H1 _].
        destruct (H1 (conj Hin Hne)) as (r & Hr & _). congruence.
      * intros _. destruct (constructor cls bound); discriminate.
    + destruct (constructor cls bound); discriminate.
  - split; [split; [intros H; now contradiction H |] |].
    + intros (_ & cls' & H & _ & Hall). injection H as <-.
      destruct (populate_succeeds declaration resource_pool _ Hall []) as [b Hb].
      congruence.
    + intros _. eauto.
Qed.
End FactoryConstruction.


(** ** A step run again *)

(** X16. Unlike a test case, a test step can be run again: after a step of a
    declared name has been begun and ended, [begin_test_step] accepts the
    same name once more.  The case report then refers to two step reports of
    that name, the first one ended and the second one open. *)
Theorem step_can_be_run_again
    (name : string) (t1 t2 t3 : datetime) (s : State)
    (current_case : TestCaseDocumentation) (d : TestStepDocumentation)
    (cl : loc) (cr : TestCaseReport) :
  _phase s = ReadyForTestStep ->
  _current_case s = Some current_case ->
  PyDict.get name (PyDict.comprehension step_name (steps current_case)) = Some d ->
  _case_report s = Some cl ->
  case_store s !! cl = Some cr ->
  exists s' cr' sr1 sr2,
    (begin_test_step name t1 ;;; end_test_step t2 ;;; begin_test_step name t3) s
    = (Ok tt, s')
    /\ _phase s' = RunningTestStep
    /\ case_store s' !! cl = Some cr'
    /\ cr_steps cr' = cr_steps cr ++ [length (step_store s); S (length (step_store s))]
    /\ step_store s' !! length (step_store s) = Some sr1
    /\ step_store s' !! S (length (step_store s)) = Some sr2
    /\ sr_name sr1 = step_name d /\ sr_end_time sr1 = Some (SBDT t2)
    /\ sr_name sr2 = step_name d /\ sr_end_time sr2 = None
    /\ _step_report s' = Some (S (length (step_store s))).
Proof.
  intros Hphase Hcc Hget Hcl Hcr.
  pose proof (lookup_lt_Some _ _ _ Hcr) as Hlt.
  set (sr := {| sr_name := step_name d; sr_documentation_url := step_url d;
                sr_start_time := SBDT t1; sr_end_time := None;
                failed_checks := []; passed_checks := []; queries := None |}).
  set (cr1 := case_with_steps (cr_steps cr ++ [length (step_store s)]) cr).
  eexists _, _, _, _. split.
  - erewrite bind_Ok;
      [| exact (begin_test_step_runs name t1 s current_case d cl cr
                  Hphase Hcc Hget Hcl Hcr) ].
    erewrite bind_Ok;
      [| apply (end_test_step_runs t2 _ (length (step_store s)) sr);
         [reflexivity | reflexivity |];
         cbn [step_store set_phase set_case_store set_step_report set_step_store
                set_current_step];
         apply list_lookup_middle; reflexivity ].
    apply (begin_test_step_runs name t3 _ current_case d cl cr1);
      [reflexivity | exact Hcc | exact Hget | exact Hcl |].
    cbn [case_store set_phase set_case_store set_step_report set_step_store
           set_current_step].
    now apply list_lookup_insert_eq.
  - cbn [_phase case_store step_store _step_report set_phase set_case_store
           set_step_report set_step_store set_current_step].
    rewrite list_insert_insert_eq, length_insert, length_app, Nat.add_1_r.
    split; [reflexivity |].
    split; [now apply list_lookup_insert_eq |].
    split; [cbn; now rewrite <- app_assoc |].
    split.
    { rewrite lookup_app_l by (rewrite length_insert, length_app; simpl; lia).
      apply list_lookup_insert_eq. rewrite length_app. simpl. lia. }
    split.
    { apply list_lookup_middle. rewrite length_insert, length_app. simpl. lia. }
    repeat split.
Qed.

Lemma step_can_be_run_again_witness :
  exists s' cr',
    (begin_test_step "Clear area" 3%Z ;;; end_test_step 4%Z ;;;
     begin_test_step "Clear area" 5%Z)
      (snd (begin_test_case "Setup" 2%Z example_started)) = (Ok tt, s')
    /\ _phase s' = RunningTestStep
    /\ case_store s' !! 0 = Some cr'
    /\ cr_steps cr' = [0; 1].
Proof.
  destruct example_in_case_objects as (H1 & H2 & H3 & H4).
  destruct (step_can_be_run_again "Clear area" 3%Z 4%Z 5%Z _ example_case example_step
              0 _ H1 H2 eq_refl H3 H4)
    as (s' & cr' & sr1 & sr2 & R1 & R2 & R3 & R4 & _).
  exists s', cr'. repeat split; assumption.
Defined.

(** ** An undeclared check during cleanup *)

Lemma begin_cleanup_runs now s doc d r :
  _phase s = ReadyForCleanup ->
  documentation s = Some doc ->
  cleanup doc = Some (Some d) ->
  _scenario_report s = Some r ->
  begin_cleanup now s
  = (Ok tt,
     set_phase CleaningUp
       (set_scenario_report (Some (report_with_cleanup (Some (length (step_store s))) r))
          (set_step_report (Some (length (step_store s)))
             (set_step_store
                (step_store s
                 ++ [ {| sr_name := step_name d;
                         sr_documentation_url := step_url d;
                         sr_start_time := SBDT now;
                         sr_end_time := None;
                         failed_checks := [];
                         passed_checks := [];
                         queries := None |} ])
                (set_current_step (Some d) s))))).
Proof.
  intros Hphase Hdoc Hd Hr. unfold begin_cleanup.
  erewrite bind_Ok; [| apply _expect_phase_Ok; rewrite Hphase; reflexivity ].
  rewrite bind_get, Hdoc. cbn [attr_of]. rewrite bind_ret, Hd.
  cbv beta iota delta [bind modify new_step_report update_scenario_report get ret
                         attr_of].
  simpl. rewrite Hr. reflexivity.
Qed.

(** X17. After the cases have been run to the end, no case is current.  When the
    scenario then goes through [end_test_scenario] and [begin_cleanup], a
    check whose name the cleanup step does not declare is not answered with
    the [RuntimeError] that lists the declared checks: building that message
    reads the name of the current case, so [check] and [_get_check] raise
    [AttributeError], and change nothing. *)
Theorem undeclared_check_in_cleanup
    (name : string) (participants : option (list ParticipantID))
    (t1 t2 : datetime) (s : State) (r : TestScenarioReport)
    (doc : TestScenarioDocumentation) (d : TestStepDocumentation) :
  _phase s = ReadyForTestCase ->
  _current_case s = None ->
  _scenario_report s = Some r ->
  documentation s = Some doc ->
  cleanup doc = Some (Some d) ->
  ~ In name (map check_name (checks d)) ->
  exists s',
    (end_test_scenario t1 ;;; begin_cleanup t2) s = (Ok tt, s')
    /\ _phase s' = CleaningUp
    /\ _current_step s' = Some d
    /\ check name participants s' = (Raise AttributeError, s')
    /\ _get_check name s' = (Raise AttributeError, s').
Proof.
  intros Hphase Hcc Hr Hdoc Hd Hname.
  assert (Hget : PyDict.get name (PyDict.comprehension check_name (checks d)) = None)
    by now apply comprehension_None.
  eexists. split.
  - erewrite bind_Ok; [| exact (end_test_scenario_runs t1 s r Hphase Hr) ].
    apply (begin_cleanup_runs t2 _ doc d (report_with_end_time (SBDT t1) r));
      [reflexivity | exact Hdoc | exact Hd | reflexivity ].
  - split; [reflexivity |]. split; [reflexivity |]. split.
    + unfold check.
      erewrite bind_Ok; [| apply _expect_phase_Ok; reflexivity ].
      rewrite bind_get.
      cbn [_current_step _current_case set_phase set_scenario_report set_step_report
             set_step_store set_current_step attr_of].
      rewrite bind_ret, Hget, Hcc. reflexivity.
    + unfold _get_check. rewrite bind_get.
      cbn [_current_step _current_case set_phase set_scenario_report set_step_report
             set_step_store set_current_step attr_of].
      rewrite bind_ret, Hget, Hcc. reflexivity.
Qed.

Lemma example_cases_done_objects :
  _phase example_cases_done = ReadyForTestCase
  /\ _current_case example_cases_done = None
  /\ documentation example_cases_done = Some example_documentation_with_cleanup
  /\ exists r, _scenario_report example_cases_done = Some r.
Proof.
  split; [vm_compute; reflexivity |]. split; [vm_compute; reflexivity |].
  split; [vm_compute; reflexivity |]. eexists. vm_compute. reflexivity.
Qed.

Lemma undeclared_check_in_cleanup_witness :
  exists s',
    (end_test_scenario 6%Z ;;; begin_cleanup 7%Z) example_cases_done = (Ok tt, s')
    /\ check "Area is clear" None s' = (Raise AttributeError, s').
Proof.
  destruct example_cases_done_objects as (H1 & H2 & H3 & r & H4).
  destruct (undeclared_check_in_cleanup "Area is clear" None 6%Z 7%Z example_cases_done
              r example_documentation_with_cleanup example_cleanup_step
              H1 H2 H4 H3 eq_refl)
    as (s' & R1 & _ & _ & R2 & _).
  - simpl. intros [E | []]. discriminate E.
  - exists s'. split; assumption.
Defined.

(** ** Queries *)

Lemma record_query_runs query s l sr :
  In (_phase s) [RunningTestStep; CleaningUp] ->
  _step_report s = Some l ->
  step_store s !! l = Some sr ->
  record_query query s
  = (Ok tt,
     set_step_store
       (<[l := step_with_queries
                 (Some (match queries sr with Some q => q | None => [] end ++ [query]))
                 sr]> (step_store s)) s).
Proof.
  intros Hphase Hl Hsr. unfold record_query.
  erewrite bind_Ok; [| apply _expect_phase_Ok; now apply phase_in_In ].
  rewrite bind_get, Hl. exact (update_step_report_runs _ _ _ _ Hsr).
Qed.

Lemma record_queries_run (rest : list Query) :
  forall query s l sr,
    In (_phase s) [RunningTestStep; CleaningUp] ->
    _step_report s = Some l ->
    step_store s !! l = Some sr ->
    for_each (query :: rest) record_query s
    = (Ok tt,
       set_step_store
         (<[l := step_with_queries
                   (Some (match queries sr with Some q => q | None => [] end
                          ++ query :: rest))
                   sr]> (step_store s)) s).
Proof.
  induction rest as [| query' rest IH]; intros query s l sr Hphase Hl Hsr.
  - simpl. erewrite bind_Ok; [| exact (record_query_runs query s l sr Hphase Hl Hsr) ].
    reflexivity.
  - change (for_each (query :: query' :: rest) record_query)
      with (record_query query ;;; for_each (query' :: rest) record_query).
    erewrite bind_Ok; [| exact (record_query_runs query s l sr Hphase Hl Hsr) ].
    rewrite (IH query' _ l
               (step_with_queries
                  (Some (match queries sr with Some q => q | None => [] end ++ [query]))
                  sr));
      [| exact Hphase | exact Hl | exact (lookup_insert_same _ _ _ _ Hsr) ].
    cbn [step_store set_step_store queries step_with_queries].
    rewrite list_insert_insert_eq, <- app_assoc. reflexivity.
Qed.

(** X18. The queries recorded during a step (or during cleanup) are kept in the
    order in which they were recorded, after those the step report already
    holds; none is dropped, and nothing else of the scenario changes.  The
    first query creates the list: a step without queries has no [queries]
    key at all. *)
Theorem recorded_queries_keep_their_order
    (recorded : list Query) (s : State) (l : loc) (sr : TestStepReport) :
  In (_phase s) [RunningTestStep; CleaningUp] ->
  _step_report s = Some l ->
  step_store s !! l = Some sr ->
  exists s' sr',
    for_each recorded record_query s = (Ok tt, s')
    /\ s' = set_step_store (step_store s') s
    /\ step_store s' = <[l := sr']> (step_store s)
    /\ sr' = step_with_queries (queries sr') sr
    /\ queries sr'
       = match recorded with
         | [] => queries sr
         | _ => Some (match queries sr with Some q => q | None => [] end ++ recorded)
         end.
Proof.
  intros Hphase Hl Hsr. destruct recorded as [| query rest].
  - exists s, sr. split; [reflexivity |].
    split; [now destruct s |].
    split; [symmetry; now apply list_insert_id |].
    split; [now destruct sr | reflexivity ].
  - eexists _, _. split; [exact (record_queries_run rest query s l sr Hphase Hl Hsr) |].
    repeat split.
Qed.

Lemma recorded_queries_keep_their_order_witness :
  exists s' sr',
    for_each [ {| q_method := "GET"; q_url := "uss1/flights"; q_status_code := 200%Z |};
               {| q_method := "PUT"; q_url := "uss1/flights/1"; q_status_code := 409%Z |} ]
      record_query (example_running None) = (Ok tt, s')
    /\ step_store s' = [sr']
    /\ queries sr'
       = Some [ {| q_method := "GET"; q_url := "uss1/flights"; q_status_code := 200%Z |};
                {| q_method := "PUT"; q_url := "uss1/flights/1";
                   q_status_code := 409%Z |} ].
Proof.
  destruct example_running_objects as [Hp _].
  destruct example_running_step as (Hl & Hsr & _).
  destruct (recorded_queries_keep_their_order
              [ {| q_method := "GET"; q_url := "uss1/flights"; q_status_code := 200%Z |};
                {| q_method := "PUT"; q_url := "uss1/flights/1";
                   q_status_code := 409%Z |} ]
              (example_running None) 0 example_step_report (or_introl (eq_sym Hp)) Hl Hsr)
    as (s' & sr' & R1 & _ & R2 & _ & R3).
  exists s', sr'. split; [exact R1 |]. split; [| exact R3 ].
  rewrite R2. vm_compute. reflexivity.
Defined.

(** ** The constructor of the priority scenario *)



(** ** What was recorded stays recorded *)

Lemma step_extends_refl a : step_extends a a.
Proof. unfold step_extends. repeat split; try reflexivity. intros q Hq. now exists q. Qed.

Lemma step_extends_trans a b c : step_extends a b -> step_extends b c -> step_extends a c.
Proof.
  intros (A1 & A2 & A3 & A4 & A5 & A6) (B1 & B2 & B3 & B4 & B5 & B6).
  unfold step_extends. repeat split; try congruence; try (etransitivity; eassumption).
  intros q Hq. destruct (A6 q Hq) as (q' & Hq' & Hp).
  destruct (B6 q' Hq') as (q'' & Hq'' & Hp'). exists q''.
  split; [assumption | etransitivity; eassumption ].
Qed.

Lemma case_extends_refl a : case_extends a a.
Proof. unfold case_extends. repeat split; reflexivity. Qed.

Lemma case_extends_trans a b c : case_extends a b -> case_extends b c -> case_extends a c.
Proof.
  intros (A1 & A2 & A3 & A4) (B1 & B2 & B3 & B4).
  unfold case_extends. repeat split; try congruence. etransitivity; eassumption.
Qed.

Lemma check_extends_refl a : check_extends a a.
Proof. unfold check_extends. repeat split; auto. Qed.

Lemma check_extends_trans a b c :
  check_extends a b -> check_extends b c -> check_extends a c.
Proof.
  intros (A1 & A2 & A3 & A4 & A5) (B1 & B2 & B3 & B4 & B5).
  unfold check_extends. repeat split; try congruence. auto.
Qed.

Lemma store_extends_refl {A} (later : A -> A -> Prop) h :
  (forall a, later a a) -> store_extends later h h.
Proof. intros Hrefl l a Hl. exists a. split; [assumption | apply Hrefl ]. Qed.

Lemma store_extends_trans {A} (later : A -> A -> Prop) h1 h2 h3 :
  (forall a b c, later a b -> later b c -> later a c) ->
  store_extends later h1 h2 -> store_extends later h2 h3 -> store_extends later h1 h3.
Proof.
  intros Htrans H12 H23 l a Hl. destruct (H12 l a Hl) as (b & Hb & Hab).
  destruct (H23 l b Hb) as (c & Hc & Hbc). exists c.
  split; [assumption | now apply (Htrans a b c) ].
Qed.

Lemma store_extends_app {A} (later : A -> A -> Prop) h more :
  (forall a, later a a) -> store_extends later h (h ++ more).
Proof.
  intros Hrefl l a Hl. exists a. split; [| apply Hrefl ].
  now apply lookup_app_l_Some.
Qed.

Lemma store_extends_insert {A} (later : A -> A -> Prop) h l a b :
  (forall a, later a a) -> h !! l = Some a -> later a b ->
  store_extends later h (<[l := b]> h).
Proof.
  intros Hrefl Hl Hab l' a' Hl'. destruct (decide (l' = l)) as [-> | Hne].
  - exists b. split; [now apply (lookup_insert_same h l a) | congruence ].
  - exists a'. split; [| apply Hrefl ]. now rewrite list_lookup_insert_ne.
Qed.

Lemma stores_extend_refl s : stores_extend s s.
Proof.
  repeat split; apply store_extends_refl;
    [apply step_extends_refl | apply case_extends_refl | apply check_extends_refl ].
Qed.

Lemma stores_extend_trans s1 s2 s3 :
  stores_extend s1 s2 -> stores_extend s2 s3 -> stores_extend s1 s3.
Proof.
  intros (A1 & A2 & A3) (B1 & B2 & B3). repeat split.
  - exact (store_extends_trans _ _ _ _ step_extends_trans A1 B1).
  - exact (store_extends_trans _ _ _ _ case_extends_trans A2 B2).
  - exact (store_extends_trans _ _ _ _ check_extends_trans A3 B3).
Qed.

Lemma keeps_bind {A B} (m : M A) (k : A -> M B) :
  keeps_stores m -> (forall a, keeps_stores (k a)) -> keeps_stores (bind m k).
Proof.
  intros Hm Hk s. unfold bind. specialize (Hm s).
  destruct (m s) as [[a | e] s1]; simpl in *; [| exact Hm ].
  exact (stores_extend_trans _ _ _ Hm (Hk a s1)).
Qed.

Lemma keeps_ret {A} (a : A) : keeps_stores (ret a).
Proof. intros s. apply stores_extend_refl. Qed.

Lemma keeps_raise {A} e : keeps_stores (@raise A e).
Proof. intros s. apply stores_extend_refl. Qed.

Lemma keeps_get : keeps_stores get.
Proof. intros s. apply stores_extend_refl. Qed.

(** An assignment to an attribute of the scenario leaves the store alone. *)
Lemma keeps_modify (f : State -> State) :
  (forall s, step_store (f s) = step_store s
             /\ case_store (f s) = case_store s
             /\ check_store (f s) = check_store s) ->
  keeps_stores (modify f).
Proof.
  intros Hf s. destruct (Hf s) as (H1 & H2 & H3). unfold modify, stores_extend.
  simpl. rewrite H1, H2, H3. apply stores_extend_refl.
Qed.

Lemma keeps_try {A} (m : M A) (h : Exn -> M A) :
  keeps_stores m -> (forall e, keeps_stores (h e)) ->
  keeps_stores (try_except_RuntimeError m h).
Proof.
  intros Hm Hh s. unfold try_except_RuntimeError. specialize (Hm s).
  destruct (m s) as [[a | e] s1]; simpl in *; [exact Hm |].
  destruct (is_RuntimeError e); [| exact Hm ].
  exact (stores_extend_trans _ _ _ Hm (Hh e s1)).
Qed.

Lemma keeps_for_each {A} (xs : list A) (body : A -> M unit) :
  (forall x, keeps_stores (body x)) -> keeps_stores (for_each xs body).
Proof.
  intros Hbody. induction xs as [| x xs IH]; simpl; [apply keeps_ret |].
  apply keeps_bind; [apply Hbody | intros _; exact IH ].
Qed.

Lemma keeps_list_comprehension {A B} (xs : list A) (f : A -> M B) :
  (forall x, keeps_stores (f x)) -> keeps_stores (list_comprehension xs f).
Proof.
  intros Hf. induction xs as [| x xs IH]; simpl; [apply keeps_ret |].
  apply keeps_bind; [apply Hf | intros y ].
  apply keeps_bind; [exact IH | intros ys; apply keeps_ret ].
Qed.

Lemma keeps_attr_of {A} (o : option A) : keeps_stores (attr_of o).
Proof. destruct o; [apply keeps_ret | apply keeps_raise ]. Qed.

Lemma keeps_deref {A} (h : list A) l : keeps_stores (deref h l).
Proof. unfold deref. destruct (h !! l); [apply keeps_ret | apply keeps_raise ]. Qed.

Lemma keeps_expect_phase caller ps : keeps_stores (_expect_phase caller ps).
Proof.
  intros s. unfold _expect_phase. rewrite bind_get.
  destruct (phase_in (_phase s) ps); apply stores_extend_refl.
Qed.

Lemma keeps_new_case_report r : keeps_stores (new_case_report r).
Proof.
  intros s. unfold new_case_report. rewrite bind_get, bind_modify. simpl.
  split; [| split ];
    [apply store_extends_refl, step_extends_refl
    | apply store_extends_app, case_extends_refl
    | apply store_extends_refl, check_extends_refl ].
Qed.

Lemma keeps_new_step_report r : keeps_stores (new_step_report r).
Proof.
  intros s. unfold new_step_report. rewrite bind_get, bind_modify. simpl.
  split; [| split ];
    [apply store_extends_app, step_extends_refl
    | apply store_extends_refl, case_extends_refl
    | apply store_extends_refl, check_extends_refl ].
Qed.

Lemma keeps_new_pending_check c : keeps_stores (new_pending_check c).
Proof.
  intros s. unfold new_pending_check. rewrite bind_get, bind_modify. simpl.
  split; [| split ];
    [apply store_extends_refl, step_extends_refl
    | apply store_extends_refl, case_extends_refl
    | apply store_extends_app, check_extends_refl ].
Qed.

Lemma keeps_update_case_report l f :
  (forall r, case_extends r (f r)) -> keeps_stores (update_case_report l f).
Proof.
  intros Hf s. unfold update_case_report, deref. rewrite bind_get.
  destruct (case_store s !! l) as [r |] eqn:Hl; [| apply stores_extend_refl ].
  rewrite bind_ret. simpl.
  split; [| split ];
    [apply store_extends_refl, step_extends_refl
    | apply (store_extends_insert _ _ _ r); [apply case_extends_refl | exact Hl | apply Hf ]
    | apply store_extends_refl, check_extends_refl ].
Qed.

Lemma keeps_update_step_report l f :
  (forall r, step_extends r (f r)) -> keeps_stores (update_step_report l f).
Proof.
  intros Hf s. unfold update_step_report, deref. rewrite bind_get.
  destruct (step_store s !! l) as [r |] eqn:Hl; [| apply stores_extend_refl ].
  rewrite bind_ret. simpl.
  split; [| split ];
    [apply (store_extends_insert _ _ _ r); [apply step_extends_refl | exact Hl | apply Hf ]
    | apply store_extends_refl, case_extends_refl
    | apply store_extends_refl, check_extends_refl ].
Qed.

Lemma keeps_update_pending_check l f :
  (forall c, check_extends c (f c)) -> keeps_stores (update_pending_check l f).
Proof.
  intros Hf s. unfold update_pending_check, deref. rewrite bind_get.
  destruct (check_store s !! l) as [c |] eqn:Hl; [| apply stores_extend_refl ].
  rewrite bind_ret. simpl.
  split; [| split ];
    [apply store_extends_refl, step_extends_refl
    | apply store_extends_refl, case_extends_refl
    | apply (store_extends_insert _ _ _ c);
      [apply check_extends_refl | exact Hl | apply Hf ] ].
Qed.

Lemma keeps_update_scenario_report f : keeps_stores (update_scenario_report f).
Proof.
  unfold update_scenario_report.
  apply keeps_bind; [apply keeps_get | intros s ].
  apply keeps_bind; [apply keeps_attr_of | intros r ].
  apply keeps_modify. intros s'. split; [| split ]; reflexivity.
Qed.

Lemma keeps__make_scenario_report now : keeps_stores (_make_scenario_report now).
Proof.
  unfold _make_scenario_report.
  apply keeps_bind; [apply keeps_get | intros s ].
  apply keeps_bind; [apply keeps_attr_of | intros doc ].
  apply keeps_bind; [apply keeps_attr_of | intros decl ].
  apply keeps_modify. intros s'. split; [| split ]; reflexivity.
Qed.

(** One step of the proofs below: the operation is taken apart along its
    binds and its case distinctions. *)
Ltac keeps_step :=
  cbv zeta;
  first
    [ apply keeps_ret | apply keeps_raise | apply keeps_get
    | apply keeps_expect_phase | apply keeps_attr_of | apply keeps_deref
    | apply keeps_new_case_report | apply keeps_new_step_report
    | apply keeps_new_pending_check | apply keeps_update_scenario_report
    | apply keeps__make_scenario_report
    | apply keeps_modify; solve [ intros ?; split; [| split ]; reflexivity ]
    | apply keeps_update_case_report;
      solve [ intros ?; unfold case_extends; simpl;
              repeat split; try reflexivity; apply prefix_app_r; reflexivity ]
    | apply keeps_update_step_report;
      solve [ intros ?; unfold step_extends; simpl;
              repeat split; try reflexivity;
              first [ apply prefix_app_r; reflexivity
                    | intros ? ?; eexists; split; [eassumption | reflexivity ] ] ]
    | apply keeps_update_pending_check;
      solve [ intros ?; unfold check_extends; simpl; repeat split; reflexivity ]
    | match goal with
      | |- keeps_stores (bind _ _) => apply keeps_bind; [| intros ? ]
      | |- keeps_stores (for_each _ _) => apply keeps_for_each; intros ?
      | |- keeps_stores (list_comprehension _ _) =>
          apply keeps_list_comprehension; intros ?
      | |- keeps_stores (match ?x with _ => _ end) => destruct x
      end ].

Ltac keeps := repeat keeps_step.

Lemma keeps_record_query query : keeps_stores (record_query query).
Proof.
  unfold record_query. keeps.
  apply keeps_update_step_report. intros r. unfold step_extends. simpl.
  repeat split; try reflexivity. intros q ->. eexists. split; [reflexivity |].
  now apply prefix_app_r.
Qed.

Lemma keeps_invoke op : keeps_stores (invoke op).
Proof.
  destruct op; simpl;
    [ unfold begin_test_scenario | unfold begin_test_case | unfold begin_test_step
    | unfold end_test_step | unfold end_test_case | unfold end_test_scenario
    | unfold go_to_cleanup | unfold begin_cleanup | unfold skip_cleanup
    | unfold end_cleanup | apply keeps_record_query | unfold check ];
    keeps.
Qed.

Lemma keeps_record_note key message now : keeps_stores (record_note key message now).
Proof. unfold record_note. keeps. Qed.

Lemma keeps_record_execution_error e now :
  keeps_stores (record_execution_error e now).
Proof. unfold record_execution_error. keeps. Qed.

Lemma keeps_get_report now : keeps_stores (get_report now).
Proof.
  unfold get_report, evaluate_success, flag_if_not_low, read_scenario_report,
    read_case_report, read_step_report.
  keeps; try apply keeps_try; try apply keeps_expect_phase;
    try (intros ?; apply keeps_record_execution_error).
Qed.

Lemma keeps_record_passed self participants requirements :
  keeps_stores (record_passed self participants requirements).
Proof. unfold record_passed. keeps. Qed.

Lemma keeps___exit__ self : keeps_stores (__exit__ self).
Proof. unfold __exit__. keeps. apply keeps_record_passed. Qed.

(** *** The scenario report *)

Lemma report_extends_refl a : report_extends a a.
Proof. unfold report_extends. repeat split; auto. Qed.

Lemma report_extends_trans a b c :
  report_extends a b -> report_extends b c -> report_extends a c.
Proof.
  intros (A1 & A2 & A3 & A4 & A5 & A6 & A7 & A8) (B1 & B2 & B3 & B4 & B5 & B6 & B7 & B8).
  unfold report_extends. repeat split; try congruence; auto.
  etransitivity; eassumption.
Qed.

Lemma report_kept_refl s : report_kept s s.
Proof. intros r Hr. exists r. split; [exact Hr | apply report_extends_refl ]. Qed.

Lemma report_kept_trans s1 s2 s3 :
  report_kept s1 s2 -> report_kept s2 s3 -> report_kept s1 s3.
Proof.
  intros H12 H23 r Hr. destruct (H12 r Hr) as (r2 & Hr2 & E12).
  destruct (H23 r2 Hr2) as (r3 & Hr3 & E23). exists r3.
  split; [exact Hr3 | exact (report_extends_trans _ _ _ E12 E23) ].
Qed.

(** An operation that changes neither the phase nor the scenario report. *)
Lemma keeps_report_same_view {A} (m : M A) :
  (forall s, _phase (snd (m s)) = _phase s
             /\ _scenario_report (snd (m s)) = _scenario_report s) ->
  keeps_report m.
Proof.
  intros Hm s Hinv. destruct (Hm s) as [Hp Hr]. split.
  - unfold report_invariant in *. now rewrite Hp, Hr.
  - intros r Hr0. exists r. split; [congruence | apply report_extends_refl ].
Qed.

Lemma keeps_report_bind {A B} (m : M A) (k : A -> M B) :
  keeps_report m -> (forall a, keeps_report (k a)) -> keeps_report (bind m k).
Proof.
  intros Hm Hk s Hinv. unfold bind. specialize (Hm s Hinv).
  destruct (m s) as [[a | e] s1]; simpl in *; [| exact Hm ].
  destruct Hm as [Hinv1 H1]. destruct (Hk a s1 Hinv1) as [Hinv2 H2].
  split; [exact Hinv2 | exact (report_kept_trans _ _ _ H1 H2) ].
Qed.

Lemma keeps_report_ret {A} (a : A) : keeps_report (ret a).
Proof. apply keeps_report_same_view. intros s. split; reflexivity. Qed.

Lemma keeps_report_raise {A} e : keeps_report (@raise A e).
Proof. apply keeps_report_same_view. intros s. split; reflexivity. Qed.

Lemma keeps_report_get : keeps_report get.
Proof. apply keeps_report_same_view. intros s. split; reflexivity. Qed.

Lemma keeps_report_modify (f : State -> State) :
  (forall s, _phase (f s) = _phase s /\ _scenario_report (f s) = _scenario_report s) ->
  keeps_report (modify f).
Proof. intros Hf. apply keeps_report_same_view. exact Hf. Qed.

Lemma keeps_report_attr_of {A} (o : option A) : keeps_report (attr_of o).
Proof. destruct o; [apply keeps_report_ret | apply keeps_report_raise ]. Qed.

Lemma keeps_report_deref {A} (h : list A) l : keeps_report (deref h l).
Proof.
  unfold deref. destruct (h !! l); [apply keeps_report_ret | apply keeps_report_raise ].
Qed.

Lemma keeps_report_for_each {A} (xs : list A) (body : A -> M unit) :
  (forall x, keeps_report (body x)) -> keeps_report (for_each xs body).
Proof.
  intros Hbody. induction xs as [| x xs IH]; simpl; [apply keeps_report_ret |].
  apply keeps_report_bind; [apply Hbody | intros _; exact IH ].
Qed.

Lemma keeps_report_expect_phase caller ps : keeps_report (_expect_phase caller ps).
Proof.
  apply keeps_report_same_view. intros s. unfold _expect_phase. rewrite bind_get.
  destruct (phase_in (_phase s) ps); split; reflexivity.
Qed.

Lemma keeps_report_update_step_report l f : keeps_report (update_step_report l f).
Proof.
  apply keeps_report_same_view. intros s. unfold update_step_report, deref.
  rewrite bind_get. destruct (step_store s !! l); split; reflexivity.
Qed.

Lemma keeps_report_update_pending_check l f : keeps_report (update_pending_check l f).
Proof.
  apply keeps_report_same_view. intros s. unfold update_pending_check, deref.
  rewrite bind_get. destruct (check_store s !! l); split; reflexivity.
Qed.

Lemma keeps_report_new_pending_check c : keeps_report (new_pending_check c).
Proof. apply keeps_report_same_view. intros s. split; reflexivity. Qed.

(** An assignment to [successful]. *)
Lemma keeps_report_successful f :
  (forall r, exists b, f r = report_with_successful b r) ->
  keeps_report (update_scenario_report f).
Proof.
  intros Hf s Hinv. unfold update_scenario_report. rewrite bind_get.
  unfold report_invariant, report_kept in *.
  destruct (_scenario_report s) as [r |] eqn:Hr; simpl.
  - destruct (Hf r) as [b ->].
    split; [exact Hinv |]. intros r0 [= <-]. eexists. split; [reflexivity |].
    unfold report_extends. simpl. repeat split; auto.
  - rewrite Hr. split; [exact I | intros r0 H; discriminate H ].
Qed.

(** One step of the proofs below, for the operations that are sequences of
    such steps. *)
Ltac keeps_report_step :=
  cbv zeta;
  first
    [ apply keeps_report_ret | apply keeps_report_raise | apply keeps_report_get
    | apply keeps_report_expect_phase | apply keeps_report_attr_of
    | apply keeps_report_deref | apply keeps_report_new_pending_check
    | apply keeps_report_update_step_report
    | apply keeps_report_update_pending_check
    | apply keeps_report_successful; solve [ intros ?; eexists; reflexivity ]
    | apply keeps_report_modify; solve [ intros ?; split; reflexivity ]
    | match goal with
      | |- keeps_report (bind _ _) => apply keeps_report_bind; [| intros ? ]
      | |- keeps_report (for_each _ _) => apply keeps_report_for_each; intros ?
      | |- keeps_report (match ?x with _ => _ end) => destruct x
      end ].

Lemma keeps_report_record_query query : keeps_report (record_query query).
Proof. unfold record_query. repeat keeps_report_step. Qed.

Lemma keeps_report_check name participants :
  keeps_report (check name participants ;;; ret tt).
Proof. unfold check. repeat keeps_report_step. Qed.

Lemma keeps_report_record_passed self participants requirements :
  keeps_report (record_passed self participants requirements).
Proof. unfold record_passed. repeat keeps_report_step. Qed.

Lemma keeps_report___exit__ self : keeps_report (__exit__ self).
Proof. unfold __exit__. repeat keeps_report_step. apply keeps_report_record_passed. Qed.

Lemma keeps_report_evaluate_success : keeps_report evaluate_success.
Proof.
  unfold evaluate_success, flag_if_not_low, read_scenario_report, read_case_report,
    read_step_report.
  repeat keeps_report_step.
Qed.

(** The operations that change the phase or the report are taken one by
    one; each starts with the phase expectation. *)
Ltac expect_phase_report Hinv Hp :=
  match goal with
  | |- context [bind (_expect_phase ?c ?ps) ?k ?s] =>
      destruct (phase_in (_phase s) ps) eqn:Hp;
      [ rewrite (bind_Ok _ k _ _ _ (_expect_phase_Ok c ps s Hp));
        apply phase_in_In in Hp
      | rewrite (bind_Raise _ k _ _ _ (_expect_phase_Raise c ps s Hp));
        exact (conj Hinv (report_kept_refl s)) ]
  end.

Ltac report_done :=
  unfold report_invariant, report_kept, report_extends, notes_of in *; simpl in *;
  repeat match goal with
         | H : _scenario_report _ = _ |- _ => rewrite H in *
         end;
  simpl in *;
  split;
  [ intuition (try discriminate; try congruence)
  | first
      [ solve [ intros ? H; discriminate H ]
      | try (intros ? ?; simplify_eq/=; eexists; split; [reflexivity |]; simpl;
             intuition (try discriminate; try congruence; eauto)) ] ].

Lemma keeps_report_go_to_cleanup : keeps_report go_to_cleanup.
Proof.
  intros s Hinv. unfold go_to_cleanup. expect_phase_report Hinv Hp.
  destruct (_scenario_report s) as [r |] eqn:Hr; report_done.
Qed.

Lemma keeps_report_skip_cleanup : keeps_report skip_cleanup.
Proof.
  intros s Hinv. unfold skip_cleanup. expect_phase_report Hinv Hp.
  rewrite bind_get.
  destruct (documentation s) as [doc |];
    [| exact (conj Hinv (report_kept_refl s)) ].
  cbn [attr_of]. rewrite bind_ret.
  destruct (cleanup doc) as [[d |] |];
    [exact (conj Hinv (report_kept_refl s)) | |];
    destruct (_scenario_report s) as [r |] eqn:Hr; report_done.
Qed.

Lemma keeps_report_end_test_scenario now : keeps_report (end_test_scenario now).
Proof.
  intros s Hinv. unfold end_test_scenario. expect_phase_report Hinv Hp.
  cbv beta iota delta [bind modify update_scenario_report get ret attr_of].
  destruct (_scenario_report s) as [r |] eqn:Hr; simpl; report_done.
Qed.

Lemma keeps_report_begin_test_scenario now : keeps_report (begin_test_scenario now).
Proof.
  intros s Hinv. unfold begin_test_scenario. expect_phase_report Hinv Hp.
  unfold _make_scenario_report. cbv beta iota delta [bind get].
  destruct (documentation s) as [doc |];
    [| exact (conj Hinv (report_kept_refl s)) ].
  destruct (declaration s) as [decl |];
    [| exact (conj Hinv (report_kept_refl s)) ].
  simpl. destruct (_scenario_report s) as [r |] eqn:Hr; report_done.
Qed.

Lemma keeps_report_begin_test_step name now : keeps_report (begin_test_step name now).
Proof.
  intros s Hinv. unfold begin_test_step. expect_phase_report Hinv Hp.
  rewrite bind_get.
  destruct (_current_case s) as [cc |];
    [| exact (conj Hinv (report_kept_refl s)) ].
  cbn [attr_of]. rewrite bind_ret.
  destruct (PyDict.get name _) as [d |];
    [| exact (conj Hinv (report_kept_refl s)) ].
  cbv beta iota delta [bind modify new_step_report update_case_report get ret
                         attr_of deref].
  simpl.
  destruct (_case_report s) as [cl |]; simpl;
    [destruct (case_store s !! cl) as [cr |]; simpl |];
    destruct (_scenario_report s) as [r |] eqn:Hr; report_done.
Qed.

Lemma keeps_report_end_test_step now : keeps_report (end_test_step now).
Proof.
  intros s Hinv. unfold end_test_step. expect_phase_report Hinv Hp.
  rewrite bind_get.
  destruct (_step_report s) as [l |];
    [| exact (conj Hinv (report_kept_refl s)) ].
  cbn [attr_of]. rewrite bind_ret.
  cbv beta iota delta [bind modify update_step_report get ret deref].
  destruct (step_store s !! l) as [sr |]; simpl;
    destruct (_scenario_report s) as [r |] eqn:Hr; report_done.
Qed.

Lemma keeps_report_end_test_case now : keeps_report (end_test_case now).
Proof.
  intros s Hinv. unfold end_test_case. expect_phase_report Hinv Hp.
  rewrite bind_get.
  destruct (_case_report s) as [l |];
    [| exact (conj Hinv (report_kept_refl s)) ].
  cbn [attr_of]. rewrite bind_ret.
  cbv beta iota delta [bind modify update_case_report get ret deref].
  destruct (case_store s !! l) as [cr |]; simpl;
    destruct (_scenario_report s) as [r |] eqn:Hr; report_done.
Qed.

Lemma keeps_report_end_cleanup now : keeps_report (end_cleanup now).
Proof.
  intros s Hinv. unfold end_cleanup. expect_phase_report Hinv Hp.
  rewrite bind_get.
  destruct (_step_report s) as [l |];
    [| exact (conj Hinv (report_kept_refl s)) ].
  cbn [attr_of]. rewrite bind_ret.
  cbv beta iota delta [bind modify update_step_report get ret deref].
  destruct (step_store s !! l) as [sr |]; simpl;
    destruct (_scenario_report s) as [r |] eqn:Hr; report_done.
Qed.

Lemma keeps_report_begin_cleanup now : keeps_report (begin_cleanup now).
Proof.
  intros s Hinv. unfold begin_cleanup. expect_phase_report Hinv Hp.
  rewrite bind_get.
  destruct (documentation s) as [doc |];
    [| exact (conj Hinv (report_kept_refl s)) ].
  cbn [attr_of]. rewrite bind_ret.
  destruct (cleanup doc) as [[d |] |];
    [| exact (conj Hinv (report_kept_refl s)) | exact (conj Hinv (report_kept_refl s)) ].
  cbv beta iota delta [bind modify new_step_report update_scenario_report get ret
                         attr_of].
  simpl. destruct (_scenario_report s) as [r |] eqn:Hr; simpl; report_done.
Qed.

Lemma keeps_report_begin_test_case name now : keeps_report (begin_test_case name now).
Proof.
  intros s Hinv. unfold begin_test_case. expect_phase_report Hinv Hp.
  rewrite bind_get.
  destruct (documentation s) as [doc |];
    [| exact (conj Hinv (report_kept_refl s)) ].
  cbn [attr_of]. rewrite bind_ret.
  destruct (PyDict.get name _) as [c |];
    [| exact (conj Hinv (report_kept_refl s)) ].
  destruct (_scenario_report s) as [r |] eqn:Hr;
    [| exact (conj Hinv (report_kept_refl s)) ].
  cbn [attr_of]. rewrite bind_ret.
  pose proof (list_comprehension_names_state (case_store s) (r_cases r) s) as Hs.
  destruct (list_comprehension (r_cases r) _ s) as [[ran | e] s'] eqn:E;
    simpl in Hs; subst s';
    [ rewrite !(bind_Ok _ _ _ _ _ E)
    | rewrite !(bind_Raise _ _ _ _ _ E); exact (conj Hinv (report_kept_refl s)) ].
  destruct (existsb (String.eqb name) ran);
    [exact (conj Hinv (report_kept_refl s)) |].
  cbv beta iota delta [bind modify new_case_report update_scenario_report get ret
                         attr_of].
  simpl. rewrite Hr. simpl. report_done.
  all: now apply prefix_app_r.
Qed.

Lemma keeps_report_record_note key message now :
  keeps_report (record_note key message now).
Proof.
  intros s Hinv. unfold record_note. expect_phase_report Hinv Hp.
  rewrite bind_get.
  destruct (_scenario_report s) as [r |] eqn:Hr;
    [| exact (conj Hinv (report_kept_refl s)) ].
  simpl. report_done.
  all: match goal with
       | |- is_Some (<[?k := _]> _ !! ?k') =>
           destruct (decide (k = k')) as [-> | Hne];
           [ rewrite lookup_insert_eq; eauto
           | rewrite lookup_insert_ne by exact Hne; assumption ]
       end.
Qed.

Lemma keeps_report_record_execution_error e now :
  keeps_report (record_execution_error e now).
Proof.
  intros s Hinv. unfold record_execution_error. rewrite bind_get.
  destruct (ScenarioPhase_eqb (_phase s) Complete) eqn:Hc;
    [exact (conj Hinv (report_kept_refl s)) |].
  assert (Hnot : _phase s <> Complete)
    by (intros E; apply ScenarioPhase_eqb_eq in E; congruence).
  destruct (_scenario_report s) as [r |] eqn:Hr.
  - cbv beta iota delta [bind modify update_scenario_report get ret attr_of].
    rewrite Hr. simpl. report_done.
  - unfold _make_scenario_report. cbv beta iota delta [bind get].
    destruct (documentation s) as [doc |];
      [| exact (conj Hinv (report_kept_refl s)) ].
    destruct (declaration s) as [decl |];
      [| exact (conj Hinv (report_kept_refl s)) ].
    cbv beta iota delta [bind modify update_scenario_report get ret attr_of].
    simpl. report_done.
Qed.

Lemma keeps_report_get_report now : keeps_report (get_report now).
Proof.
  intros s Hinv. destruct (starting_report now s) as [r0 |] eqn:Hstart.
  - destruct (get_report_settles now s r0 Hstart) as (Hrun & Hr1 & _).
    rewrite Hrun. clear Hrun.
    match type of Hr1 with
    | _scenario_report ?x = Some ?y => set (s1 := x) in *; set (r1 := y) in *
    end.
    assert (H1 : report_invariant s1 /\ report_kept s s1).
    { subst s1 r1. revert Hstart. unfold starting_report.
      destruct (_scenario_report s) as [r |] eqn:Hr.
      - intros [= <-].
        destruct (execution_error r) as [err |] eqn:Herr.
        + rewrite (set_scenario_report_same s r Hr).
          exact (conj Hinv (report_kept_refl s)).
        + destruct (ScenarioPhase_eqb (_phase s) Complete) eqn:Hc; cbn [negb].
          * rewrite (set_scenario_report_same s r Hr).
            exact (conj Hinv (report_kept_refl s)).
          * report_done.
      - destruct (documentation s) as [doc |]; [| discriminate ].
        destruct (declaration s) as [decl |]; [| discriminate ].
        intros [= <-]. cbn [execution_error].
        destruct (ScenarioPhase_eqb (_phase s) Complete) eqn:Hc; cbn [negb];
          [| report_done ].
        apply ScenarioPhase_eqb_eq in Hc. report_done. }
    destruct H1 as [Hinv1 Hkept1].
    destruct (keeps_report_evaluate_success s1 Hinv1) as [Hinv2 Hkept2].
    split; [exact Hinv2 | exact (report_kept_trans _ _ _ Hkept1 Hkept2) ].
  - assert (Hraise : get_report now s = (Raise AttributeError, s)).
    { unfold get_report. rewrite bind_get.
      pose proof (report_is_made now s) as Hmade. rewrite Hstart in Hmade.
      now rewrite (bind_Raise _ _ _ _ _ Hmade). }
    rewrite Hraise. exact (conj Hinv (report_kept_refl s)).
Qed.

Lemma keeps_report_invoke op : keeps_report (invoke op).
Proof.
  destruct op; simpl.
  - apply keeps_report_begin_test_scenario.
  - apply keeps_report_begin_test_case.
  - apply keeps_report_begin_test_step.
  - apply keeps_report_end_test_step.
  - apply keeps_report_end_test_case.
  - apply keeps_report_end_test_scenario.
  - apply keeps_report_go_to_cleanup.
  - apply keeps_report_begin_cleanup.
  - apply keeps_report_skip_cleanup.
  - apply keeps_report_end_cleanup.
  - apply keeps_report_record_query.
  - apply keeps_report_check.
Qed.

Lemma initial_report_invariant s : initial s -> report_invariant s.
Proof. intros (_ & Hr & _). unfold report_invariant. now rewrite Hr. Qed.

Section History.
Variable run_callback : Callback -> FailedCheck -> M unit.
Hypothesis callbacks_keep_stores :
  forall f failed_check, keeps_stores (run_callback f failed_check).
Hypothesis callbacks_keep_report :
  forall f failed_check, keeps_report (run_callback f failed_check).

Lemma keeps_record_failed self summary severity details participants
    query_timestamps additional_data requirements now :
  keeps_stores
    (record_failed run_callback self summary severity details participants
       query_timestamps additional_data requirements now).
Proof. unfold record_failed. keeps; apply callbacks_keep_stores. Qed.

Lemma keeps_report_record_failed self summary severity details participants
    query_timestamps additional_data requirements now :
  keeps_report
    (record_failed run_callback self summary severity details participants
       query_timestamps additional_data requirements now).
Proof.
  unfold record_failed. repeat keeps_report_step; apply callbacks_keep_report.
Qed.

Lemma keeps_perform a : keeps_stores (perform run_callback a).
Proof.
  destruct a; simpl.
  - apply keeps_invoke.
  - apply keeps_record_note.
  - apply keeps_record_execution_error.
  - apply keeps_bind; [apply keeps_get_report | intros _; apply keeps_ret ].
  - apply keeps_record_passed.
  - apply keeps_record_failed.
  - apply keeps___exit__.
Qed.

Lemma keeps_report_perform a : keeps_report (perform run_callback a).
Proof.
  destruct a; simpl.
  - apply keeps_report_invoke.
  - apply keeps_report_record_note.
  - apply keeps_report_record_execution_error.
  - apply keeps_report_bind;
      [apply keeps_report_get_report | intros _; apply keeps_report_ret ].
  - apply keeps_report_record_passed.
  - apply keeps_report_record_failed.
  - apply keeps_report___exit__.
Qed.

Lemma reachable_report_invariant s : reachable run_callback s -> report_invariant s.
Proof.
  induction 1 as [s Hinit | s a _ IH].
  - now apply initial_report_invariant.
  - exact (proj1 (keeps_report_perform a s IH)).
Qed.

Lemma history_from_invariant (actions : list Action) :
  forall s, report_invariant s -> history_extends s (perform_all run_callback actions s).
Proof.
  induction actions as [| a actions IH]; intros s Hinv.
  - split; [apply stores_extend_refl | apply report_kept_refl ].
  - simpl. destruct (keeps_report_perform a s Hinv) as [Hinv1 Hkept1].
    destruct (IH _ Hinv1) as [Hstores2 Hkept2]. split.
    + exact (stores_extend_trans _ _ _ (keeps_perform a s) Hstores2).
    + exact (report_kept_trans _ _ _ Hkept1 Hkept2).
Qed.

(** X20. From any state that a driver can reach, and whatever it calls then,
    in whatever order and with whatever outcome, the report tree only
    grows, as long as the failure observers do not shrink it themselves.
    The scenario report keeps its name, type and start time, its cases in
    their order before those begun later, its cleanup step and its
    execution error once it has them, and a note under every key that had
    one (the note itself is replaced when [record_note] is called again
    with its key); every case report keeps its name and start time and its
    steps in the same way; every step report stays at its place with its
    name and start time, and its passed checks, failed checks and queries
    remain, in their order, before those recorded later; and a pending
    check stays with its step, its outcome once recorded staying recorded.
    End times and the [successful] flag are not covered. *)
Theorem recorded_history_is_kept (actions : list Action) (s : State) :
  reachable run_callback s ->
  history_extends s (perform_all run_callback actions s).
Proof.
  intros Hs. apply history_from_invariant. now apply reachable_report_invariant.
Qed.
End History.

Lemma recorded_history_is_kept_witness :
  history_extends
    (snd (perform no_callbacks (phase_operation (call_begin_test_scenario 1%Z))
            (new_scenario example_documentation None)))
    (perform_all no_callbacks
       [ phase_operation (call_begin_test_case "Setup" 2%Z);
         phase_operation (call_begin_test_step "Clear area" 3%Z);
         phase_operation (call_check "Area is clear" None);
         call_record_failed 0 "area not clear" High "" None None None None 4%Z;
         phase_operation call_go_to_cleanup;
         phase_operation call_skip_cleanup;
         call_get_report 5%Z ]
       (snd (perform no_callbacks (phase_operation (call_begin_test_scenario 1%Z))
               (new_scenario example_documentation None)))).
Proof.
  apply (recorded_history_is_kept no_callbacks).
  - intros f failed_check. apply keeps_ret.
  - intros f failed_check. apply keeps_report_ret.
  - apply reachable_step, reachable_initial, new_scenario_initial.
Defined.
